(** * PiggyPLAN: the client-side game store ([src/components/store/gameStore.ts])

    A shallow embedding of the store and of the properties its specification
    states about it.

    Modelling choices.
    - A JavaScript [number] is a value of [num]: [NaN], the two infinities,
      or a finite number.  A finite double is a rational, so finite numbers
      are carried as [Q].  Comparisons, [Math.max], [Math.min], [Math.round],
      [Math.floor] and [Math.abs] are exact on doubles and are modelled
      exactly.  [+] and [-] are modelled as exact rational operations,
      where the source rounds the result to the nearest double.  The two
      agree whenever the exact result is a double, in particular when the
      operands and the result are whole numbers of magnitude at most 2^53:
      every statement that gives the value of a sum or of a difference is
      made in that range.  Statements about the sign or the order of a
      result hold of the rounded result as well, since rounding is monotone
      and leaves whole numbers of that range alone.  [-0] is identified
      with [0] (they are [===]-equal), and every numeric literal the store
      writes is an integer [int z].
    - [Record<K, V>] over one of the three fixed key types is a record with
      one field per key, read and written by key with a getter and a setter.
    - The module-level variable [state] and the pet-age map that lives in
      [localStorage] form the [World] each mutator transforms.  The write
      of [state] to [localStorage] and the listener fan-out do not feed back
      into [state]; they are left out.
    - [uid()] and [Date.now()] are inputs ([Env]) of the mutators that call
      them.
    - [normalize] is embedded twice: on the declared type [GameState], which
      is what every mutator hands it, and on untyped JSON-like objects
      ([Raw.normalize]), which is what [JSON.parse] can hand it at boot.
      [raw_normalize_encode] shows that the two agree on well-typed states. *)

From Stdlib Require Import ZArith QArith Qround Qabs Lqa Lia.
From stdpp Require Import gmap strings list fin_maps pretty.

Set Warnings "-register-all".
Local Open Scope Z_scope.

(* ================================================================= *)
(** ** JavaScript numbers *)

Inductive num : Type :=
| NaN
| NInf
| PInf
| Fin (q : Q).

(** An integer literal. *)
Definition int (z : Z) : num := Fin (inject_Z z).

Definition Qlt_bool (x y : Q) : bool := negb (Qle_bool y x).

(** [a < b] *)
Definition num_lt (a b : num) : bool :=
  match a, b with
  | NaN, _ | _, NaN => false
  | _, NInf => false
  | NInf, _ => true
  | PInf, _ => false
  | Fin _, PInf => true
  | Fin x, Fin y => Qlt_bool x y
  end.

(** [a <= b] *)
Definition num_le (a b : num) : bool :=
  match a, b with
  | NaN, _ | _, NaN => false
  | NInf, _ => true
  | _, PInf => true
  | _, NInf => false
  | PInf, _ => false
  | Fin x, Fin y => Qle_bool x y
  end.

(** [a > b] and [a >= b] *)
Definition num_gt (a b : num) : bool := num_lt b a.
Definition num_ge (a b : num) : bool := num_le b a.

Definition isFinite (n : num) : bool :=
  match n with Fin _ => true | _ => false end.

(** [Math.max(a, b)] and [Math.min(a, b)]: [NaN] if either argument is. *)
Definition Math_max (a b : num) : num :=
  match a, b with
  | NaN, _ | _, NaN => NaN
  | _, _ => if num_lt a b then b else a
  end.

Definition Math_min (a b : num) : num :=
  match a, b with
  | NaN, _ | _, NaN => NaN
  | _, _ => if num_lt b a then b else a
  end.

(** [Math.round(n)]: the nearest integer, ties towards +infinity. *)
Definition Math_round (n : num) : num :=
  match n with
  | Fin q => int (Qfloor (q + (1 # 2)))
  | _ => n
  end.

Definition Math_floor (n : num) : num :=
  match n with
  | Fin q => int (Qfloor q)
  | _ => n
  end.

Definition Math_abs (n : num) : num :=
  match n with
  | NaN => NaN
  | NInf | PInf => PInf
  | Fin q => Fin (Qabs q)
  end.

Definition num_neg (n : num) : num :=
  match n with
  | NaN => NaN
  | NInf => PInf
  | PInf => NInf
  | Fin q => Fin (- q)
  end.

(** [a + b], as the exact sum.  The source's sum is this one rounded to the
    nearest double; nothing is rounded when both operands and the sum are
    whole numbers of magnitude at most 2^53. *)
Definition num_add (a b : num) : num :=
  match a, b with
  | NaN, _ | _, NaN => NaN
  | PInf, NInf | NInf, PInf => NaN
  | PInf, _ | _, PInf => PInf
  | NInf, _ | _, NInf => NInf
  | Fin x, Fin y => Fin (x + y)
  end.

(** [a - b], as the exact difference (see [num_add]). *)
Definition num_sub (a b : num) : num := num_add a (num_neg b).

(** Truthiness of a number: [NaN] and zero are falsy. *)
Definition truthy (n : num) : bool :=
  match n with
  | NaN => false
  | Fin q => negb (Qeq_bool q 0)
  | _ => true
  end.

(** [a || b] on numbers. *)
Definition num_or (a b : num) : num := if truthy a then a else b.


(* ================================================================= *)
(** ** Types *)

Inductive AnimalId : Type :=
| Pig | Dog | Cat | Fox | Bunny | Unicorn | Snake | Panda | Dragon.

Inductive AccessoryId : Type := Collar | Leash | Headband.

Inductive TxType : Type := income | expense.

Inductive NeedId : Type := Hunger | Thirst | Health | Fun | Sleep.

#[global] Instance AccessoryId_eq_dec : EqDecision AccessoryId.
Proof. solve_decision. Defined.

(** The string an [AnimalId] is in the source. *)
Definition AnimalId_string (a : AnimalId) : string :=
  match a with
  | Pig => "pig" | Dog => "dog" | Cat => "cat" | Fox => "fox"
  | Bunny => "bunny" | Unicorn => "unicorn" | Snake => "snake"
  | Panda => "panda" | Dragon => "dragon"
  end.

Definition AccessoryId_string (a : AccessoryId) : string :=
  match a with
  | Collar => "collar" | Leash => "leash" | Headband => "headband"
  end.

Definition NeedId_string (n : NeedId) : string :=
  match n with
  | Hunger => "hunger" | Thirst => "thirst" | Health => "health"
  | Fun => "fun" | Sleep => "sleep"
  end.

Definition TxType_string (t : TxType) : string :=
  match t with income => "income" | expense => "expense" end.

(** [Record<NeedId, number>] *)
Record Needs : Type := mkNeeds {
  hunger : num;
  thirst : num;
  health : num;
  fun_ : num;
  sleep : num;
}.

Definition need_get (k : NeedId) (n : Needs) : num :=
  match k with
  | Hunger => hunger n | Thirst => thirst n | Health => health n
  | Fun => fun_ n | Sleep => sleep n
  end.

(** [{ ...n, [k]: v }] *)
Definition need_set (k : NeedId) (v : num) (n : Needs) : Needs :=
  match k with
  | Hunger => mkNeeds v (thirst n) (health n) (fun_ n) (sleep n)
  | Thirst => mkNeeds (hunger n) v (health n) (fun_ n) (sleep n)
  | Health => mkNeeds (hunger n) (thirst n) v (fun_ n) (sleep n)
  | Fun => mkNeeds (hunger n) (thirst n) (health n) v (sleep n)
  | Sleep => mkNeeds (hunger n) (thirst n) (health n) (fun_ n) v
  end.

Record Transaction : Type := mkTransaction {
  id : string;
  createdAt : num;
  type : TxType;
  amount : num;
  category : string;
  note : string;
}.

(** [Record<AccessoryId, A>] *)
Record AccessoryRecord (A : Type) : Type := mkAccessoryRecord {
  collar : A;
  leash : A;
  headband : A;
}.
Arguments mkAccessoryRecord {A} _ _ _.
Arguments collar {A} _.
Arguments leash {A} _.
Arguments headband {A} _.

Definition accessory_get {A} (k : AccessoryId) (r : AccessoryRecord A) : A :=
  match k with
  | Collar => collar r | Leash => leash r | Headband => headband r
  end.

Definition accessory_set {A} (k : AccessoryId) (v : A) (r : AccessoryRecord A)
  : AccessoryRecord A :=
  match k with
  | Collar => mkAccessoryRecord v (leash r) (headband r)
  | Leash => mkAccessoryRecord (collar r) v (headband r)
  | Headband => mkAccessoryRecord (collar r) (leash r) v
  end.

Definition EquippedAccessories : Type := AccessoryRecord bool.
Definition OwnedAccessories : Type := AccessoryRecord num.

(** [Record<AnimalId, A>] *)
Record AnimalRecord (A : Type) : Type := mkAnimalRecord {
  pig : A;
  dog : A;
  cat : A;
  fox : A;
  bunny : A;
  unicorn : A;
  snake : A;
  panda : A;
  dragon : A;
}.
Arguments mkAnimalRecord {A} _ _ _ _ _ _ _ _ _.
Arguments pig {A} _.
Arguments dog {A} _.
Arguments cat {A} _.
Arguments fox {A} _.
Arguments bunny {A} _.
Arguments unicorn {A} _.
Arguments snake {A} _.
Arguments panda {A} _.
Arguments dragon {A} _.

Definition animal_get {A} (k : AnimalId) (r : AnimalRecord A) : A :=
  match k with
  | Pig => pig r | Dog => dog r | Cat => cat r | Fox => fox r
  | Bunny => bunny r | Unicorn => unicorn r | Snake => snake r
  | Panda => panda r | Dragon => dragon r
  end.

Definition animal_set {A} (k : AnimalId) (v : A) (r : AnimalRecord A)
  : AnimalRecord A :=
  match k with
  | Pig => mkAnimalRecord v (dog r) (cat r) (fox r) (bunny r) (unicorn r) (snake r) (panda r) (dragon r)
  | Dog => mkAnimalRecord (pig r) v (cat r) (fox r) (bunny r) (unicorn r) (snake r) (panda r) (dragon r)
  | Cat => mkAnimalRecord (pig r) (dog r) v (fox r) (bunny r) (unicorn r) (snake r) (panda r) (dragon r)
  | Fox => mkAnimalRecord (pig r) (dog r) (cat r) v (bunny r) (unicorn r) (snake r) (panda r) (dragon r)
  | Bunny => mkAnimalRecord (pig r) (dog r) (cat r) (fox r) v (unicorn r) (snake r) (panda r) (dragon r)
  | Unicorn => mkAnimalRecord (pig r) (dog r) (cat r) (fox r) (bunny r) v (snake r) (panda r) (dragon r)
  | Snake => mkAnimalRecord (pig r) (dog r) (cat r) (fox r) (bunny r) (unicorn r) v (panda r) (dragon r)
  | Panda => mkAnimalRecord (pig r) (dog r) (cat r) (fox r) (bunny r) (unicorn r) (snake r) v (dragon r)
  | Dragon => mkAnimalRecord (pig r) (dog r) (cat r) (fox r) (bunny r) (unicorn r) (snake r) (panda r) v
  end.

Definition OwnedPets : Type := AnimalRecord bool.

(** [Partial<Record<AnimalId, number>>] *)
Definition PetAges : Type := AnimalRecord (option num).

Record Badges : Type := mkBadges {
  accessory_1 : bool;
  accessory_2 : bool;
  accessory_4 : bool;
  days_5 : bool;
  days_10 : bool;
  days_15 : bool;
  days_25 : bool;
  days_50 : bool;
  days_100 : bool;
}.

Record GameState : Type := mkGameState {
  needs : Needs;
  money : num;
  animalId : AnimalId;
  ownedPets : OwnedPets;
  ownedAccessories : OwnedAccessories;
  equippedAccessories : EquippedAccessories;
  badges : Badges;
  daysPlayed : num;
  transactions : list Transaction;
}.

(** Field updates [{ ...s, field: v }]. *)
Definition with_needs (v : Needs) (s : GameState) : GameState :=
  mkGameState v (money s) (animalId s) (ownedPets s) (ownedAccessories s)
    (equippedAccessories s) (badges s) (daysPlayed s) (transactions s).
Definition with_money (v : num) (s : GameState) : GameState :=
  mkGameState (needs s) v (animalId s) (ownedPets s) (ownedAccessories s)
    (equippedAccessories s) (badges s) (daysPlayed s) (transactions s).
Definition with_animalId (v : AnimalId) (s : GameState) : GameState :=
  mkGameState (needs s) (money s) v (ownedPets s) (ownedAccessories s)
    (equippedAccessories s) (badges s) (daysPlayed s) (transactions s).
Definition with_ownedPets (v : OwnedPets) (s : GameState) : GameState :=
  mkGameState (needs s) (money s) (animalId s) v (ownedAccessories s)
    (equippedAccessories s) (badges s) (daysPlayed s) (transactions s).
Definition with_ownedAccessories (v : OwnedAccessories) (s : GameState) : GameState :=
  mkGameState (needs s) (money s) (animalId s) (ownedPets s) v
    (equippedAccessories s) (badges s) (daysPlayed s) (transactions s).
Definition with_equippedAccessories (v : EquippedAccessories) (s : GameState) : GameState :=
  mkGameState (needs s) (money s) (animalId s) (ownedPets s) (ownedAccessories s)
    v (badges s) (daysPlayed s) (transactions s).
Definition with_badges (v : Badges) (s : GameState) : GameState :=
  mkGameState (needs s) (money s) (animalId s) (ownedPets s) (ownedAccessories s)
    (equippedAccessories s) v (daysPlayed s) (transactions s).
Definition with_daysPlayed (v : num) (s : GameState) : GameState :=
  mkGameState (needs s) (money s) (animalId s) (ownedPets s) (ownedAccessories s)
    (equippedAccessories s) (badges s) v (transactions s).
Definition with_transactions (v : list Transaction) (s : GameState) : GameState :=
  mkGameState (needs s) (money s) (animalId s) (ownedPets s) (ownedAccessories s)
    (equippedAccessories s) (badges s) (daysPlayed s) v.

(* ================================================================= *)
(** ** Default state *)

Definition defaultState : GameState := {|
  needs := mkNeeds (int 0) (int 0) (int 0) (int 0) (int 0);
  money := int 0;
  animalId := Dog;
  ownedPets := mkAnimalRecord true true true true true false false false false;
  ownedAccessories := mkAccessoryRecord (int 0) (int 0) (int 0);
  equippedAccessories := mkAccessoryRecord false false false;
  badges := mkBadges false false false false false false false false false;
  daysPlayed := int 0;
  transactions := [];
|}.

(* ================================================================= *)
(** ** Helpers *)

(** [clampNeed(v)] on a number ([Number(v)] is then the identity). *)
Definition clampNeed (v : num) : num :=
  let n := v in
  if negb (isFinite n) then int 0
  else Math_max (int 0) (Math_min (int 100) (Math_round n)).

(** [clampNeeds(needs)] on a complete [Needs]: the merge with the defaults
    keeps every field of [needs]. *)
Definition clampNeeds (needs : Needs) : Needs :=
  let base := needs in
  {| hunger := clampNeed (hunger base);
     thirst := clampNeed (thirst base);
     health := clampNeed (health base);
     fun_ := clampNeed (fun_ base);
     sleep := clampNeed (sleep base) |}.

(** [normalize(s)] on a [GameState].  Every field is present, so the merges
    with the defaults keep the fields of [s], [Array.isArray(s.transactions)]
    holds and [s.animalId] is not nullish. *)
Definition normalize (s : GameState) : GameState := {|
  ownedPets := ownedPets s;
  ownedAccessories := ownedAccessories s;
  equippedAccessories := equippedAccessories s;
  badges := badges s;
  needs := clampNeeds (needs s);
  transactions := transactions s;
  money := Math_max (int 0) (num_or (money s) (int 0));
  daysPlayed := Math_max (int 0) (num_or (daysPlayed s) (int 0));
  animalId := animalId s;
|}.

Definition totalAccessoriesOwned (o : OwnedAccessories) : num :=
  num_add (num_add (collar o) (leash o)) (headband o).

Definition computeBadges (s : GameState) : Badges :=
  let acc := totalAccessoriesOwned (ownedAccessories s) in
  let d := daysPlayed s in
  {| accessory_1 := num_ge acc (int 1);
     accessory_2 := num_ge acc (int 2);
     accessory_4 := num_ge acc (int 4);
     days_5 := num_ge d (int 5);
     days_10 := num_ge d (int 10);
     days_15 := num_ge d (int 15);
     days_25 := num_ge d (int 25);
     days_50 := num_ge d (int 50);
     days_100 := num_ge d (int 100) |}.

Definition allNeedsComplete (needs : Needs) : bool :=
  num_ge (hunger needs) (int 100) &&
  num_ge (thirst needs) (int 100) &&
  num_ge (health needs) (int 100) &&
  num_ge (fun_ needs) (int 100) &&
  num_ge (sleep needs) (int 100).

(* ================================================================= *)
(** ** State *)

(** The store: the module variable [state] and the pet ages kept in
    [localStorage] under [PET_AGES_KEY]. *)
Record World : Type := mkWorld {
  state : GameState;
  petAges : PetAges;
}.

(** The initialiser of [state]; [loaded] is the result of [safeParse]. *)
Definition boot (loaded : option GameState) : GameState :=
  let base := match loaded with
              | Some l => normalize l
              | None => defaultState
              end in
  with_badges (computeBadges base) base.

Definition persist (nextRaw : GameState) (w : World) : World :=
  let normalized := normalize nextRaw in
  let next := with_badges (computeBadges normalized) normalized in
  {| state := next; petAges := petAges w |}.

Definition loadPetAges (w : World) : PetAges := petAges w.

Definition savePetAges (ages : PetAges) (w : World) : World :=
  {| state := state w; petAges := ages |}.

(* ================================================================= *)
(** ** Day advance *)

Definition advanceDayBecauseNeedsComplete (w : World) : World :=
  let ages := loadPetAges w in
  let currentPet := animalId (state w) in
  let ages := animal_set currentPet
                (Some (num_add (default (int 0) (animal_get currentPet ages)) (int 1)))
                ages in
  let w := savePetAges ages w in
  persist (with_needs (needs defaultState)
             (with_daysPlayed (num_add (daysPlayed (state w)) (int 1)) (state w))) w.

(* ================================================================= *)
(** ** Mutators *)

(** What [uid()] and [Date.now()] return in one call of a mutator. *)
Record Env : Type := mkEnv {
  uid : string;
  Date_now : num;
}.

(** [Omit<Transaction, "id" | "createdAt">] *)
Record TxInput : Type := mkTxInput {
  tx_type : TxType;
  tx_amount : num;
  tx_category : string;
  tx_note : string;
}.

(** [{ category?: string; note?: string }] *)
Record Meta : Type := mkMeta {
  meta_category : option string;
  meta_note : option string;
}.

Definition setSelectedPet (animalId : AnimalId) (w : World) : World :=
  persist (with_animalId animalId (state w)) w.

Definition setEquippedAccessory (accessory : AccessoryId) (equipped : bool)
  (w : World) : World :=
  if equipped && num_le (accessory_get accessory (ownedAccessories (state w))) (int 0)
  then w
  else persist
         (with_equippedAccessories
            (accessory_set accessory equipped (equippedAccessories (state w)))
            (state w)) w.

(** [[nextTx, ...txs].slice(0, 250)] *)
Definition push_tx (nextTx : Transaction) (txs : list Transaction)
  : list Transaction :=
  take 250 (nextTx :: txs).

Definition addTransaction (env : Env) (tx : TxInput) (w : World) : World :=
  let nextTx := {|
    id := uid env;
    createdAt := Date_now env;
    type := tx_type tx;
    amount := Math_max (int 0) (Math_round (tx_amount tx));
    category := tx_category tx;
    note := tx_note tx |} in
  persist (with_transactions (push_tx nextTx (transactions (state w))) (state w)) w.

Definition applyMoneyDelta (env : Env) (delta : num) (meta : option Meta)
  (w : World) : World :=
  let type_ := if num_ge delta (int 0) then income else expense in
  let amount_ := Math_abs (Math_round delta) in
  let nextTx := {|
    id := uid env;
    createdAt := Date_now env;
    type := type_;
    amount := amount_;
    category := default (match type_ with
                         | income => "Game Earned"
                         | expense => "Game Spent"
                         end) (meta ≫= meta_category);
    note := default (match type_ with
                     | income => "Earned on Map"
                     | expense => "Spent on Map"
                     end) (meta ≫= meta_note) |} in
  persist
    (with_transactions (push_tx nextTx (transactions (state w)))
       (with_money (Math_max (int 0) (Math_round (num_add (money (state w)) delta))) (state w)))
    w.

Definition setNeed (need : NeedId) (value : num) (w : World) : World :=
  let prevComplete := allNeedsComplete (needs (state w)) in
  let nextNeeds := clampNeeds (need_set need value (needs (state w))) in
  let nextComplete := allNeedsComplete nextNeeds in
  let w := persist (with_needs nextNeeds (state w)) w in
  if negb prevComplete && nextComplete
  then advanceDayBecauseNeedsComplete w
  else w.

Definition bumpNeed (need : NeedId) (delta : num) (w : World) : World :=
  let current := need_get need (needs (state w)) in
  setNeed need (num_add current delta) w.

(** The default argument [_by = 1] is never read. *)
Definition incrementDaysPlayed (_by : option num) (w : World) : World := w.

(** [count] is [None] when the argument is omitted (default [1]). *)
Definition addOwnedAccessory (accessory : AccessoryId) (count : option num)
  (w : World) : World :=
  let count := default (int 1) count in
  let add_ := Math_max (int 0) (Math_floor (num_or count (int 0))) in
  if num_le add_ (int 0) then w
  else persist
         (with_ownedAccessories
            (accessory_set accessory
               (Math_max (int 0)
                  (num_add (accessory_get accessory (ownedAccessories (state w))) add_))
               (ownedAccessories (state w)))
            (state w)) w.

Definition purchasePremiumPet (env : Env) (petId : AnimalId) (cost : num)
  (w : World) : World :=
  if animal_get petId (ownedPets (state w)) then w
  else
    let price := Math_max (int 0) (Math_round cost) in
    if num_lt (money (state w)) price then w
    else
      let nextTx := {|
        id := uid env;
        createdAt := Date_now env;
        type := expense;
        amount := price;
        category := "Pet Purchase";
        note := "Purchased " +:+ AnimalId_string petId |} in
      persist
        (with_transactions (push_tx nextTx (transactions (state w)))
           (with_ownedPets (animal_set petId true (ownedPets (state w)))
              (with_money (Math_max (int 0) (num_sub (money (state w)) price)) (state w))))
        w.

(** One call of the public mutator API. *)
Inductive Op : Type :=
| SetSelectedPet (animalId : AnimalId)
| SetEquippedAccessory (accessory : AccessoryId) (equipped : bool)
| AddTransaction (env : Env) (tx : TxInput)
| ApplyMoneyDelta (env : Env) (delta : num) (meta : option Meta)
| SetNeed (need : NeedId) (value : num)
| BumpNeed (need : NeedId) (delta : num)
| IncrementDaysPlayed (_by : option num)
| AddOwnedAccessory (accessory : AccessoryId) (count : option num)
| PurchasePremiumPet (env : Env) (petId : AnimalId) (cost : num).

Definition run (op : Op) (w : World) : World :=
  match op with
  | SetSelectedPet a => setSelectedPet a w
  | SetEquippedAccessory a e => setEquippedAccessory a e w
  | AddTransaction env tx => addTransaction env tx w
  | ApplyMoneyDelta env d m => applyMoneyDelta env d m w
  | SetNeed n v => setNeed n v w
  | BumpNeed n d => bumpNeed n d w
  | IncrementDaysPlayed b => incrementDaysPlayed b w
  | AddOwnedAccessory a c => addOwnedAccessory a c w
  | PurchasePremiumPet env p c => purchasePremiumPet env p c w
  end.

(** A sequence of calls, first call first. *)
Definition runs (ops : list Op) (w : World) : World :=
  foldl (fun w op => run op w) w ops.

(** The states the store can hold: the boot state, on any parsed content of
    [localStorage], and what the mutators make of a state it can hold. *)
Inductive Held : World -> Prop :=
| Held_boot loaded ages :
    Held {| state := boot loaded; petAges := ages |}
| Held_run op w :
    Held w -> Held (run op w).

(** The states reached from the default state (empty storage). *)
Inductive FromDefault : World -> Prop :=
| FromDefault_boot ages :
    FromDefault {| state := boot None; petAges := ages |}
| FromDefault_run op w :
    FromDefault w -> FromDefault (run op w).

(* ================================================================= *)
(** ** The normalizer on untyped input

    [safeParse] casts whatever [JSON.parse] returns to [GameState], and
    [normalize] reads it through [any].  Here the input is any JSON-like
    object: a finite map from property names to values. *)

Inductive Value : Type :=
| VUndefined
| VNull
| VBool (b : bool)
| VNum (n : num)
| VStr (s : string)
| VArr (l : list Value)
| VObj (m : gmap string Value).

(** [o.k] on an object: [undefined] when the property is absent. *)
Definition prop (o : gmap string Value) (k : string) : Value :=
  default VUndefined (o !! k).

(** [v ?? d] *)
Definition coalesce (v d : Value) : Value :=
  match v with
  | VUndefined | VNull => d
  | _ => v
  end.

(** The own enumerable properties [{ ...v }] copies: the properties of an
    object, the indexed elements of an array, the indexed characters of a
    string, none for the other primitives. *)
Definition own_props (v : Value) : gmap string Value :=
  match v with
  | VObj m => m
  | VArr l => list_to_map (imap (fun i x => (pretty i, x)) l)
  | VStr s => list_to_map
                (imap (fun i c => (pretty i, VStr (String c EmptyString)))
                   (String.list_ascii_of_string s))
  | _ => ∅
  end.

(** [{ ...a, ...b }] on property maps: [b] wins. *)
Definition spread (a b : gmap string Value) : gmap string Value := b ∪ a.

(** *** Encoding of well-typed states *)

Definition encode_needs (n : Needs) : gmap string Value :=
  <["hunger" := VNum (hunger n)]>
  (<["thirst" := VNum (thirst n)]>
  (<["health" := VNum (health n)]>
  (<["fun" := VNum (fun_ n)]>
  (<["sleep" := VNum (sleep n)]> ∅)))).

Definition encode_accessories {A} (f : A -> Value) (r : AccessoryRecord A)
  : gmap string Value :=
  <["collar" := f (collar r)]>
  (<["leash" := f (leash r)]>
  (<["headband" := f (headband r)]> ∅)).

Definition encode_animals {A} (f : A -> Value) (r : AnimalRecord A)
  : gmap string Value :=
  <["pig" := f (pig r)]>
  (<["dog" := f (dog r)]>
  (<["cat" := f (cat r)]>
  (<["fox" := f (fox r)]>
  (<["bunny" := f (bunny r)]>
  (<["unicorn" := f (unicorn r)]>
  (<["snake" := f (snake r)]>
  (<["panda" := f (panda r)]>
  (<["dragon" := f (dragon r)]> ∅)))))))).

Definition encode_badges (b : Badges) : gmap string Value :=
  <["accessory_1" := VBool (accessory_1 b)]>
  (<["accessory_2" := VBool (accessory_2 b)]>
  (<["accessory_4" := VBool (accessory_4 b)]>
  (<["days_5" := VBool (days_5 b)]>
  (<["days_10" := VBool (days_10 b)]>
  (<["days_15" := VBool (days_15 b)]>
  (<["days_25" := VBool (days_25 b)]>
  (<["days_50" := VBool (days_50 b)]>
  (<["days_100" := VBool (days_100 b)]> ∅)))))))).

Definition encode_transaction (t : Transaction) : Value :=
  VObj (<["id" := VStr (id t)]>
       (<["createdAt" := VNum (createdAt t)]>
       (<["type" := VStr (TxType_string (type t))]>
       (<["amount" := VNum (amount t)]>
       (<["category" := VStr (category t)]>
       (<["note" := VStr (note t)]> ∅)))))).

Definition encode (s : GameState) : gmap string Value :=
  <["needs" := VObj (encode_needs (needs s))]>
  (<["money" := VNum (money s)]>
  (<["animalId" := VStr (AnimalId_string (animalId s))]>
  (<["ownedPets" := VObj (encode_animals VBool (ownedPets s))]>
  (<["ownedAccessories" := VObj (encode_accessories VNum (ownedAccessories s))]>
  (<["equippedAccessories" := VObj (encode_accessories VBool (equippedAccessories s))]>
  (<["badges" := VObj (encode_badges (badges s))]>
  (<["daysPlayed" := VNum (daysPlayed s)]>
  (<["transactions" := VArr (encode_transaction <$> transactions s)]> ∅)))))))).

(** [defaultState.needs] as an object. *)
Definition default_needs : gmap string Value :=
  encode_needs (needs defaultState).

(** *** The source functions *)

Module Raw.

Section Normalizer.

(** [Number(v)] on a string, an array or an object goes through the
    language's string-to-number grammar; the normalizer is studied for any
    such conversion. *)
Variable ToNumber : Value -> num.

(** [Number(v)] *)
Definition Number (v : Value) : num :=
  match v with
  | VUndefined => NaN
  | VNull => int 0
  | VBool true => int 1
  | VBool false => int 0
  | VNum n => n
  | _ => ToNumber v
  end.

Definition clampNeed (v : Value) : num :=
  let n := Number v in
  if negb (isFinite n) then int 0
  else Math_max (int 0) (Math_min (int 100) (Math_round n)).

Definition clampNeeds (needs : Value) : gmap string Value :=
  let base := spread default_needs (own_props (coalesce needs (VObj ∅))) in
  <["hunger" := VNum (clampNeed (prop base "hunger"))]>
  (<["thirst" := VNum (clampNeed (prop base "thirst"))]>
  (<["health" := VNum (clampNeed (prop base "health"))]>
  (<["fun" := VNum (clampNeed (prop base "fun"))]>
  (<["sleep" := VNum (clampNeed (prop base "sleep"))]> ∅)))).

Definition normalize (s : gmap string Value) : gmap string Value :=
  let d := encode defaultState in
  <["ownedPets" :=
      VObj (spread (own_props (prop d "ownedPets"))
              (own_props (coalesce (prop s "ownedPets") (VObj ∅))))]>
  (<["ownedAccessories" :=
      VObj (spread (own_props (prop d "ownedAccessories"))
              (own_props (coalesce (prop s "ownedAccessories") (VObj ∅))))]>
  (<["equippedAccessories" :=
      VObj (spread (own_props (prop d "equippedAccessories"))
              (own_props (coalesce (prop s "equippedAccessories") (VObj ∅))))]>
  (<["badges" :=
      VObj (spread (own_props (prop d "badges"))
              (own_props (coalesce (prop s "badges") (VObj ∅))))]>
  (<["needs" := VObj (clampNeeds (prop s "needs"))]>
  (<["transactions" :=
      match prop s "transactions" with
      | VArr l => VArr l
      | _ => VArr []
      end]>
  (<["money" := VNum (Math_max (int 0) (num_or (Number (prop s "money")) (int 0)))]>
  (<["daysPlayed" :=
      VNum (Math_max (int 0) (num_or (Number (prop s "daysPlayed")) (int 0)))]>
  (<["animalId" := coalesce (prop s "animalId") (prop d "animalId")]>
  (spread d s))))))))).

End Normalizer.

End Raw.

(* ================================================================= *)
(** ** Vocabulary of the statements *)

(** [Math.max(0, Number(n) || 0)], the floor at zero of [money] and
    [daysPlayed]. *)
Definition floor0 (n : num) : num := Math_max (int 0) (num_or n (int 0)).

(** A committed state: what [persist] and the initialiser of [state]
    produce, a state the normalizer leaves alone whose badges are the
    derived ones. *)
Definition committed (s : GameState) : Prop :=
  normalize s = s /\ badges s = computeBadges s.

(** The rising edge [setNeed] tests for. *)
Definition prevComplete (w : World) : bool :=
  allNeedsComplete (needs (state w)).

Definition nextComplete (need : NeedId) (value : num) (w : World) : bool :=
  allNeedsComplete (clampNeeds (need_set need value (needs (state w)))).

Definition crossing (need : NeedId) (value : num) (w : World) : bool :=
  negb (prevComplete w) && nextComplete need value w.

(** No pet has an age yet. *)
Definition no_ages : PetAges :=
  mkAnimalRecord None None None None None None None None None.

(** The store booted on an empty [localStorage]. *)
Definition fresh : World := {| state := boot None; petAges := no_ages |}.

(** The store booted on a saved game in which only [sleep] is short of 100. *)
Definition almost_complete : World :=
  {| state := boot (Some (with_needs
                            (mkNeeds (int 100) (int 100) (int 100) (int 100) (int 99))
                            defaultState));
     petAges := no_ages |}.

(** The badge thresholds, flag by flag: the accessory badges on the sum of
    the three owned counts, the day badges on [daysPlayed].  The sum is
    given for whole counts at or above 0 that add up to at most 2^53. *)
Definition badges_derived (s : GameState) : Prop :=
  (forall c l h : Z,
      ownedAccessories s = mkAccessoryRecord (int c) (int l) (int h) ->
      0 <= c -> 0 <= l -> 0 <= h -> c + l + h <= 2 ^ 53 ->
      accessory_1 (badges s) = (1 <=? c + l + h)
      /\ accessory_2 (badges s) = (2 <=? c + l + h)
      /\ accessory_4 (badges s) = (4 <=? c + l + h))
  /\ days_5 (badges s) = num_ge (daysPlayed s) (int 5)
  /\ days_10 (badges s) = num_ge (daysPlayed s) (int 10)
  /\ days_15 (badges s) = num_ge (daysPlayed s) (int 15)
  /\ days_25 (badges s) = num_ge (daysPlayed s) (int 25)
  /\ days_50 (badges s) = num_ge (daysPlayed s) (int 50)
  /\ days_100 (badges s) = num_ge (daysPlayed s) (int 100).

(** A sequence of [addOwnedAccessory] calls, first call first. *)
Definition addOwnedAccessories (calls : list (AccessoryId * option num))
  (w : World) : World :=
  foldl (fun w c => addOwnedAccessory (fst c) (snd c) w) w calls.

(** The record [addTransaction] builds from its argument. *)
Definition new_transaction (env : Env) (tx : TxInput) : Transaction := {|
  id := uid env;
  createdAt := Date_now env;
  type := tx_type tx;
  amount := Math_max (int 0) (Math_round (tx_amount tx));
  category := tx_category tx;
  note := tx_note tx |}.

(** A sequence of [addTransaction] calls, first call first. *)
Definition addTransactions (calls : list (Env * TxInput)) (w : World) : World :=
  foldl (fun w c => addTransaction (fst c) (snd c) w) w calls.

(** The price [purchasePremiumPet] charges for a [cost]. *)
Definition price_of (cost : num) : num := Math_max (int 0) (Math_round cost).

(** The record [purchasePremiumPet] logs. *)
Definition purchase_record (env : Env) (petId : AnimalId) (cost : num)
  : Transaction := {|
  id := uid env;
  createdAt := Date_now env;
  type := expense;
  amount := price_of cost;
  category := "Pet Purchase";
  note := "Purchased " +:+ AnimalId_string petId |}.

(** The record [applyMoneyDelta] synthesizes. *)
Definition delta_type (delta : num) : TxType :=
  if num_ge delta (int 0) then income else expense.

Definition delta_record (env : Env) (delta : num) (meta : option Meta)
  : Transaction := {|
  id := uid env;
  createdAt := Date_now env;
  type := delta_type delta;
  amount := Math_abs (Math_round delta);
  category := default (match delta_type delta with
                       | income => "Game Earned"
                       | expense => "Game Spent"
                       end) (meta ≫= meta_category);
  note := default (match delta_type delta with
                   | income => "Earned on Map"
                   | expense => "Spent on Map"
                   end) (meta ≫= meta_note) |}.

(** Some value of [uid()] and [Date.now()]. *)
Definition env0 : Env := {| uid := "a1b2c3"; Date_now := int 1700000000000 |}.

(** The store booted on a saved game with the given balance. *)
Definition with_balance (m : num) : World :=
  {| state := boot (Some (with_money m defaultState)); petAges := no_ages |}.

(** The equip invariant: an equipped accessory is owned. *)
Definition equip_requires_owned (s : GameState) : Prop :=
  forall a, accessory_get a (equippedAccessories s) = true ->
            num_gt (accessory_get a (ownedAccessories s)) (int 0) = true.

(** Owned counts are numbers at or above zero. *)
Definition counts_nonneg (s : GameState) : Prop :=
  forall a, num_ge (accessory_get a (ownedAccessories s)) (int 0) = true.

(** The store booted on a saved game that wears a collar it does not own. *)
Definition unowned_collar : World :=
  {| state := boot (Some (with_equippedAccessories
                            (mkAccessoryRecord true false false) defaultState));
     petAges := no_ages |}.

(** The store booted on a saved game whose day counter is 2.5. *)
Definition half_day : World :=
  {| state := boot (Some (with_daysPlayed (Fin (5 # 2)) defaultState));
     petAges := no_ages |}.

Definition nonneg_integer (n : num) : Prop :=
  exists z : Z, 0 <= z /\ n = int z.

(** What a rounded balance can be: a whole number at or above 0, or
    [Infinity]. *)
Definition whole_or_infinite (n : num) : Prop :=
  nonneg_integer n \/ n = PInf.

(** The calls on which the day-advance trigger fires. *)
Definition advances (op : Op) (w : World) : bool :=
  match op with
  | SetNeed need value => crossing need value w
  | BumpNeed need delta =>
      crossing need (num_add (need_get need (needs (state w))) delta) w
  | _ => false
  end.

(** A call whose sum [current + delta], if it is a [bumpNeed], is exact on
    the whole needs the store holds: [delta] is a whole number, [NaN] or
    infinite.  (A whole sum beyond 2^53 is rounded, and clamps to the same
    end of the range.) *)
Definition whole_bump (op : Op) : Prop :=
  match op with
  | BumpNeed need delta => isFinite delta = false \/ exists d : Z, delta = int d
  | _ => True
  end.

(** The log after one call: only three mutators write it. *)
Definition log_after (op : Op) (w : World) : list Transaction :=
  let old := transactions (state w) in
  match op with
  | AddTransaction env tx => take 250 (new_transaction env tx :: old)
  | ApplyMoneyDelta env delta meta =>
      take 250 (delta_record env delta meta :: old)
  | PurchasePremiumPet env petId cost =>
      if animal_get petId (ownedPets (state w))
         || num_lt (money (state w)) (price_of cost)
      then old
      else take 250 (purchase_record env petId cost :: old)
  | _ => old
  end.

(** A saved game with 251 log entries. *)
Definition long_log : GameState :=
  with_transactions
    (replicate 251 (mkTransaction "t" (int 0) income (int 1) "c" "n"))
    defaultState.

(* ================================================================= *)
(** ** Vocabulary of the further properties *)

#[global] Instance AnimalId_eq_dec : EqDecision AnimalId.
Proof. solve_decision. Defined.

(** The age of a pet: [ages[pet] ?? 0]. *)
Definition age_of (a : AnimalId) (ages : PetAges) : num :=
  default (int 0) (animal_get a ages).

(** The ages of the nine pets, added up. *)
Definition total_age (ages : PetAges) : num :=
  num_add (num_add (num_add (num_add (num_add (num_add (num_add (num_add
    (age_of Pig ages) (age_of Dog ages)) (age_of Cat ages)) (age_of Fox ages))
    (age_of Bunny ages)) (age_of Unicorn ages)) (age_of Snake ages))
    (age_of Panda ages)) (age_of Dragon ages).

(** The balance after one call, in the exact arithmetic of the model: only
    two mutators write it. *)
Definition money_after (op : Op) (w : World) : num :=
  let m := money (state w) in
  match op with
  | ApplyMoneyDelta env delta meta =>
      floor0 (Math_max (int 0) (Math_round (num_add m delta)))
  | PurchasePremiumPet env petId cost =>
      if animal_get petId (ownedPets (state w)) || num_lt m (price_of cost)
      then m
      else floor0 (Math_max (int 0) (num_sub m (price_of cost)))
  | _ => m
  end.

(** The pets owned after one call: only a purchase that goes through
    writes them. *)
Definition ownedPets_after (op : Op) (w : World) : OwnedPets :=
  match op with
  | PurchasePremiumPet env petId cost =>
      if animal_get petId (ownedPets (state w))
         || num_lt (money (state w)) (price_of cost)
      then ownedPets (state w)
      else animal_set petId true (ownedPets (state w))
  | _ => ownedPets (state w)
  end.

(** The pet ages after one call, in the exact arithmetic of the model:
    only the day-advance trigger writes them, for the selected pet. *)
Definition petAges_after (op : Op) (w : World) : PetAges :=
  if advances op w
  then animal_set (animalId (state w))
         (Some (num_add (age_of (animalId (state w)) (petAges w)) (int 1)))
         (petAges w)
  else petAges w.

(** The five pets of the default state that need no purchase. *)
Definition free_pet (a : AnimalId) : bool :=
  match a with
  | Pig | Dog | Cat | Fox | Bunny => true
  | _ => false
  end.

(** Every age is a whole number, and the ages add up to the day counter. *)
Definition ages_add_up (w : World) : Prop :=
  exists f : AnimalId -> Z,
    (forall a, 0 <= f a /\ age_of a (petAges w) = int (f a))
    /\ daysPlayed (state w)
       = int (f Pig + f Dog + f Cat + f Fox + f Bunny + f Unicorn + f Snake
              + f Panda + f Dragon).

(** A call whose numeric argument is a number ([NaN] excluded). *)
Definition number_args (op : Op) : Prop :=
  match op with
  | AddTransaction env tx => tx_amount tx <> NaN
  | ApplyMoneyDelta env delta meta => delta <> NaN
  | PurchasePremiumPet env petId cost => cost <> NaN
  | _ => True
  end.

Definition amount_nonneg (t : Transaction) : Prop :=
  num_ge (amount t) (int 0) = true.

Definition amount_not_negative (t : Transaction) : Prop :=
  num_lt (amount t) (int 0) = false.

(* ================================================================= *)
(** ** The saved game

    [persist] writes [JSON.stringify(next)] to [localStorage] and the
    initialiser of [state] reads it back with [JSON.parse].  The text
    itself is not modelled, only what the pair does to a value: a finite
    number and a string are read back as they were written, a number that
    is not finite is written as [null], a property whose value is
    [undefined] is left out of an object and written as [null] in an
    array. *)

Definition is_undefined (v : Value) : bool :=
  match v with VUndefined => true | _ => false end.

(** [JSON.parse(JSON.stringify(v))], for [v] other than [undefined]. *)
Fixpoint JSON_roundtrip (v : Value) : Value :=
  match v with
  | VNum n => if isFinite n then VNum n else VNull
  | VArr l =>
      VArr ((fun x => if is_undefined x then VNull else JSON_roundtrip x) <$> l)
  | VObj m =>
      VObj (omap (fun o => o)
              ((fun x => if is_undefined x then None
                         else Some (JSON_roundtrip x)) <$> m))
  | _ => v
  end.

(** The object the initialiser reads back after [persist] has saved [s]. *)
Definition saved_game (s : GameState) : gmap string Value :=
  own_props (JSON_roundtrip (VObj (encode s))).

(** Every number of the state outside the needs is finite. *)
Definition finite_numbers (s : GameState) : Prop :=
  isFinite (money s) = true
  /\ isFinite (daysPlayed s) = true
  /\ (forall a, isFinite (accessory_get a (ownedAccessories s)) = true)
  /\ Forall (fun t => isFinite (createdAt t) = true /\ isFinite (amount t) = true)
       (transactions s).

(* ================================================================= *)
(** ** The store with its subscribers

    The same mutators, now with the [listeners] array and the calls
    [persist] makes to it.  A listener is known to the store by its
    identity alone; what a listener does with the state it is handed is
    outside the store, and listeners that call back into the store while
    they are being notified are not modelled.  [calls] records, in order,
    which listener was called with which state. *)

Module Bus.

Definition Listener : Type := nat.

Record Store : Type := mkStore {
  world : World;
  listeners : list Listener;
  calls : list (Listener * GameState);
}.

(** [listeners.indexOf(listener)]: [None] stands for [-1]. *)
Fixpoint indexOf (listener : Listener) (ls : list Listener) : option nat :=
  match ls with
  | [] => None
  | x :: ls => if decide (x = listener) then Some 0%nat
               else S <$> indexOf listener ls
  end.

Definition subscribeGameState (listener : Listener) (st : Store) : Store :=
  {| world := world st;
     listeners := listeners st ++ [listener];
     calls := calls st |}.

(** The function [subscribeGameState(listener)] returns. *)
Definition unsubscribe (listener : Listener) (st : Store) : Store :=
  match indexOf listener (listeners st) with
  | Some i => {| world := world st;
                 listeners := delete i (listeners st);
                 calls := calls st |}
  | None => st
  end.

Definition loadGameState (st : Store) : GameState := state (world st).

Definition persist (nextRaw : GameState) (st : Store) : Store :=
  let w := persist nextRaw (world st) in
  let next := state w in
  {| world := w;
     listeners := listeners st;
     calls := calls st ++ ((fun l => (l, next)) <$> listeners st) |}.

Definition advanceDayBecauseNeedsComplete (st : Store) : Store :=
  let ages := loadPetAges (world st) in
  let currentPet := animalId (state (world st)) in
  let ages := animal_set currentPet
                (Some (num_add (default (int 0) (animal_get currentPet ages)) (int 1)))
                ages in
  let st := {| world := savePetAges ages (world st);
               listeners := listeners st;
               calls := calls st |} in
  persist (with_needs (needs defaultState)
             (with_daysPlayed (num_add (daysPlayed (state (world st))) (int 1))
                (state (world st)))) st.

Definition setSelectedPet (animalId : AnimalId) (st : Store) : Store :=
  persist (with_animalId animalId (state (world st))) st.

Definition setEquippedAccessory (accessory : AccessoryId) (equipped : bool)
  (st : Store) : Store :=
  if equipped
     && num_le (accessory_get accessory (ownedAccessories (state (world st)))) (int 0)
  then st
  else persist
         (with_equippedAccessories
            (accessory_set accessory equipped
               (equippedAccessories (state (world st))))
            (state (world st))) st.

Definition addTransaction (env : Env) (tx : TxInput) (st : Store) : Store :=
  let nextTx := {|
    id := uid env;
    createdAt := Date_now env;
    type := tx_type tx;
    amount := Math_max (int 0) (Math_round (tx_amount tx));
    category := tx_category tx;
    note := tx_note tx |} in
  persist (with_transactions (push_tx nextTx (transactions (state (world st))))
             (state (world st))) st.

Definition applyMoneyDelta (env : Env) (delta : num) (meta : option Meta)
  (st : Store) : Store :=
  let type_ := if num_ge delta (int 0) then income else expense in
  let amount_ := Math_abs (Math_round delta) in
  let nextTx := {|
    id := uid env;
    createdAt := Date_now env;
    type := type_;
    amount := amount_;
    category := default (match type_ with
                         | income => "Game Earned"
                         | expense => "Game Spent"
                         end) (meta ≫= meta_category);
    note := default (match type_ with
                     | income => "Earned on Map"
                     | expense => "Spent on Map"
                     end) (meta ≫= meta_note) |} in
  persist
    (with_transactions (push_tx nextTx (transactions (state (world st))))
       (with_money
          (Math_max (int 0) (Math_round (num_add (money (state (world st))) delta)))
          (state (world st))))
    st.

Definition setNeed (need : NeedId) (value : num) (st : Store) : Store :=
  let prevComplete := allNeedsComplete (needs (state (world st))) in
  let nextNeeds := clampNeeds (need_set need value (needs (state (world st)))) in
  let nextComplete := allNeedsComplete nextNeeds in
  let st := persist (with_needs nextNeeds (state (world st))) st in
  if negb prevComplete && nextComplete
  then advanceDayBecauseNeedsComplete st
  else st.

Definition bumpNeed (need : NeedId) (delta : num) (st : Store) : Store :=
  let current := need_get need (needs (state (world st))) in
  setNeed need (num_add current delta) st.

Definition incrementDaysPlayed (_by : option num) (st : Store) : Store := st.

Definition addOwnedAccessory (accessory : AccessoryId) (count : option num)
  (st : Store) : Store :=
  let count := default (int 1) count in
  let add_ := Math_max (int 0) (Math_floor (num_or count (int 0))) in
  if num_le add_ (int 0) then st
  else persist
         (with_ownedAccessories
            (accessory_set accessory
               (Math_max (int 0)
                  (num_add
                     (accessory_get accessory (ownedAccessories (state (world st))))
                     add_))
               (ownedAccessories (state (world st))))
            (state (world st))) st.

Definition purchasePremiumPet (env : Env) (petId : AnimalId) (cost : num)
  (st : Store) : Store :=
  if animal_get petId (ownedPets (state (world st))) then st
  else
    let price := Math_max (int 0) (Math_round cost) in
    if num_lt (money (state (world st))) price then st
    else
      let nextTx := {|
        id := uid env;
        createdAt := Date_now env;
        type := expense;
        amount := price;
        category := "Pet Purchase";
        note := "Purchased " +:+ AnimalId_string petId |} in
      persist
        (with_transactions (push_tx nextTx (transactions (state (world st))))
           (with_ownedPets (animal_set petId true (ownedPets (state (world st))))
              (with_money (Math_max (int 0) (num_sub (money (state (world st))) price))
                 (state (world st)))))
        st.

Definition run (op : Op) (st : Store) : Store :=
  match op with
  | SetSelectedPet a => setSelectedPet a st
  | SetEquippedAccessory a e => setEquippedAccessory a e st
  | AddTransaction env tx => addTransaction env tx st
  | ApplyMoneyDelta env d m => applyMoneyDelta env d m st
  | SetNeed n v => setNeed n v st
  | BumpNeed n d => bumpNeed n d st
  | IncrementDaysPlayed b => incrementDaysPlayed b st
  | AddOwnedAccessory a c => addOwnedAccessory a c st
  | PurchasePremiumPet env p c => purchasePremiumPet env p c st
  end.

(** One round of notifications: every listener, in order, with [next]. *)
Definition round (ls : list Listener) (next : GameState)
  : list (Listener * GameState) :=
  (fun l => (l, next)) <$> ls.

(** The states one listener was handed, oldest first. *)
Definition received (l : Listener) (st : Store) : list GameState :=
  snd <$> filter (fun c => fst c = l) (calls st).

End Bus.

(* ================================================================= *)
(** ** The Transactions page ([src/pages/Tran.tsx])

    The page reads the store's state through [any], so its helpers are
    embedded on JSON-like values; an entry of the log is read with
    [member], which is [undefined] on a missing property.  On an entry
    that is [null] or [undefined] the source throws where [member] returns
    [undefined]: the helpers are those of the source on [readable] entries
    only, which the records of the store are.  The lower-casing
    of a string, the text a template literal makes of a value that is not a
    string, and the local date format are the environment's: the page is
    studied for any of them. *)

Module Tran.

(** [v.k], for [v] other than [null] and [undefined]. *)
Definition member (v : Value) (k : string) : Value :=
  match v with
  | VObj m => prop m k
  | _ => VUndefined
  end.

Definition isArray (v : Value) : bool :=
  match v with VArr _ => true | _ => false end.

Definition getLogFromState (state : gmap string Value) : list Value :=
  let candidates := [prop state "moneyLog"; prop state "ledger";
                     prop state "transactions"; prop state "moneyHistory";
                     prop state "history"] in
  match List.find isArray candidates with
  | Some (VArr l) => l
  | _ => []
  end.

Definition getDelta (item : Value) : num :=
  match member item "delta" with
  | VNum n => n
  | _ => match member item "amount" with
         | VNum n => n
         | _ => int 0
         end
  end.

Definition getTs (item : Value) : num :=
  match member item "ts" with
  | VNum n => if isFinite n then n else int 0
  | _ => int 0
  end.

(** [s.includes(needle)] *)
Definition includes (needle s : string) : bool :=
  match String.index 0 needle s with
  | Some _ => true
  | None => false
  end.

(** One bar of a chart. *)
Record GraphItem : Type := mkGraphItem {
  label : string;
  value : num;
  count : num;
}.

(** One row of the table. *)
Record Row : Type := mkRow {
  row_id : string;
  whenReal : string;
  when : string;
  category : Value;
  note : Value;
  delta : num;
  running : num;
}.

Section Page.

Variable toLowerCase : string -> string.
Variable ToString : Value -> string.
Variable formatLocal : num -> string.

(** [`${v}`] *)
Definition template (v : Value) : string :=
  match v with
  | VStr s => s
  | _ => ToString v
  end.

Definition fmtDate (ts : num) : string :=
  if negb (truthy ts) then "—" else formatLocal ts.

Definition textOf (entry : Value) : string :=
  toLowerCase
    (template (coalesce (member entry "category") (VStr ""))
     +:+ " " +:+ template (coalesce (member entry "note") (VStr ""))).

Definition isToy (entry : Value) : bool :=
  let t := textOf entry in includes "toy" t.
Definition isSalon (entry : Value) : bool :=
  let t := textOf entry in includes "salon" t.
Definition isBathroom (entry : Value) : bool :=
  let t := textOf entry in includes "bathroom" t || includes "restroom" t.
Definition isRestaurant (entry : Value) : bool :=
  let t := textOf entry in
  includes "restaurant" t || includes "food" t || includes "cafe" t.
Definition isHospital (entry : Value) : bool :=
  let t := textOf entry in
  includes "hospital" t || includes "clinic" t || includes "doctor" t.

(** The loop of [negativePurchases]: the running values of [salon], [toy],
    [salonCount] and [toyCount]. *)
Definition negative_step (acc : num * num * num * num) (entry : Value)
  : num * num * num * num :=
  let '(salon, toy, salonCount, toyCount) := acc in
  let d := getDelta entry in
  if num_ge d (int 0) then acc
  else
    let amt := Math_abs d in
    let '(salon, salonCount) :=
      if isSalon entry then (num_add salon amt, num_add salonCount (int 1))
      else (salon, salonCount) in
    let '(toy, toyCount) :=
      if isToy entry then (num_add toy amt, num_add toyCount (int 1))
      else (toy, toyCount) in
    (salon, toy, salonCount, toyCount).

Definition negativePurchases (log : list Value) : list GraphItem :=
  let '(salon, toy, salonCount, toyCount) :=
    foldl negative_step (int 0, int 0, int 0, int 0) log in
  [ {| label := "Salon"; value := salon; count := salonCount |};
    {| label := "Toy Store"; value := toy; count := toyCount |} ].

(** The loop of [positiveActivities]. *)
Definition positive_step (acc : num * num * num * num * num * num)
  (entry : Value) : num * num * num * num * num * num :=
  let '(bathroom, restaurant, hospital,
        bathroomCount, restaurantCount, hospitalCount) := acc in
  let d := getDelta entry in
  if num_le d (int 0) then acc
  else
    let amt := d in
    let '(bathroom, bathroomCount) :=
      if isBathroom entry
      then (num_add bathroom amt, num_add bathroomCount (int 1))
      else (bathroom, bathroomCount) in
    let '(restaurant, restaurantCount) :=
      if isRestaurant entry
      then (num_add restaurant amt, num_add restaurantCount (int 1))
      else (restaurant, restaurantCount) in
    let '(hospital, hospitalCount) :=
      if isHospital entry
      then (num_add hospital amt, num_add hospitalCount (int 1))
      else (hospital, hospitalCount) in
    (bathroom, restaurant, hospital,
     bathroomCount, restaurantCount, hospitalCount).

Definition positiveActivities (log : list Value) : list GraphItem :=
  let '(bathroom, restaurant, hospital,
        bathroomCount, restaurantCount, hospitalCount) :=
    foldl positive_step (int 0, int 0, int 0, int 0, int 0, int 0) log in
  [ {| label := "Bathroom"; value := bathroom; count := bathroomCount |};
    {| label := "Restaurant"; value := restaurant; count := restaurantCount |};
    {| label := "Hospital"; value := hospital; count := hospitalCount |} ].

(** [[...log].sort((a, b) => getTs(a) - getTs(b))].  The sort is stable and
    [getTs] returns finite numbers only, so the comparator is a consistent
    order and the result is the stable sort by [getTs]; it is computed here
    by insertion. *)
Fixpoint insert_by_ts (x : Value) (l : list Value) : list Value :=
  match l with
  | [] => [x]
  | y :: l' =>
      if num_gt (num_sub (getTs x) (getTs y)) (int 0)
      then y :: insert_by_ts x l'
      else x :: l
  end.

Definition sort_by_ts (l : list Value) : list Value :=
  foldr insert_by_ts [] l.

(** [sorted.map((it, idx) => ...)] with the variable [running] it updates. *)
Fixpoint rows_from (n idx : nat) (running : num) (sorted : list Value)
  : list Row :=
  match sorted with
  | [] => []
  | it :: rest =>
      let running := num_add running (getDelta it) in
      {| row_id := template (VNum (getTs it)) +:+ "-" +:+ pretty idx;
         whenReal := fmtDate (getTs it);
         when := "Session " +:+ pretty (n - idx)%nat;
         category := coalesce (member it "category") (VStr "—");
         note := coalesce (member it "note") (VStr "—");
         delta := getDelta it;
         running := running |}
      :: rows_from n (S idx) running rest
  end.

Definition tableRows (money : num) (log : list Value) : list Row :=
  match log with
  | [] => []
  | _ =>
      let sorted := sort_by_ts log in
      let totalDelta :=
        foldl (fun acc it => num_add acc (getDelta it)) (int 0) sorted in
      let running := num_sub money totalDelta in
      let rows := rows_from (length sorted) 0 running sorted in
      reverse rows
  end.

End Page.

(** [Math.max(0, Math.floor(money - savingsBalance))] *)
Definition availableMain (money savingsBalance : num) : num :=
  Math_max (int 0) (Math_floor (num_sub money savingsBalance)).

(** [\d] *)
Definition is_digit (c : Ascii.ascii) : bool :=
  (48 <=? Ascii.nat_of_ascii c)%nat && (Ascii.nat_of_ascii c <=? 57)%nat.

(** [depositInput.replace(/[^\d]/g, "")], as the list of digits kept. *)
Definition digits_only (s : string) : list Ascii.ascii :=
  List.filter is_digit (String.list_ascii_of_string s).

(** The whole number a list of digits writes; the empty list writes 0. *)
Definition digits_value (ds : list Ascii.ascii) : Z :=
  foldl (fun acc c => 10 * acc + (Z.of_nat (Ascii.nat_of_ascii c) - 48)) 0 ds.

(** The double nearest to a whole number [z >= 0].  Below 2^53 every whole
    number is a double.  From there on a double is [q * 2^e] with
    [2^52 <= q < 2^53]: [z] is cut to its 53 leading bits and rounded to
    the nearest such number, a tie going to the even [q]; a result of
    2^1024 or more is [Infinity]. *)
Definition nearest_double (z : Z) : num :=
  if z <? 2 ^ 53 then int z
  else
    let e := Z.log2 z - 52 in
    let q := z / 2 ^ e in
    let r := z mod 2 ^ e in
    let q' := if (2 ^ (e - 1) <? r) || ((r =? 2 ^ (e - 1)) && Z.odd q)
              then q + 1 else q in
    if 2 ^ 1024 <=? q' * 2 ^ e then PInf else int (q' * 2 ^ e).

(** [Number(clean)] on digits: the double nearest to the number written. *)
Definition Number_digits (ds : list Ascii.ascii) : num :=
  nearest_double (digits_value ds).

(** What [writeLocalNumber(key, value)] stores. *)
Definition writeLocalNumber (value : num) : num :=
  Math_max (int 0) (Math_floor value).

(** [depositToSavings]: the new [savingsBalance] and the number written to
    [localStorage], or [None] when the handler returns at its guard. *)
Definition depositToSavings (depositInput : string) (money savingsBalance : num)
  : option (num * num) :=
  let clean := digits_only depositInput in
  let amt := Number_digits clean in
  if negb (isFinite amt) || num_le amt (int 0) then None
  else
    let capped := Math_min amt (availableMain money savingsBalance) in
    let next := num_add savingsBalance capped in
    Some (next, writeLocalNumber next).

End Tran.

(** An entry whose properties can be read. *)
Definition readable (v : Value) : Prop := v <> VNull /\ v <> VUndefined.

(** A readable entry whose delta is a whole number of magnitude at most
    [bound]. *)
Definition whole_entry (bound : Z) (it : Value) : Prop :=
  readable it
  /\ exists d : Z, Tran.getDelta it = int d /\ - bound <= d <= bound.

(** The empty spending chart. *)
Definition no_spending : list Tran.GraphItem :=
  [ Tran.mkGraphItem "Salon" (int 0) (int 0);
    Tran.mkGraphItem "Toy Store" (int 0) (int 0) ].

(** What the page reads of a state of the store. *)
Definition page_log (s : GameState) : list Value :=
  Tran.getLogFromState (encode s).

(** A record with its [type] set to ["income"]. *)
Definition as_income (t : Transaction) : Transaction :=
  mkTransaction (id t) (createdAt t) income (amount t) (category t) (note t).

(* ================================================================= *)
(** ** The Map page ([src/pages/Articles.tsx])

    The buttons of the salon and the mood shown above the pet.  A button's
    callback is embedded as it acts on the store; the toasts and the page's
    own copies of the needs do not reach the store and are left out.
    [money] is the balance the page rendered with, its copy of the
    store's. *)

Module Articles.

Definition salon (note : string) : option Meta :=
  Some {| meta_category := Some "Salon"; meta_note := Some note |}.

(** "Buy collar ($12)" *)
Definition buyCollar (env : Env) (money : num) (w : World) : World :=
  if num_lt money (int 12) then w
  else
    let w := applyMoneyDelta env (int (-12)) (salon "Bought collar") w in
    addOwnedAccessory Collar (Some (int 1)) w.

(** "Buy leash ($10)" *)
Definition buyLeash (env : Env) (money : num) (w : World) : World :=
  if num_lt money (int 10) then w
  else
    let w := applyMoneyDelta env (int (-10)) (salon "Bought leash") w in
    addOwnedAccessory Leash (Some (int 1)) w.

(** "Buy headband ($15)" *)
Definition buyHeadband (env : Env) (money : num) (w : World) : World :=
  if num_lt money (int 15) then w
  else
    let w := applyMoneyDelta env (int (-15)) (salon "Bought headband") w in
    addOwnedAccessory Headband (Some (int 1)) w.

(** The three buttons, by accessory. *)
Definition buy (a : AccessoryId) : Env -> num -> World -> World :=
  match a with
  | Collar => buyCollar
  | Leash => buyLeash
  | Headband => buyHeadband
  end.

(** The price on the button. *)
Definition cost (a : AccessoryId) : Z :=
  match a with
  | Collar => 12
  | Leash => 10
  | Headband => 15
  end.

Definition bought_note (a : AccessoryId) : string :=
  match a with
  | Collar => "Bought collar"
  | Leash => "Bought leash"
  | Headband => "Bought headband"
  end.

Inductive Mood : Type := Happy | Sick | Sad | Energetic.

(** [x / 4] *)
Definition quarter (x : num) : num :=
  match x with
  | Fin q => Fin (q / 4)
  | _ => x
  end.

Definition moodFromNeeds (h f he b : num) : Mood :=
  if num_lt he (int 50) then Sick
  else
    let avg := quarter (num_add (num_add (num_add h f) he) b) in
    if num_ge avg (int 82) then Happy
    else if num_lt avg (int 55) then Sad
    else Energetic.

End Articles.

(** How good a mood is. *)
Definition mood_rank (m : Articles.Mood) : nat :=
  match m with
  | Articles.Sick => 0
  | Articles.Sad => 1
  | Articles.Energetic => 2
  | Articles.Happy => 3
  end.

(* ================================================================= *)
(** ** The Home page ([src/pages/Home.tsx]) *)

Module Home.


Definition DEFAULT_PET_AGE_DAYS : num := int 10.

(** [homeBadges], from the page's copy of the owned counts and the age of
    the selected pet. *)
Definition homeBadges (owned : OwnedAccessories) (currentPetAge : num) : Badges :=
  let totalAccOwned :=
    num_add (num_add (collar owned) (leash owned)) (headband owned) in
  {| accessory_1 := num_ge totalAccOwned (int 1);
     accessory_2 := num_ge totalAccOwned (int 2);
     accessory_4 := num_ge totalAccOwned (int 4);
     days_5 := num_ge currentPetAge (int 5);
     days_10 := num_ge currentPetAge (int 10);
     days_15 := num_ge currentPetAge (int 15);
     days_25 := num_ge currentPetAge (int 25);
     days_50 := num_ge currentPetAge (int 50);
     days_100 := num_ge currentPetAge (int 100) |}.


(** [onToggleEquip(a, value)] as it acts on the store; [owned] is the
    page's copy of the owned counts. *)
Definition onToggleEquip (owned : OwnedAccessories) (a : AccessoryId)
  (value : bool) (w : World) : World :=
  if num_le (accessory_get a owned) (int 0) && value then w
  else setEquippedAccessory a value w.

(** The effect that gives the selected pet an age when it has none. *)
Definition ensureAge (animalId : AnimalId) (prev : PetAges) : PetAges :=
  match animal_get animalId prev with
  | Some _ => prev
  | None => animal_set animalId (Some DEFAULT_PET_AGE_DAYS) prev
  end.

End Home.

(* ================================================================= *)
(** ** Numbers: basic facts *)

Lemma Qle_bool_int (a b : Z) :
  Qle_bool (inject_Z a) (inject_Z b) = (a <=? b)%Z.
Proof. unfold Qle_bool; simpl. by rewrite !Z.mul_1_r. Qed.

Lemma Qlt_bool_int (a b : Z) :
  Qlt_bool (inject_Z a) (inject_Z b) = (a <? b)%Z.
Proof. unfold Qlt_bool. rewrite Qle_bool_int. lia. Qed.

Lemma Qlt_bool_iff (x y : Q) : Qlt_bool x y = true <-> (x < y)%Q.
Proof.
  unfold Qlt_bool. rewrite negb_true_iff, <- not_true_iff_false, Qle_bool_iff.
  split; [apply Qnot_le_lt | apply Qlt_not_le].
Qed.

Lemma Qlt_bool_false_iff (x y : Q) : Qlt_bool x y = false <-> (y <= x)%Q.
Proof.
  unfold Qlt_bool. rewrite negb_false_iff. apply Qle_bool_iff.
Qed.

Lemma Qle_bool_false_iff (x y : Q) : Qle_bool x y = false <-> (y < x)%Q.
Proof.
  rewrite <- not_true_iff_false, Qle_bool_iff.
  split; [apply Qnot_le_lt | apply Qlt_not_le].
Qed.

Lemma int_inj (a b : Z) : int a = int b -> a = b.
Proof. unfold int, inject_Z. congruence. Qed.

Lemma num_lt_int (a b : Z) : num_lt (int a) (int b) = (a <? b)%Z.
Proof. apply Qlt_bool_int. Qed.

Lemma num_le_int (a b : Z) : num_le (int a) (int b) = (a <=? b)%Z.
Proof. apply Qle_bool_int. Qed.

Lemma Math_max_int (a b : Z) : Math_max (int a) (int b) = int (Z.max a b).
Proof.
  unfold Math_max; simpl. rewrite Qlt_bool_int.
  destruct (Z.ltb_spec a b); f_equal; lia.
Qed.

Lemma Math_min_int (a b : Z) : Math_min (int a) (int b) = int (Z.min a b).
Proof.
  unfold Math_min; simpl. rewrite Qlt_bool_int.
  destruct (Z.ltb_spec b a); f_equal; lia.
Qed.

Lemma num_add_int (a b : Z) : num_add (int a) (int b) = int (a + b).
Proof. unfold int, inject_Z; simpl. unfold Qplus; simpl. by rewrite !Z.mul_1_r. Qed.

Lemma num_sub_int (a b : Z) : num_sub (int a) (int b) = int (a - b).
Proof.
  unfold num_sub, int, inject_Z; simpl. unfold Qplus; simpl.
  rewrite !Z.mul_1_r. do 2 f_equal.
Qed.

Lemma Math_round_int (a : Z) : Math_round (int a) = int a.
Proof.
  unfold Math_round, int. f_equal. f_equal.
  assert (H1 := Qfloor_le (inject_Z a + (1 # 2))).
  assert (H2 := Qlt_floor (inject_Z a + (1 # 2))).
  set (z := Qfloor (inject_Z a + (1 # 2))) in *.
  unfold Qle, Qlt in *; simpl in *. lia.
Qed.

Lemma Math_floor_int (a : Z) : Math_floor (int a) = int a.
Proof. unfold Math_floor, int. by rewrite Qfloor_Z. Qed.

Lemma Math_abs_int (a : Z) : Math_abs (int a) = int (Z.abs a).
Proof. reflexivity. Qed.

(** Case analysis on a boolean comparison of rationals. *)
Ltac qcases :=
  repeat match goal with
  | |- context [Qlt_bool ?x ?y] =>
      let E := fresh "E" in
      destruct (Qlt_bool x y) eqn:E;
      [apply Qlt_bool_iff in E | apply Qlt_bool_false_iff in E]
  | |- context [Qle_bool ?x ?y] =>
      let E := fresh "E" in
      destruct (Qle_bool x y) eqn:E;
      [apply Qle_bool_iff in E | apply Qle_bool_false_iff in E]
  | |- context [Qeq_bool ?x ?y] =>
      let E := fresh "E" in
      destruct (Qeq_bool x y) eqn:E;
      [apply Qeq_bool_iff in E | apply Qeq_bool_neq in E]
  end.

Ltac qhyps :=
  repeat match goal with
  | H : Qlt_bool _ _ = true |- _ => apply Qlt_bool_iff in H
  | H : Qlt_bool _ _ = false |- _ => apply Qlt_bool_false_iff in H
  | H : Qle_bool _ _ = true |- _ => apply Qle_bool_iff in H
  | H : Qle_bool _ _ = false |- _ => apply Qle_bool_false_iff in H
  | H : Qeq_bool _ _ = true |- _ => apply Qeq_bool_iff in H
  | H : Qeq_bool _ _ = false |- _ => apply Qeq_bool_neq in H
  end.

(** Closing a goal on rationals once the comparisons are propositions. *)
Ltac qclose :=
  first
    [ done
    | exfalso; unfold inject_Z in *; lra
    | apply Qle_bool_iff; unfold inject_Z in *; lra
    | apply Qlt_bool_iff; unfold inject_Z in *; lra ].

(* ================================================================= *)
(** ** The clamp *)

Lemma clampNeed_Fin (q : Q) :
  clampNeed (Fin q) = int (Z.max 0 (Z.min 100 (Qfloor (q + (1 # 2))))).
Proof.
  unfold clampNeed, Math_round. cbn [isFinite negb].
  by rewrite Math_min_int, Math_max_int.
Qed.

Lemma clampNeed_not_finite (v : num) :
  isFinite v = false -> clampNeed v = int 0.
Proof. by destruct v. Qed.

Lemma clampNeed_range (v : num) :
  exists z : Z, 0 <= z <= 100 /\ clampNeed v = int z.
Proof.
  destruct v as [| | |q]; try (exists 0; split; [lia | reflexivity]).
  exists (Z.max 0 (Z.min 100 (Qfloor (q + (1 # 2))))). split; [lia|].
  apply clampNeed_Fin.
Qed.

Lemma clampNeed_int (z : Z) : 0 <= z <= 100 -> clampNeed (int z) = int z.
Proof.
  intros Hz. unfold clampNeed. cbn [int isFinite negb]. fold (int z).
  rewrite Math_round_int, Math_min_int, Math_max_int. f_equal. lia.
Qed.

Lemma clampNeed_idem (v : num) : clampNeed (clampNeed v) = clampNeed v.
Proof.
  destruct (clampNeed_range v) as (z & Hz & ->). by apply clampNeed_int.
Qed.

Lemma clampNeeds_idem (n : Needs) : clampNeeds (clampNeeds n) = clampNeeds n.
Proof. unfold clampNeeds; simpl. by rewrite !clampNeed_idem. Qed.

(** The nearest integer: [Math.round] is within one half of its argument. *)
Lemma Qfloor_half_nearest (q : Q) :
  (q - (1 # 2) < inject_Z (Qfloor (q + (1 # 2))) <= q + (1 # 2))%Q.
Proof.
  assert (H1 := Qfloor_le (q + (1 # 2))).
  assert (H2 := Qlt_floor (q + (1 # 2))).
  rewrite inject_Z_plus in H2. split; [|done].
  change (inject_Z 1) with 1%Q in H2. lra.
Qed.

Lemma clampNeed_above (q : Q) : (100 < q)%Q -> clampNeed (Fin q) = int 100.
Proof.
  intros Hq. rewrite clampNeed_Fin. f_equal.
  assert (100 <= Qfloor (q + (1 # 2))); [|lia].
  rewrite <- (Qfloor_Z 100). apply Qfloor_resp_le.
  change (inject_Z 100) with 100%Q. lra.
Qed.

Lemma clampNeed_below (q : Q) : (q < 0)%Q -> clampNeed (Fin q) = int 0.
Proof.
  intros Hq. rewrite clampNeed_Fin. f_equal.
  assert (Qfloor (q + (1 # 2)) < 1); [|lia].
  assert (H := Qfloor_le (q + (1 # 2))).
  rewrite Zlt_Qlt. change (inject_Z 1) with 1%Q. lra.
Qed.

Lemma clampNeed_in_range (q : Q) :
  (0 <= q <= 100)%Q -> clampNeed (Fin q) = Math_round (Fin q).
Proof.
  intros [H0 H100]. rewrite clampNeed_Fin. unfold Math_round. f_equal.
  assert (0 <= Qfloor (q + (1 # 2)) <= 100); [|lia]. split.
  - rewrite <- (Qfloor_Z 0). apply Qfloor_resp_le.
    change (inject_Z 0) with 0%Q. lra.
  - assert (H := Qfloor_le (q + (1 # 2))).
    assert (inject_Z (Qfloor (q + (1 # 2))) < inject_Z 101)%Q as Hlt.
    { change (inject_Z 101) with 101%Q. lra. }
    rewrite <- Zlt_Qlt in Hlt. lia.
Qed.

(* ================================================================= *)
(** ** The normalizer on well-typed states *)

Lemma floor0_cases (n : num) :
  (floor0 n = int 0 /\ (n = NaN \/ n = NInf \/ exists q, n = Fin q /\ (q <= 0)%Q))
  \/ (floor0 n = n /\ (n = PInf \/ exists q, n = Fin q /\ (0 < q)%Q)).
Proof.
  destruct n as [| | |q]; unfold floor0, num_or; simpl.
  - left; auto.
  - left; auto.
  - right; auto.
  - qcases; simpl.
    + left. split; [done|]. right; right. exists q. split; [done|lra].
    + qcases.
      * right. split; [done|]. right. exists q. split; [done|].
        unfold inject_Z in *; lra.
      * left. split; [done|]. right; right. exists q. split; [done|].
        unfold inject_Z in *; lra.
Qed.

Lemma floor0_idem (n : num) : floor0 (floor0 n) = floor0 n.
Proof.
  destruct (floor0_cases n) as [[H _] | [H _]]; rewrite !H; [reflexivity | done].
Qed.

Lemma floor0_int (z : Z) : floor0 (int z) = int (Z.max 0 z).
Proof.
  destruct (floor0_cases (int z)) as [[-> H] | [-> H]].
  - destruct H as [H | [H | (q & [= <-] & H)]]; try discriminate.
    f_equal. unfold Qle in H; simpl in H. lia.
  - destruct H as [H | (q & [= <-] & H)]; try discriminate.
    f_equal. unfold Qlt in H; simpl in H. lia.
Qed.

Lemma floor0_nonneg (n : num) : num_ge (floor0 n) (int 0) = true.
Proof.
  destruct (floor0_cases n) as [[-> _] | [-> [-> | (q & -> & H)]]]; try done.
  unfold num_ge; simpl. apply Qle_bool_iff. unfold inject_Z; lra.
Qed.

Lemma normalize_idem (s : GameState) : normalize (normalize s) = normalize s.
Proof.
  unfold normalize.
  cbn [needs money animalId ownedPets ownedAccessories equippedAccessories
       badges daysPlayed transactions].
  f_equal; [apply clampNeeds_idem | apply floor0_idem | apply floor0_idem].
Qed.

Lemma round_floor0_whole (y : num) :
  whole_or_infinite (floor0 (Math_max (int 0) (Math_round y))).
Proof.
  destruct y as [| | |q].
  - left. exists 0. by split.
  - left. exists 0. by split.
  - by right.
  - left. cbn [Math_round]. rewrite Math_max_int, floor0_int.
    eexists. split; [|reflexivity]. lia.
Qed.


(* ================================================================= *)
(** ** Commits *)

Lemma persist_state (raw : GameState) (w : World) :
  state (persist raw w)
  = with_badges (computeBadges (normalize raw)) (normalize raw).
Proof. reflexivity. Qed.

Lemma commit_committed (raw : GameState) :
  committed (with_badges (computeBadges (normalize raw)) (normalize raw)).
Proof.
  split; [|reflexivity].
  transitivity (with_badges (computeBadges (normalize raw))
                  (normalize (normalize raw))); [reflexivity|].
  by rewrite normalize_idem.
Qed.

Lemma persist_committed (raw : GameState) (w : World) :
  committed (state (persist raw w)).
Proof. apply commit_committed. Qed.

Lemma defaultState_committed : committed defaultState.
Proof. split; reflexivity. Qed.

Lemma boot_committed (loaded : option GameState) : committed (boot loaded).
Proof.
  destruct loaded as [l|]; [apply commit_committed | split; reflexivity].
Qed.

Lemma advanceDay_committed (w : World) :
  committed (state (advanceDayBecauseNeedsComplete w)).
Proof. apply commit_committed. Qed.

Lemma setNeed_committed need value (w : World) :
  committed (state (setNeed need value w)).
Proof.
  unfold setNeed.
  destruct (negb _ && _); [apply advanceDay_committed | apply commit_committed].
Qed.

Lemma run_committed (op : Op) (w : World) :
  committed (state w) -> committed (state (run op w)).
Proof.
  intros Hw. destruct op; cbn [run].
  - apply commit_committed.
  - unfold setEquippedAccessory.
    destruct (_ && _); [done | apply commit_committed].
  - apply commit_committed.
  - apply commit_committed.
  - apply setNeed_committed.
  - apply setNeed_committed.
  - done.
  - unfold addOwnedAccessory.
    destruct (num_le _ _); [done | apply commit_committed].
  - unfold purchasePremiumPet.
    destruct (animal_get _ _); [done|].
    destruct (num_lt _ _); [done | apply commit_committed].
Qed.

Lemma Held_committed (w : World) : Held w -> committed (state w).
Proof.
  induction 1 as [loaded ages | op w _ IH];
    [apply boot_committed | by apply run_committed].
Qed.

Lemma FromDefault_Held (w : World) : FromDefault w -> Held w.
Proof. induction 1; by constructor. Qed.

Lemma committed_needs (s : GameState) :
  committed s -> clampNeeds (needs s) = needs s.
Proof. intros [H _]. by rewrite <- H at 2. Qed.

Lemma committed_money (s : GameState) :
  committed s -> floor0 (money s) = money s.
Proof. intros [H _]. by rewrite <- H at 2. Qed.

Lemma committed_daysPlayed (s : GameState) :
  committed s -> floor0 (daysPlayed s) = daysPlayed s.
Proof. intros [H _]. by rewrite <- H at 2. Qed.

Lemma floor0_fix_nonneg (n : num) : floor0 n = n -> num_ge n (int 0) = true.
Proof. intros <-. apply floor0_nonneg. Qed.

Lemma floor0_fix_succ (d : num) :
  floor0 d = d -> floor0 (num_add d (int 1)) = num_add d (int 1).
Proof.
  intros Hd.
  destruct (floor0_cases d) as [[H0 _] | [_ [-> | (q & -> & Hq)]]].
  - rewrite <- Hd, H0. reflexivity.
  - reflexivity.
  - destruct (floor0_cases (num_add (Fin q) (int 1)))
      as [[_ H] | [H _]]; [|done].
    exfalso. simpl in H.
    destruct H as [H | [H | (q' & [= <-] & H)]]; try discriminate.
    unfold inject_Z in H. lra.
Qed.

(* ================================================================= *)
(** ** The day-advance trigger *)

Lemma allNeedsComplete_spec (n : Needs) :
  allNeedsComplete n = true
  <-> forall k, num_ge (need_get k n) (int 100) = true.
Proof.
  unfold allNeedsComplete. rewrite !andb_true_iff. split.
  - intros ((((? & ?) & ?) & ?) & ?) []; done.
  - intros H. repeat split.
    + apply (H Hunger).
    + apply (H Thirst).
    + apply (H Health).
    + apply (H Fun).
    + apply (H Sleep).
Qed.

Lemma need_get_clampNeeds (k : NeedId) (n : Needs) :
  need_get k (clampNeeds n) = clampNeed (need_get k n).
Proof. by destruct k. Qed.

Lemma need_get_set_eq (k : NeedId) (v : num) (n : Needs) :
  need_get k (need_set k v n) = v.
Proof. by destruct k. Qed.

Lemma need_get_set_ne (k k' : NeedId) (v : num) (n : Needs) :
  k <> k' -> need_get k' (need_set k v n) = need_get k' n.
Proof. by destruct k, k'. Qed.

(** From the freshly reset needs no single write can complete the day. *)
Lemma reset_not_complete (k : NeedId) (v : num) :
  allNeedsComplete (clampNeeds (need_set k v (needs defaultState))) = false.
Proof.
  apply not_true_iff_false. rewrite allNeedsComplete_spec. intros H.
  destruct k.
  - specialize (H Thirst); discriminate.
  - specialize (H Hunger); discriminate.
  - specialize (H Hunger); discriminate.
  - specialize (H Hunger); discriminate.
  - specialize (H Hunger); discriminate.
Qed.

(** The two ways out of [setNeed]. *)
Lemma setNeed_crossing need value (w : World) :
  crossing need value w = true ->
  setNeed need value w
  = advanceDayBecauseNeedsComplete
      (persist (with_needs (clampNeeds (need_set need value (needs (state w))))
                  (state w)) w).
Proof.
  unfold crossing, prevComplete, nextComplete, setNeed. by intros ->.
Qed.

Lemma setNeed_no_crossing need value (w : World) :
  crossing need value w = false ->
  setNeed need value w
  = persist (with_needs (clampNeeds (need_set need value (needs (state w))))
               (state w)) w.
Proof.
  unfold crossing, prevComplete, nextComplete, setNeed. by intros ->.
Qed.

Lemma advanceDay_daysPlayed (w : World) :
  daysPlayed (state (advanceDayBecauseNeedsComplete w))
  = floor0 (num_add (daysPlayed (state w)) (int 1)).
Proof. reflexivity. Qed.

Lemma advanceDay_needs (w : World) :
  needs (state (advanceDayBecauseNeedsComplete w)) = needs defaultState.
Proof. reflexivity. Qed.

Lemma persist_daysPlayed (raw : GameState) (w : World) :
  daysPlayed (state (persist raw w)) = floor0 (daysPlayed raw).
Proof. reflexivity. Qed.

Lemma persist_needs (raw : GameState) (w : World) :
  needs (state (persist raw w)) = clampNeeds (needs raw).
Proof. reflexivity. Qed.

Lemma setNeed_daysPlayed need value (w : World) :
  committed (state w) ->
  daysPlayed (state (setNeed need value w))
  = if crossing need value w
    then num_add (daysPlayed (state w)) (int 1)
    else daysPlayed (state w).
Proof.
  intros Hw. assert (Hd := committed_daysPlayed _ Hw).
  destruct (crossing need value w) eqn:Hc.
  - rewrite (setNeed_crossing _ _ _ Hc), advanceDay_daysPlayed, persist_daysPlayed.
    cbn [with_needs daysPlayed]. rewrite Hd. by apply floor0_fix_succ.
  - rewrite (setNeed_no_crossing _ _ _ Hc), persist_daysPlayed.
    cbn [with_needs daysPlayed]. done.
Qed.

Lemma setNeed_needs need value (w : World) :
  needs (state (setNeed need value w))
  = if crossing need value w
    then needs defaultState
    else clampNeeds (need_set need value (needs (state w))).
Proof.
  destruct (crossing need value w) eqn:Hc.
  - by rewrite (setNeed_crossing _ _ _ Hc), advanceDay_needs.
  - rewrite (setNeed_no_crossing _ _ _ Hc), persist_needs.
    cbn [with_needs needs]. apply clampNeeds_idem.
Qed.

(** C1.  For every state the store can hold and every call
    [setNeed(need, value)]: on a rising edge (not all five needs at 100
    before, all five at 100 after the clamped update) the five needs are
    the default ones and [daysPlayed] goes up by exactly 1, from a whole
    counter [d] below 2^53 to [d + 1]; on a level edge (already complete
    before) or when the update does not complete the needs, [daysPlayed] is
    unchanged; and after a rising edge no further [setNeed] call advances
    the day. *)
Theorem C1_day_advance_rising_edge need value (w : World) :
  Held w ->
  (prevComplete w = false -> nextComplete need value w = true ->
     needs (state (setNeed need value w)) = needs defaultState
     /\ forall d : Z,
          0 <= d < 2 ^ 53 -> daysPlayed (state w) = int d ->
          daysPlayed (state (setNeed need value w)) = int (d + 1))
  /\ (prevComplete w = true \/ nextComplete need value w = false ->
        daysPlayed (state (setNeed need value w)) = daysPlayed (state w))
  /\ (forall need' value',
        prevComplete w = false -> nextComplete need value w = true ->
        daysPlayed (state (setNeed need' value' (setNeed need value w)))
        = daysPlayed (state (setNeed need value w))).
Proof.
  intros Hw. assert (Hc := Held_committed _ Hw).
  split; [|split].
  - intros Hp Hn. split.
    + rewrite setNeed_needs. unfold crossing. by rewrite Hp, Hn.
    + intros d _ Hd. rewrite setNeed_daysPlayed by done.
      unfold crossing. by rewrite Hp, Hn, Hd, num_add_int.
  - intros H. rewrite setNeed_daysPlayed by done.
    unfold crossing. destruct H as [-> | ->]; [done|].
    by rewrite andb_false_r.
  - intros need' value' Hp Hn.
    rewrite (setNeed_daysPlayed need' value') by apply setNeed_committed.
    assert (crossing need' value' (setNeed need value w) = false) as ->; [|done].
    unfold crossing at 1, nextComplete. rewrite setNeed_needs.
    unfold crossing. rewrite Hp, Hn. cbn [negb andb].
    rewrite reset_not_complete. apply andb_false_r.
Qed.


(** Witness of C1: the saved game with [sleep] at 99 and [setNeed("sleep", 100)]. *)
Lemma C1_day_advance_rising_edge_witness :
  Held almost_complete
  /\ prevComplete almost_complete = false
  /\ nextComplete Sleep (int 100) almost_complete = true
  /\ daysPlayed (state almost_complete) = int 0
  /\ daysPlayed (state (setNeed Sleep (int 100) almost_complete)) = int 1
  /\ needs (state (setNeed Sleep (int 100) almost_complete)) = needs defaultState
  /\ daysPlayed (state (setNeed Sleep (int 100)
                          (setNeed Sleep (int 100) almost_complete))) = int 1.
Proof.
  pose proof (C1_day_advance_rising_edge Sleep (int 100) almost_complete
                (Held_boot _ _)) as (H1 & _ & H3).
  split; [apply Held_boot|].
  split; [reflexivity|]. split; [reflexivity|]. split; [reflexivity|].
  destruct (H1 eq_refl eq_refl) as [Hn Hd].
  assert (0 <= 0 < 2 ^ 53) as Hr by lia.
  specialize (Hd 0 Hr eq_refl).
  split; [exact Hd|]. split; [exact Hn|].
  rewrite (H3 Sleep (int 100) eq_refl eq_refl). exact Hd.
Defined.

(* ================================================================= *)
(** ** Need clamping *)

(** C2 as stated fails when the write completes the day: the saved game has
    four needs at 100 and [sleep] at 99, and both [setNeed("sleep", 150)]
    and [setNeed("sleep", 100)] leave [sleep] at 0, not at 100. *)
Lemma C2_counterexample :
  Held almost_complete
  /\ need_get Sleep (needs (state (setNeed Sleep (int 150) almost_complete)))
     = int 0
  /\ need_get Sleep (needs (state (setNeed Sleep (int 100) almost_complete)))
     = int 0
  /\ int 0 <> int 100.
Proof.
  split; [apply Held_boot|]. do 2 (split; [reflexivity|]).
  intros H. apply int_inj in H. discriminate.
Qed.

(** C2, amended.  For every state, need and numeric argument, the value
    stored for that need after [setNeed(need, value)] is an integer in
    [0,100].  It is the clamped argument unless the call completes the five
    needs (rising edge), in which case the clamped argument is committed
    first and the needs are then reset, leaving 0.  The clamped argument is
    0 for a non-finite input, 100 for an input above 100, 0 for an input
    below 0, and the nearest integer for an input in range. *)
Theorem C2_setNeed_clamps need value (w : World) :
  (exists z : Z, 0 <= z <= 100
     /\ need_get need (needs (state (setNeed need value w))) = int z)
  /\ need_get need (needs (state (setNeed need value w)))
     = (if crossing need value w then int 0 else clampNeed value)
  /\ need_get need
       (needs (state (persist
                        (with_needs
                           (clampNeeds (need_set need value (needs (state w))))
                           (state w)) w)))
     = clampNeed value
  /\ (isFinite value = false -> clampNeed value = int 0)
  /\ (forall q, value = Fin q -> (100 < q)%Q -> clampNeed value = int 100)
  /\ (forall q, value = Fin q -> (q < 0)%Q -> clampNeed value = int 0)
  /\ (forall q, value = Fin q -> (0 <= q <= 100)%Q ->
        clampNeed value = Math_round value
        /\ exists z : Z, Math_round value = int z
             /\ (q - (1 # 2) < inject_Z z <= q + (1 # 2))%Q).
Proof.
  assert (need_get need (needs (state (setNeed need value w)))
          = if crossing need value w then int 0 else clampNeed value) as Hv.
  { rewrite setNeed_needs. destruct (crossing need value w).
    - by destruct need.
    - by rewrite need_get_clampNeeds, need_get_set_eq. }
  split; [|split; [exact Hv|split]].
  - rewrite Hv. destruct (crossing need value w).
    + exists 0. split; [lia | reflexivity].
    + apply clampNeed_range.
  - rewrite persist_needs. cbn [with_needs needs].
    by rewrite clampNeeds_idem, need_get_clampNeeds, need_get_set_eq.
  - split; [apply clampNeed_not_finite|].
    split; [intros q ->; apply clampNeed_above|].
    split; [intros q ->; apply clampNeed_below|].
    intros q -> Hq. split; [by apply clampNeed_in_range|].
    exists (Qfloor (q + (1 # 2))). split; [reflexivity|].
    apply Qfloor_half_nearest.
Qed.

(** Witness of C2: [setNeed("hunger", 9999)] and [setNeed("hunger", -50)] on
    the default state, and the rounding of 12.5. *)
Lemma C2_setNeed_clamps_witness :
  need_get Hunger (needs (state (setNeed Hunger (int 9999) fresh))) = int 100
  /\ need_get Hunger (needs (state (setNeed Hunger (int (-50)) fresh))) = int 0
  /\ need_get Hunger (needs (state (setNeed Hunger PInf fresh))) = int 0
  /\ clampNeed (Fin (25 # 2)) = int 13.
Proof.
  pose proof (C2_setNeed_clamps Hunger (int 9999) fresh) as (_ & H1 & _ & _ & Ha & _).
  pose proof (C2_setNeed_clamps Hunger (int (-50)) fresh) as (_ & H2 & _ & _ & _ & Hb & _).
  pose proof (C2_setNeed_clamps Hunger PInf fresh) as (_ & H3 & _ & Hc & _).
  pose proof (C2_setNeed_clamps Hunger (Fin (25 # 2)) fresh)
    as (_ & _ & _ & _ & _ & _ & Hd).
  split; [|split; [|split]].
  - rewrite H1. apply (Ha _ eq_refl). reflexivity.
  - rewrite H2. apply (Hb _ eq_refl). reflexivity.
  - rewrite H3. apply (Hc eq_refl).
  - destruct (Hd _ eq_refl) as [-> _]; [split; discriminate | reflexivity].
Defined.

(* ================================================================= *)
(** ** Badges *)

Lemma committed_badges_derived (s : GameState) :
  committed s -> badges_derived s.
Proof.
  intros [_ H]. unfold badges_derived. rewrite H. split; [|by repeat split].
  intros c l h Ho _ _ _ _. unfold computeBadges, totalAccessoriesOwned, num_ge.
  rewrite Ho. cbn [collar leash headband accessory_1 accessory_2 accessory_4].
  by rewrite !num_add_int, !num_le_int.
Qed.

(** The accessory badges of a committed state, on the total the model
    computes. *)
Lemma committed_accessory_badges (s : GameState) :
  committed s ->
  accessory_1 (badges s)
    = num_ge (totalAccessoriesOwned (ownedAccessories s)) (int 1)
  /\ accessory_2 (badges s)
     = num_ge (totalAccessoriesOwned (ownedAccessories s)) (int 2)
  /\ accessory_4 (badges s)
     = num_ge (totalAccessoriesOwned (ownedAccessories s)) (int 4).
Proof. intros [_ H]. rewrite H. by repeat split. Qed.

(** What [addOwnedAccessory] adds when it does not return early. *)
Lemma add_positive (c : num) :
  num_le (Math_max (int 0) (Math_floor (num_or c (int 0)))) (int 0) = false ->
  num_lt (int 0) (Math_max (int 0) (Math_floor (num_or c (int 0)))) = true.
Proof.
  destruct c as [| | |q]; try done.
  unfold num_or, truthy. destruct (negb _); [|done].
  cbn [Math_floor]. rewrite Math_max_int, num_le_int, num_lt_int. lia.
Qed.

(** A count that grows keeps the total at or above any threshold. *)
Lemma total_ge_grow_l (c x l h : num) (k : Q) :
  num_lt (int 0) x = true ->
  num_ge (num_add (num_add c l) h) (Fin k) = true ->
  num_ge (num_add (num_add (Math_max (int 0) (num_add c x)) l) h) (Fin k) = true.
Proof.
  unfold num_ge.
  destruct c, x, l, h; simpl; try done; intros Hx Hk;
    unfold Math_max; simpl; qhyps; qcases; simpl; qclose.
Qed.

Lemma total_ge_grow_m (c x l h : num) (k : Q) :
  num_lt (int 0) x = true ->
  num_ge (num_add (num_add c l) h) (Fin k) = true ->
  num_ge (num_add (num_add c (Math_max (int 0) (num_add l x))) h) (Fin k) = true.
Proof.
  unfold num_ge.
  destruct c, x, l, h; simpl; try done; intros Hx Hk;
    unfold Math_max; simpl; qhyps; qcases; simpl; qclose.
Qed.

Lemma total_ge_grow_r (c x l h : num) (k : Q) :
  num_lt (int 0) x = true ->
  num_ge (num_add (num_add c l) h) (Fin k) = true ->
  num_ge (num_add (num_add c l) (Math_max (int 0) (num_add h x))) (Fin k) = true.
Proof.
  unfold num_ge.
  destruct c, x, l, h; simpl; try done; intros Hx Hk;
    unfold Math_max; simpl; qhyps; qcases; simpl; qclose.
Qed.

Lemma persist_ownedAccessories (raw : GameState) (w : World) :
  ownedAccessories (state (persist raw w)) = ownedAccessories raw.
Proof. reflexivity. Qed.

Lemma addOwnedAccessory_total_ge a count (w : World) (k : Q) :
  num_ge (totalAccessoriesOwned (ownedAccessories (state w))) (Fin k) = true ->
  num_ge (totalAccessoriesOwned
            (ownedAccessories (state (addOwnedAccessory a count w)))) (Fin k)
  = true.
Proof.
  intros Hk. unfold addOwnedAccessory.
  destruct (num_le _ (int 0)) eqn:Hadd; [done|].
  apply add_positive in Hadd.
  rewrite persist_ownedAccessories. cbn [with_ownedAccessories ownedAccessories].
  unfold totalAccessoriesOwned in *.
  destruct a; cbn [accessory_set accessory_get collar leash headband].
  - by apply total_ge_grow_l.
  - by apply total_ge_grow_m.
  - by apply total_ge_grow_r.
Qed.

Lemma addOwnedAccessories_total_ge calls (w : World) (k : Q) :
  num_ge (totalAccessoriesOwned (ownedAccessories (state w))) (Fin k) = true ->
  num_ge (totalAccessoriesOwned
            (ownedAccessories (state (addOwnedAccessories calls w)))) (Fin k)
  = true.
Proof.
  revert w. induction calls as [|[a c] calls IH]; intros w Hk; [done|].
  apply IH. by apply addOwnedAccessory_total_ge.
Qed.

Lemma addOwnedAccessories_Held calls (w : World) :
  Held w -> Held (addOwnedAccessories calls w).
Proof.
  revert w. induction calls as [|[a c] calls IH]; intros w Hw; [done|].
  apply IH. apply (Held_run (AddOwnedAccessory a c)), Hw.
Qed.

(** The badges of the candidate state never reach the committed one. *)
Lemma persist_ignores_badges (b : Badges) (raw : GameState) (w : World) :
  persist (with_badges b raw) w = persist raw w.
Proof. reflexivity. Qed.

(** C4.  Every commit overrides the candidate's badges with the derived
    ones, so in every state the store holds, and after every mutator, each
    accessory badge is its threshold test on the sum of the owned counts of
    collar, leash and headband (whole counts that add up to at most 2^53)
    and each day badge is its threshold test on [daysPlayed]; along every
    sequence of [addOwnedAccessory] calls an accessory badge is true exactly
    when that sum has reached its threshold, and once true it stays true. *)
Theorem C4_badges_derived :
  (forall b raw w,
      persist (with_badges b raw) w = persist raw w
      /\ badges_derived (state (persist raw w)))
  /\ (forall w, Held w -> badges_derived (state w))
  /\ (forall op w, Held w -> badges_derived (state (run op w)))
  /\ (forall calls later w, Held w ->
        let wi := addOwnedAccessories calls w in
        let wj := addOwnedAccessories later wi in
        badges_derived (state wi) /\ badges_derived (state wj)
        /\ (accessory_1 (badges (state wi)) = true ->
            accessory_1 (badges (state wj)) = true)
        /\ (accessory_2 (badges (state wi)) = true ->
            accessory_2 (badges (state wj)) = true)
        /\ (accessory_4 (badges (state wi)) = true ->
            accessory_4 (badges (state wj)) = true)).
Proof.
  assert (forall w, Held w -> badges_derived (state w)) as HH.
  { intros w Hw. by apply committed_badges_derived, Held_committed. }
  split; [|split; [exact HH|split]].
  - intros b raw w. split; [reflexivity|].
    apply committed_badges_derived, persist_committed.
  - intros op w Hw. by apply HH, Held_run.
  - intros calls later w Hw wi wj.
    assert (Hi : Held wi) by by apply addOwnedAccessories_Held.
    assert (Hj : Held wj) by by apply addOwnedAccessories_Held.
    split; [by apply HH|]. split; [by apply HH|].
    destruct (committed_accessory_badges _ (Held_committed _ Hi)) as (E1 & E2 & E4).
    destruct (committed_accessory_badges _ (Held_committed _ Hj)) as (F1 & F2 & F4).
    rewrite E1, E2, E4, F1, F2, F4.
    repeat split; apply addOwnedAccessories_total_ge.
Qed.

(** Witness of C4: a collar, two leashes and a headband bought from the
    default state; the fourth accessory is the headband. *)
Lemma C4_badges_derived_witness :
  Held fresh
  /\ (let w3 := addOwnedAccessories [(Collar, None); (Leash, Some (int 2))] fresh in
      let w4 := addOwnedAccessories [(Headband, None)] w3 in
      ownedAccessories (state w3) = mkAccessoryRecord (int 1) (int 2) (int 0)
      /\ ownedAccessories (state w4) = mkAccessoryRecord (int 1) (int 2) (int 1)
      /\ accessory_1 (badges (state w3)) = true
      /\ accessory_2 (badges (state w3)) = true
      /\ accessory_4 (badges (state w3)) = false
      /\ accessory_4 (badges (state w4)) = true
      /\ accessory_2 (badges (state w4)) = true).
Proof.
  split; [apply Held_boot|].
  destruct C4_badges_derived as (_ & _ & _ & H).
  destruct (H [(Collar, None); (Leash, Some (int 2))] [(Headband, None)] fresh
              (Held_boot _ _)) as ((H3 & _) & (H4 & _) & _ & M2 & _).
  cbv zeta.
  destruct (H3 1 2 0) as (A1 & A2 & A4); [reflexivity | lia | lia | lia | lia |].
  destruct (H4 1 2 1) as (_ & _ & B4); [reflexivity | lia | lia | lia | lia |].
  split; [reflexivity|]. split; [reflexivity|].
  split; [exact A1|]. split; [exact A2|]. split; [exact A4|].
  split; [exact B4 | exact (M2 A2)].
Defined.

(* ================================================================= *)
(** ** The transaction log *)

Lemma persist_transactions (raw : GameState) (w : World) :
  transactions (state (persist raw w)) = transactions raw.
Proof. reflexivity. Qed.

Lemma addTransaction_transactions env tx (w : World) :
  transactions (state (addTransaction env tx w))
  = take 250 (new_transaction env tx :: transactions (state w)).
Proof. reflexivity. Qed.

Lemma take_app_take {A} (n : nat) (l m : list A) :
  take n (l ++ take n m) = take n (l ++ m).
Proof.
  rewrite !take_app, take_take. do 2 f_equal. lia.
Qed.

Lemma addTransactions_transactions calls (w : World) :
  (length (transactions (state w)) <= 250)%nat ->
  transactions (state (addTransactions calls w))
  = take 250 (reverse ((fun c => new_transaction (fst c) (snd c)) <$> calls)
              ++ transactions (state w)).
Proof.
  revert w. induction calls as [|[env tx] calls IH]; intros w Hw.
  - symmetry. by apply take_ge.
  - change (addTransactions ((env, tx) :: calls) w)
      with (addTransactions calls (addTransaction env tx w)).
    rewrite IH.
    + rewrite addTransaction_transactions, take_app_take.
      rewrite fmap_cons, reverse_cons, <- app_assoc. reflexivity.
    + rewrite addTransaction_transactions, length_take. lia.
Qed.

(** C5.  Each [addTransaction] call puts one new record at the head of the
    list and keeps the first 250 entries; after any [n] calls from the
    default state the list has [min n 250] entries, the most recently added
    ones, newest first. *)
Theorem C5_transaction_cap :
  (forall env tx w,
      transactions (state (addTransaction env tx w))
      = take 250 (new_transaction env tx :: transactions (state w))
      /\ (length (transactions (state (addTransaction env tx w))) <= 250)%nat
      /\ head (transactions (state (addTransaction env tx w)))
         = Some (new_transaction env tx))
  /\ (forall calls ages,
        let w := addTransactions calls {| state := boot None; petAges := ages |} in
        let added := (fun c => new_transaction (fst c) (snd c)) <$> calls in
        length (transactions (state w)) = Nat.min (length calls) 250
        /\ transactions (state w) = take 250 (reverse added)
        /\ transactions (state w)
           = reverse (drop (length calls - 250) added)).
Proof.
  split.
  - intros env tx w. rewrite addTransaction_transactions.
    split; [reflexivity|]. split; [rewrite length_take; lia | reflexivity].
  - intros calls ages w added.
    assert (transactions (state w) = take 250 (reverse added)) as E.
    { unfold w. rewrite addTransactions_transactions by (simpl; lia).
      by rewrite app_nil_r. }
    split; [|split; [exact E|]].
    + rewrite E, length_take, length_reverse. unfold added.
      rewrite length_fmap. lia.
    + rewrite E, take_reverse. unfold added. by rewrite length_fmap.
Qed.

(* ================================================================= *)
(** ** Purchases and money *)

(** A commit that touches none of the fields the normalizer or the badges
    depend on, [money] apart. *)
Lemma persist_frame (s raw : GameState) (w : World) :
  committed s ->
  needs raw = needs s ->
  daysPlayed raw = daysPlayed s ->
  ownedAccessories raw = ownedAccessories s ->
  badges raw = badges s ->
  state (persist raw w) = with_money (floor0 (money raw)) raw.
Proof.
  intros Hs Hn Hd Ha Hb.
  assert (Hcn := committed_needs _ Hs). assert (Hcd := committed_daysPlayed _ Hs).
  destruct Hs as [_ Hbs].
  destruct raw as [n m a p oa ea b d t]. cbn in Hn, Hd, Ha, Hb. subst.
  rewrite persist_state. unfold normalize, with_badges, with_money, computeBadges.
  cbn [needs money animalId ownedPets ownedAccessories equippedAccessories
       badges daysPlayed transactions].
  fold (floor0 (daysPlayed s)). rewrite Hcn, Hcd. f_equal.
  rewrite Hbs. reflexivity.
Qed.

Lemma price_of_int (c : Z) : price_of (int c) = int (Z.max 0 c).
Proof. unfold price_of. by rewrite Math_round_int, Math_max_int. Qed.

Lemma purchase_noop env petId cost (w : World) :
  animal_get petId (ownedPets (state w)) = true
  \/ num_lt (money (state w)) (price_of cost) = true ->
  purchasePremiumPet env petId cost w = w.
Proof.
  unfold purchasePremiumPet. fold (price_of cost).
  intros [-> | H]; [done|]. rewrite H. by destruct (animal_get _ _).
Qed.

Lemma purchase_success env petId cost (w : World) :
  animal_get petId (ownedPets (state w)) = false ->
  num_lt (money (state w)) (price_of cost) = false ->
  purchasePremiumPet env petId cost w
  = persist
      (with_transactions
         (take 250 (purchase_record env petId cost :: transactions (state w)))
         (with_ownedPets (animal_set petId true (ownedPets (state w)))
            (with_money (Math_max (int 0) (num_sub (money (state w)) (price_of cost)))
               (state w)))) w.
Proof.
  unfold purchasePremiumPet. fold (price_of cost). by intros -> ->.
Qed.

Lemma animal_get_set_eq {A} (k : AnimalId) (v : A) (r : AnimalRecord A) :
  animal_get k (animal_set k v r) = v.
Proof. by destruct k. Qed.

Lemma animal_get_set_ne {A} (k k' : AnimalId) (v : A) (r : AnimalRecord A) :
  k <> k' -> animal_get k' (animal_set k v r) = animal_get k' r.
Proof. by destruct k, k'. Qed.

(** C6 as stated fails for a cost that is not a non-negative integer: with
    an empty purse and a cost of 0.25 the purse is short of the cost, yet the
    call unlocks the pet and logs a purchase, because the price charged is
    the rounded cost, 0. *)
Lemma C6_counterexample :
  Held fresh
  /\ animal_get Dragon (ownedPets (state fresh)) = false
  /\ num_lt (money (state fresh)) (Fin (1 # 4)) = true
  /\ animal_get Dragon
       (ownedPets (state (purchasePremiumPet env0 Dragon (Fin (1 # 4)) fresh)))
     = true
  /\ length (transactions
               (state (purchasePremiumPet env0 Dragon (Fin (1 # 4)) fresh)))
     = 1%nat
  /\ purchasePremiumPet env0 Dragon (Fin (1 # 4)) fresh <> fresh.
Proof.
  split; [apply Held_boot|]. do 4 (split; [reflexivity|]).
  intros H. apply (f_equal (fun w => dragon (ownedPets (state w)))) in H.
  discriminate.
Qed.

Lemma num_ge_not_lt (a b : num) : num_ge a b = true -> num_lt a b = false.
Proof.
  unfold num_ge. destruct a, b; try done. simpl. unfold Qlt_bool. by intros ->.
Qed.

(** C6, amended.  Let the price be the cost rounded to the nearest integer
    and floored at 0 (the cost itself when it is a non-negative integer).
    For every pet and cost: if the pet is not owned and money is at least
    the price, one call marks the pet owned, puts exactly one expense record
    of the price at the head of the log and changes nothing else but the
    balance, which for a whole balance of at most 2^53 is money minus the
    price; if the pet is already owned or money is below the price, the call
    leaves the whole state unchanged; and a second call for the same pet and
    cost never changes anything. *)
Theorem C6_purchase_atomic env petId cost (w : World) :
  Held w ->
  let w' := purchasePremiumPet env petId cost w in
  (animal_get petId (ownedPets (state w)) = false ->
   num_ge (money (state w)) (price_of cost) = true ->
     state w'
     = with_transactions
         (take 250 (purchase_record env petId cost :: transactions (state w)))
         (with_ownedPets (animal_set petId true (ownedPets (state w)))
            (with_money (money (state w')) (state w)))
     /\ petAges w' = petAges w
     /\ animal_get petId (ownedPets (state w')) = true
     /\ head (transactions (state w')) = Some (purchase_record env petId cost)
     /\ type (purchase_record env petId cost) = expense
     /\ amount (purchase_record env petId cost) = price_of cost
     /\ (forall m p : Z,
           money (state w) = int m -> price_of cost = int p -> m <= 2 ^ 53 ->
           money (state w') = int (m - p)))
  /\ (animal_get petId (ownedPets (state w)) = true
      \/ num_lt (money (state w)) (price_of cost) = true ->
      w' = w)
  /\ (forall env', purchasePremiumPet env' petId cost w' = w')
  /\ (forall m c : Z,
        money (state w) = int m -> cost = int c -> 0 <= c -> m <= 2 ^ 53 ->
        price_of cost = int c
        /\ (animal_get petId (ownedPets (state w)) = false -> c <= m ->
            money (state w') = int (m - c))
        /\ (m < c -> w' = w)).
Proof.
  intros Hw w'. assert (Hc := Held_committed _ Hw).
  assert (animal_get petId (ownedPets (state w)) = false ->
          num_lt (money (state w)) (price_of cost) = false ->
          state w'
          = with_transactions
              (take 250 (purchase_record env petId cost :: transactions (state w)))
              (with_ownedPets (animal_set petId true (ownedPets (state w)))
                 (with_money
                    (floor0 (Math_max (int 0)
                               (num_sub (money (state w)) (price_of cost))))
                    (state w)))) as Hok.
  { intros Ho Hm. unfold w'. rewrite (purchase_success _ _ _ _ Ho Hm).
    by rewrite (persist_frame (state w)). }
  assert (forall m p : Z,
             animal_get petId (ownedPets (state w)) = false ->
             money (state w) = int m -> price_of cost = int p -> p <= m ->
             money (state w') = int (m - p)) as Hmoney.
  { intros m p Ho Hm Hp Hle. rewrite Hok.
    - cbn [with_transactions with_ownedPets with_money money].
      rewrite Hm, Hp, num_sub_int, Math_max_int, floor0_int. f_equal. lia.
    - done.
    - rewrite Hm, Hp, num_lt_int. lia. }
  split; [|split; [|split]].
  - intros Ho Hge. assert (Hm := num_ge_not_lt _ _ Hge).
    split; [by rewrite (Hok Ho Hm)|].
    split; [unfold w'; by rewrite (purchase_success _ _ _ _ Ho Hm)|].
    split; [rewrite (Hok Ho Hm); apply animal_get_set_eq|].
    split; [by rewrite (Hok Ho Hm)|]. do 2 (split; [done|]).
    intros m p Em Ep _. apply Hmoney; try done.
    unfold num_ge in Hge. rewrite Em, Ep, num_le_int in Hge. lia.
  - apply purchase_noop.
  - intros env'.
    destruct (animal_get petId (ownedPets (state w))) eqn:Ho.
    + unfold w'. rewrite (purchase_noop env) by auto. apply purchase_noop; auto.
    + destruct (num_lt (money (state w)) (price_of cost)) eqn:Hm.
      * unfold w'. rewrite (purchase_noop env) by auto. apply purchase_noop; auto.
      * apply purchase_noop. left. rewrite (Hok eq_refl eq_refl).
        cbn [with_transactions with_ownedPets ownedPets]. apply animal_get_set_eq.
  - intros m c Hm -> Hc0 _. rewrite price_of_int.
    replace (Z.max 0 c) with c by lia. split; [done|]. split.
    + intros Ho Hle. apply Hmoney; try done.
      rewrite price_of_int. f_equal. lia.
    + intros Hlt. apply purchase_noop. right.
      rewrite Hm, price_of_int, num_lt_int. lia.
Qed.

(** Witness of C6: [purchasePremiumPet("dragon", 500)] with 500 in the purse. *)
Lemma C6_purchase_atomic_witness :
  Held (with_balance (int 500))
  /\ animal_get Dragon (ownedPets (state (with_balance (int 500)))) = false
  /\ num_ge (money (state (with_balance (int 500)))) (price_of (int 500)) = true
  /\ (let w' := purchasePremiumPet env0 Dragon (int 500) (with_balance (int 500)) in
      money (state w') = int 0
      /\ dragon (ownedPets (state w')) = true
      /\ transactions (state w') = [purchase_record env0 Dragon (int 500)]
      /\ amount (purchase_record env0 Dragon (int 500)) = int 500
      /\ purchasePremiumPet env0 Dragon (int 500) w' = w').
Proof.
  split; [apply Held_boot|]. split; [reflexivity|]. split; [reflexivity|].
  pose proof (C6_purchase_atomic env0 Dragon (int 500) (with_balance (int 500))
                (Held_boot _ _)) as (H1 & _ & H3 & H4).
  destruct (H4 500 500 eq_refl eq_refl) as (_ & Hm & _); [lia | lia |].
  destruct (H1 eq_refl eq_refl) as (Hs & _ & Ho & _ & _ & _ & Hp).
  cbv zeta. split; [apply Hm; [reflexivity | lia]|].
  split; [exact Ho|].
  split; [rewrite Hs; reflexivity|].
  split; [reflexivity | apply H3].
Defined.


Lemma applyMoneyDelta_eq env delta meta (w : World) :
  applyMoneyDelta env delta meta w
  = persist
      (with_transactions
         (take 250 (delta_record env delta meta :: transactions (state w)))
         (with_money
            (Math_max (int 0) (Math_round (num_add (money (state w)) delta)))
            (state w))) w.
Proof. reflexivity. Qed.

(** C7 as stated fails for a fractional delta: from an empty purse,
    [applyMoneyDelta(0.5)] leaves 1, the rounded sum, where the previous
    money plus delta floored at 0 is 0.5. *)
Lemma C7_counterexample :
  Held fresh
  /\ money (state fresh) = int 0
  /\ money (state (applyMoneyDelta env0 (Fin (1 # 2)) None fresh)) = int 1
  /\ Math_max (int 0) (num_add (money (state fresh)) (Fin (1 # 2))) = Fin (1 # 2)
  /\ ~ (inject_Z 1 == 1 # 2)%Q.
Proof.
  split; [apply Held_boot|]. do 3 (split; [reflexivity|]). discriminate.
Qed.

(** C7, amended.  For every delta, [applyMoneyDelta(delta, meta?)] sets
    money to the previous money plus delta, rounded to the nearest integer
    and floored at 0: the balance is a whole number at or above 0 (or
    [Infinity]) afterwards, never negative; it is the sum floored at 0 for a
    whole balance and a whole delta, and the rounded sum floored at 0 for a
    whole balance [m] and a delta [n / 2^j], as long as the sum is a double
    (operands and sum within 2^53, resp. [m * 2^j + n] within 2^53).  The
    call puts exactly one synthesized record at the head of the log: its
    type is income if delta >= 0 and expense otherwise, its amount the
    absolute rounded delta, its category and note the defaults unless meta
    overrides them. *)
Theorem C7_applyMoneyDelta env delta meta (w : World) :
  let w' := applyMoneyDelta env delta meta w in
  num_ge (money (state w')) (int 0) = true
  /\ whole_or_infinite (money (state w'))
  /\ (forall m d : Z,
        money (state w) = int m -> delta = int d ->
        - 2 ^ 53 <= m <= 2 ^ 53 -> - 2 ^ 53 <= d <= 2 ^ 53 ->
        - 2 ^ 53 <= m + d <= 2 ^ 53 ->
        money (state w') = int (Z.max 0 (m + d)))
  /\ (forall (m n : Z) (j : positive),
        money (state w) = int m -> delta = Fin (n # 2 ^ j) ->
        (j <= 1074)%positive ->
        - 2 ^ 53 <= m <= 2 ^ 53 -> - 2 ^ 53 <= n <= 2 ^ 53 ->
        - 2 ^ 53 <= m * 2 ^ Z.pos j + n <= 2 ^ 53 ->
        money (state w')
        = Math_max (int 0) (Math_round (Fin (inject_Z m + (n # 2 ^ j)))))
  /\ transactions (state w')
     = take 250 (delta_record env delta meta :: transactions (state w))
  /\ head (transactions (state w')) = Some (delta_record env delta meta)
  /\ type (delta_record env delta meta)
     = (if num_ge delta (int 0) then income else expense)
  /\ amount (delta_record env delta meta) = Math_abs (Math_round delta)
  /\ category (delta_record env delta meta)
     = default (if num_ge delta (int 0) then "Game Earned" else "Game Spent")
         (meta ≫= meta_category)
  /\ note (delta_record env delta meta)
     = default (if num_ge delta (int 0) then "Earned on Map" else "Spent on Map")
         (meta ≫= meta_note).
Proof.
  intros w'. unfold w'. rewrite applyMoneyDelta_eq.
  assert (money (state (persist
            (with_transactions
               (take 250 (delta_record env delta meta :: transactions (state w)))
               (with_money
                  (Math_max (int 0) (Math_round (num_add (money (state w)) delta)))
                  (state w))) w))
          = floor0 (Math_max (int 0)
                      (Math_round (num_add (money (state w)) delta)))) as Hmoney
    by reflexivity.
  split; [rewrite Hmoney; apply floor0_nonneg|].
  split; [rewrite Hmoney; apply round_floor0_whole|].
  split.
  { intros m d Hm -> _ _ _. rewrite Hmoney.
    rewrite Hm, num_add_int, Math_round_int, Math_max_int, floor0_int.
    f_equal. lia. }
  split.
  { intros m n j Hm -> _ _ _ _. rewrite Hmoney, Hm.
    cbn [num_add int Math_round]. rewrite Math_max_int, floor0_int.
    f_equal. lia. }
  do 2 (split; [reflexivity|]).
  unfold delta_record, delta_type. cbn [type amount category note].
  destruct (num_ge delta (int 0)); by repeat split.
Qed.

(** Witness of C7: [applyMoneyDelta(-1000000)] with 50 in the purse, and
    [applyMoneyDelta(2.5)] with 10. *)
Lemma C7_applyMoneyDelta_witness :
  (let w' := applyMoneyDelta env0 (int (-1000000)) None (with_balance (int 50)) in
   money (state w') = int 0
   /\ transactions (state w')
      = [ {| id := uid env0; createdAt := Date_now env0; type := expense;
             amount := int 1000000; category := "Game Spent";
             note := "Spent on Map" |} ])
  /\ money (state (applyMoneyDelta env0 (Fin (5 # 2 ^ 1)) None
                     (with_balance (int 10)))) = int 13.
Proof.
  pose proof (C7_applyMoneyDelta env0 (int (-1000000)) None (with_balance (int 50)))
    as (_ & _ & Hm & _ & Ht & _).
  pose proof (C7_applyMoneyDelta env0 (Fin (5 # 2 ^ 1)) None (with_balance (int 10)))
    as (_ & _ & _ & Hq & _).
  cbv zeta. split; [split|].
  - apply (Hm 50 (-1000000)); [reflexivity | reflexivity | lia | lia | lia].
  - rewrite Ht. reflexivity.
  - rewrite (Hq 10 5 1%positive); [reflexivity | reflexivity | reflexivity
                                  | discriminate | lia | lia | lia].
Defined.

(* ================================================================= *)
(** ** Accessories *)

Lemma accessory_get_set_eq {A} (k : AccessoryId) (v : A) (r : AccessoryRecord A) :
  accessory_get k (accessory_set k v r) = v.
Proof. by destruct k. Qed.

Lemma accessory_get_set_ne {A} (k k' : AccessoryId) (v : A) (r : AccessoryRecord A) :
  k <> k' -> accessory_get k' (accessory_set k v r) = accessory_get k' r.
Proof. by destruct k, k'. Qed.

Lemma setNeed_accessories need value (w : World) :
  ownedAccessories (state (setNeed need value w)) = ownedAccessories (state w)
  /\ equippedAccessories (state (setNeed need value w))
     = equippedAccessories (state w).
Proof. unfold setNeed. by destruct (negb _ && _). Qed.

Lemma count_positive (c : num) :
  num_ge c (int 0) = true -> num_le c (int 0) = false ->
  num_gt c (int 0) = true.
Proof.
  unfold num_ge, num_gt. destruct c; simpl; try done.
  intros H1 H2. qhyps. qclose.
Qed.

Lemma count_grows (c x : num) :
  num_ge c (int 0) = true -> num_lt (int 0) x = true ->
  num_gt (Math_max (int 0) (num_add c x)) (int 0) = true
  /\ num_ge (Math_max (int 0) (num_add c x)) (int 0) = true.
Proof.
  unfold num_ge, num_gt.
  destruct c, x; simpl; try done; intros Hc Hx;
    unfold Math_max; simpl; qhyps; qcases; simpl; split; qclose.
Qed.

Lemma setEquippedAccessory_guard a (w : World) :
  num_le (accessory_get a (ownedAccessories (state w))) (int 0) = true ->
  setEquippedAccessory a true w = w.
Proof. unfold setEquippedAccessory. by intros ->. Qed.

Lemma setEquippedAccessory_off a (w : World) :
  accessory_get a (equippedAccessories (state (setEquippedAccessory a false w)))
  = false.
Proof.
  unfold setEquippedAccessory. cbn [andb].
  change (equippedAccessories (state (persist ?r w))) with (equippedAccessories r).
  cbn [with_equippedAccessories equippedAccessories]. apply accessory_get_set_eq.
Qed.

Lemma run_equip_invariant (op : Op) (w : World) :
  counts_nonneg (state w) -> equip_requires_owned (state w) ->
  counts_nonneg (state (run op w)) /\ equip_requires_owned (state (run op w)).
Proof.
  intros Hn He. destruct op; cbn [run]; try done.
  - (* setEquippedAccessory *)
    unfold setEquippedAccessory.
    destruct (equipped && _) eqn:Hg; [done|]. split; [done|].
    intros a. change (ownedAccessories (state (persist ?r w))) with (ownedAccessories r).
    change (equippedAccessories (state (persist ?r w))) with (equippedAccessories r).
    cbn [with_equippedAccessories equippedAccessories ownedAccessories].
    destruct (decide (accessory = a)) as [<- | Hne].
    + rewrite accessory_get_set_eq. intros ->. cbn [andb] in Hg.
      by apply count_positive.
    + rewrite accessory_get_set_ne by done. apply He.
  - (* setNeed *)
    unfold counts_nonneg, equip_requires_owned.
    destruct (setNeed_accessories need value w) as [-> ->]. done.
  - (* bumpNeed *)
    unfold counts_nonneg, equip_requires_owned, bumpNeed.
    destruct (setNeed_accessories need
                (num_add (need_get need (needs (state w))) delta) w) as [-> ->].
    done.
  - (* addOwnedAccessory *)
    unfold addOwnedAccessory.
    destruct (num_le _ (int 0)) eqn:Hadd; [done|].
    apply add_positive in Hadd.
    unfold counts_nonneg, equip_requires_owned.
    change (ownedAccessories (state (persist ?r w))) with (ownedAccessories r).
    change (equippedAccessories (state (persist ?r w))) with (equippedAccessories r).
    cbn [with_ownedAccessories equippedAccessories ownedAccessories].
    destruct (count_grows _ _ (Hn accessory) Hadd) as [Hgt Hge].
    split; intros a; (destruct (decide (accessory = a)) as [<- | Hne];
      [rewrite accessory_get_set_eq | rewrite accessory_get_set_ne by done]);
      auto.
  - (* purchasePremiumPet *)
    unfold purchasePremiumPet.
    destruct (animal_get _ _); [done|]. by destruct (num_lt _ _).
Qed.

Lemma FromDefault_equip_invariant (w : World) :
  FromDefault w ->
  counts_nonneg (state w) /\ equip_requires_owned (state w).
Proof.
  induction 1 as [ages | op w _ [IH1 IH2]].
  - split; intros []; done.
  - by apply run_equip_invariant.
Qed.

(** C8 as stated fails for a state booted from storage: the normalizer keeps
    an equipped flag whose owned count is 0. *)
Lemma C8_counterexample :
  Held unowned_collar
  /\ accessory_get Collar (equippedAccessories (state unowned_collar)) = true
  /\ accessory_get Collar (ownedAccessories (state unowned_collar)) = int 0
  /\ num_gt (accessory_get Collar (ownedAccessories (state unowned_collar)))
       (int 0) = false.
Proof. split; [apply Held_boot | by repeat split]. Qed.

(** C8, amended.  In every state reached from the default state through the
    mutators an accessory's equipped flag is true only if its owned count is
    above 0, and every mutator keeps this true of any state whose counts are
    numbers at or above 0; the normalizer does not establish it for a state
    loaded from storage.  For every accessory, [setEquippedAccessory(id,
    true)] with an owned count of 0 (or below) leaves the state unchanged,
    and [setEquippedAccessory(id, false)] always leaves the flag false. *)
Theorem C8_equip_requires_owned :
  (forall w, FromDefault w -> equip_requires_owned (state w))
  /\ (forall op w,
        counts_nonneg (state w) -> equip_requires_owned (state w) ->
        counts_nonneg (state (run op w))
        /\ equip_requires_owned (state (run op w)))
  /\ (forall a w,
        accessory_get a (ownedAccessories (state w)) = int 0 ->
        setEquippedAccessory a true w = w)
  /\ (forall a w,
        num_le (accessory_get a (ownedAccessories (state w))) (int 0) = true ->
        setEquippedAccessory a true w = w)
  /\ (forall a w,
        accessory_get a
          (equippedAccessories (state (setEquippedAccessory a false w)))
        = false).
Proof.
  split; [intros w Hw; by apply FromDefault_equip_invariant|].
  split; [apply run_equip_invariant|].
  split; [|split; [apply setEquippedAccessory_guard
                  | apply setEquippedAccessory_off]].
  intros a w H0. apply setEquippedAccessory_guard. by rewrite H0.
Qed.

(** Witness of C8: on the default state the collar cannot be put on; after
    one is bought it can, and it can always be taken off. *)
Lemma C8_equip_requires_owned_witness :
  FromDefault fresh
  /\ setEquippedAccessory Collar true fresh = fresh
  /\ equip_requires_owned
       (state (runs [AddOwnedAccessory Collar None;
                     SetEquippedAccessory Collar true] fresh))
  /\ collar (equippedAccessories
               (state (runs [AddOwnedAccessory Collar None;
                             SetEquippedAccessory Collar true] fresh))) = true
  /\ collar (equippedAccessories
               (state (runs [AddOwnedAccessory Collar None;
                             SetEquippedAccessory Collar true;
                             SetEquippedAccessory Collar false] fresh))) = false.
Proof.
  destruct C8_equip_requires_owned as (H1 & _ & H3 & _ & H5).
  split; [apply FromDefault_boot|].
  split; [apply (H3 Collar fresh); reflexivity|].
  split.
  { apply (H1 (run (SetEquippedAccessory Collar true)
                 (run (AddOwnedAccessory Collar None) fresh))).
    do 2 apply FromDefault_run. apply FromDefault_boot. }
  split; [reflexivity|].
  apply (H5 Collar
           (run (SetEquippedAccessory Collar true)
              (run (AddOwnedAccessory Collar None) fresh))).
Defined.

(* ================================================================= *)
(** ** The day counter *)

Lemma run_daysPlayed (op : Op) (w : World) :
  committed (state w) ->
  daysPlayed (state (run op w))
  = if advances op w
    then num_add (daysPlayed (state w)) (int 1)
    else daysPlayed (state w).
Proof.
  intros Hw. assert (Hd := committed_daysPlayed _ Hw).
  destruct op; cbn [run advances]; try done.
  - unfold setEquippedAccessory. by destruct (equipped && _).
  - by apply setNeed_daysPlayed.
  - by apply setNeed_daysPlayed.
  - unfold addOwnedAccessory. by destruct (num_le _ (int 0)).
  - unfold purchasePremiumPet.
    destruct (animal_get _ _); [done|]. by destruct (num_lt _ _).
Qed.

Lemma floor0_fix_le (d : num) :
  floor0 d = d ->
  num_le d d = true /\ num_le d (num_add d (int 1)) = true.
Proof.
  intros Hd.
  destruct (floor0_cases d) as [[H0 _] | [_ [-> | (q & -> & Hq)]]].
  - rewrite <- Hd, H0. by split.
  - by split.
  - simpl. split; apply Qle_bool_iff; unfold inject_Z; lra.
Qed.

Lemma FromDefault_daysPlayed (w : World) :
  FromDefault w -> nonneg_integer (daysPlayed (state w)).
Proof.
  induction 1 as [ages | op w Hw (z & Hz & IH)].
  - exists 0. by split.
  - rewrite run_daysPlayed by by apply Held_committed, FromDefault_Held.
    destruct (advances op w).
    + exists (z + 1). split; [lia|]. by rewrite IH, num_add_int.
    + by exists z.
Qed.

(** C9 as stated fails for a state booted from storage: the normalizer
    floors [daysPlayed] at 0 but does not round it, so a saved counter of 2.5
    is held as 2.5, which is no integer. *)
Lemma C9_counterexample :
  Held half_day
  /\ daysPlayed (state half_day) = Fin (5 # 2)
  /\ (forall z : Z, ~ (5 # 2 == inject_Z z)%Q).
Proof.
  split; [apply Held_boot|]. split; [reflexivity|].
  intros z. unfold Qeq; simpl. lia.
Qed.

(** C9, amended.  [daysPlayed] is always a number at or above 0, and a
    non-negative integer in every state reached from the default state (the
    normalizer floors a loaded counter at 0 without rounding it); no mutator
    ever decreases it; a mutator changes it only when the day-advance
    trigger fires inside [setNeed] (or [bumpNeed], which calls it), and then
    a whole counter [d] below 2^53 becomes [d + 1]; [incrementDaysPlayed]
    leaves the whole state unchanged for every argument.  (For [bumpNeed]
    the trigger is decided on [current + delta], given here for a whole,
    [NaN] or infinite [delta].) *)
Theorem C9_daysPlayed_monotone :
  (forall w, Held w -> num_ge (daysPlayed (state w)) (int 0) = true)
  /\ (forall w, FromDefault w -> nonneg_integer (daysPlayed (state w)))
  /\ (forall op w, Held w ->
        num_le (daysPlayed (state w)) (daysPlayed (state (run op w))) = true)
  /\ (forall op w, Held w -> whole_bump op ->
        (advances op w = false ->
           daysPlayed (state (run op w)) = daysPlayed (state w))
        /\ (advances op w = true ->
            forall d : Z, 0 <= d < 2 ^ 53 -> daysPlayed (state w) = int d ->
            daysPlayed (state (run op w)) = int (d + 1)))
  /\ (forall _by w, incrementDaysPlayed _by w = w).
Proof.
  split; [|split; [apply FromDefault_daysPlayed|split; [|split; [|done]]]].
  - intros w Hw. by apply floor0_fix_nonneg, committed_daysPlayed, Held_committed.
  - intros op w Hw. assert (Hc := Held_committed _ Hw).
    rewrite run_daysPlayed by done.
    destruct (floor0_fix_le _ (committed_daysPlayed _ Hc)).
    by destruct (advances op w).
  - intros op w Hw _. assert (Hc := Held_committed _ Hw).
    rewrite run_daysPlayed by done. split.
    + by intros ->.
    + intros -> d _ ->. apply num_add_int.
Qed.

(** Witness of C9: the saved game one write away from a complete day. *)
Lemma C9_daysPlayed_monotone_witness :
  Held almost_complete
  /\ advances (SetNeed Sleep (int 100)) almost_complete = true
  /\ advances (BumpNeed Sleep (int 1)) almost_complete = true
  /\ advances (SetNeed Sleep (int 50)) almost_complete = false
  /\ daysPlayed (state (run (SetNeed Sleep (int 100)) almost_complete)) = int 1
  /\ daysPlayed (state (run (BumpNeed Sleep (int 1)) almost_complete)) = int 1
  /\ daysPlayed (state (run (SetNeed Sleep (int 50)) almost_complete)) = int 0
  /\ daysPlayed (state (run (IncrementDaysPlayed (Some (int 7))) almost_complete))
     = int 0
  /\ nonneg_integer (daysPlayed (state (run (SetNeed Hunger (int 100)) fresh))).
Proof.
  destruct C9_daysPlayed_monotone as (_ & H2 & _ & H4 & _).
  assert (0 <= 0 < 2 ^ 53) as Hr by lia.
  split; [apply Held_boot|]. do 3 (split; [reflexivity|]).
  split; [|split; [|split; [|split]]].
  - destruct (H4 (SetNeed Sleep (int 100)) almost_complete (Held_boot _ _) I)
      as [_ H]. apply (H eq_refl 0 Hr eq_refl).
  - destruct (H4 (BumpNeed Sleep (int 1)) almost_complete (Held_boot _ _))
      as [_ H]; [right; by exists 1|]. apply (H eq_refl 0 Hr eq_refl).
  - destruct (H4 (SetNeed Sleep (int 50)) almost_complete (Held_boot _ _) I)
      as [H _]. apply (H eq_refl).
  - destruct (H4 (IncrementDaysPlayed (Some (int 7))) almost_complete
                (Held_boot _ _) I) as [H _]. apply (H eq_refl).
  - apply (H2 (run (SetNeed Hunger (int 100)) fresh)).
    apply FromDefault_run, FromDefault_boot.
Defined.

(* ================================================================= *)
(** ** The normalizer on untyped input *)

Section RawNormalizer.

Variable ToNumber : Value -> num.

#[local] Abbreviation Number := (Raw.Number ToNumber).
#[local] Abbreviation rnormalize := (Raw.normalize ToNumber).

Lemma raw_clampNeed_eq (v : Value) :
  Raw.clampNeed ToNumber v = clampNeed (Number v).
Proof. reflexivity. Qed.

Lemma coalesce_idem (v d : Value) : coalesce (coalesce v d) d = coalesce v d.
Proof. by destruct v, d. Qed.

Lemma spread_idem (d m : gmap string Value) :
  spread d (own_props (coalesce (VObj (spread d m)) (VObj ∅))) = spread d m.
Proof.
  unfold spread. cbn [coalesce own_props].
  by rewrite <- (assoc_L (∪)), (idemp_L (∪)).
Qed.

(** The properties of a normalized object, one by one. *)
Lemma raw_normalize_lookup (s : gmap string Value) (k : string) :
  rnormalize s !! k
  = if decide ("ownedPets" = k) then
      Some (VObj (spread (own_props (prop (encode defaultState) "ownedPets"))
                    (own_props (coalesce (prop s "ownedPets") (VObj ∅)))))
    else if decide ("ownedAccessories" = k) then
      Some (VObj (spread (own_props (prop (encode defaultState) "ownedAccessories"))
                    (own_props (coalesce (prop s "ownedAccessories") (VObj ∅)))))
    else if decide ("equippedAccessories" = k) then
      Some (VObj (spread (own_props (prop (encode defaultState) "equippedAccessories"))
                    (own_props (coalesce (prop s "equippedAccessories") (VObj ∅)))))
    else if decide ("badges" = k) then
      Some (VObj (spread (own_props (prop (encode defaultState) "badges"))
                    (own_props (coalesce (prop s "badges") (VObj ∅)))))
    else if decide ("needs" = k) then
      Some (VObj (Raw.clampNeeds ToNumber (prop s "needs")))
    else if decide ("transactions" = k) then
      Some (match prop s "transactions" with
            | VArr l => VArr l
            | _ => VArr []
            end)
    else if decide ("money" = k) then
      Some (VNum (floor0 (Number (prop s "money"))))
    else if decide ("daysPlayed" = k) then
      Some (VNum (floor0 (Number (prop s "daysPlayed"))))
    else if decide ("animalId" = k) then
      Some (coalesce (prop s "animalId") (prop (encode defaultState) "animalId"))
    else s !! k.
Proof.
  unfold Raw.normalize. rewrite !lookup_insert.
  repeat (case_decide; [reflexivity|]).
  unfold spread. rewrite lookup_union_l; [done|].
  unfold encode. by rewrite !lookup_insert_ne, lookup_empty.
Qed.

Lemma prop_Some (m : gmap string Value) (k : string) (v : Value) :
  m !! k = Some v -> prop m k = v.
Proof. unfold prop. by intros ->. Qed.

(** One property of a normalized object, read back. *)
Ltac raw_prop x key :=
  let H := fresh in
  eassert (rnormalize x !! key = Some _) as H
    by (rewrite raw_normalize_lookup; reflexivity);
  apply prop_Some in H; rewrite H; clear H.

Lemma raw_clampNeeds_idem (v : Value) :
  Raw.clampNeeds ToNumber (VObj (Raw.clampNeeds ToNumber v))
  = Raw.clampNeeds ToNumber v.
Proof.
  set (c := Raw.clampNeeds ToNumber v).
  assert (forall k n, c !! k = Some (VNum n) ->
            Raw.clampNeed ToNumber
              (prop (spread default_needs
                       (own_props (coalesce (VObj c) (VObj ∅)))) k) = clampNeed n)
    as Hk.
  { intros k n Hc. unfold prop, spread. cbn [coalesce own_props].
    by rewrite (lookup_union_Some_l _ _ _ _ Hc). }
  unfold Raw.clampNeeds at 1.
  rewrite (Hk "hunger" _ eq_refl), (Hk "thirst" _ eq_refl),
    (Hk "health" _ eq_refl), (Hk "fun" _ eq_refl), (Hk "sleep" _ eq_refl).
  rewrite !raw_clampNeed_eq, !clampNeed_idem. reflexivity.
Qed.

Lemma raw_normalize_idem (x : gmap string Value) :
  rnormalize (rnormalize x) = rnormalize x.
Proof.
  apply map_eq. intros k.
  rewrite (raw_normalize_lookup (rnormalize x)), (raw_normalize_lookup x).
  destruct (decide ("ownedPets" = k));
    [raw_prop x "ownedPets"; by rewrite spread_idem|].
  destruct (decide ("ownedAccessories" = k));
    [raw_prop x "ownedAccessories"; by rewrite spread_idem|].
  destruct (decide ("equippedAccessories" = k));
    [raw_prop x "equippedAccessories"; by rewrite spread_idem|].
  destruct (decide ("badges" = k));
    [raw_prop x "badges"; by rewrite spread_idem|].
  destruct (decide ("needs" = k));
    [raw_prop x "needs"; by rewrite raw_clampNeeds_idem|].
  destruct (decide ("transactions" = k));
    [raw_prop x "transactions"; by destruct (prop x "transactions")|].
  destruct (decide ("money" = k));
    [raw_prop x "money"; cbn [Raw.Number]; by rewrite floor0_idem|].
  destruct (decide ("daysPlayed" = k));
    [raw_prop x "daysPlayed"; cbn [Raw.Number]; by rewrite floor0_idem|].
  destruct (decide ("animalId" = k));
    [raw_prop x "animalId"; by rewrite coalesce_idem|].
  reflexivity.
Qed.

(** On a well-typed state the untyped normalizer is the typed one. *)
Lemma raw_normalize_encode (s : GameState) :
  rnormalize (encode s) = encode (normalize s).
Proof. reflexivity. Qed.

(** The empty object normalizes to the default state. *)
Lemma raw_normalize_empty : rnormalize ∅ = encode defaultState.
Proof. reflexivity. Qed.

Lemma raw_normalize_transactions (x : gmap string Value) (l : list Value) :
  x !! "transactions" = Some (VArr l) ->
  rnormalize x !! "transactions" = Some (VArr l).
Proof.
  intros H. rewrite raw_normalize_lookup.
  rewrite (prop_Some _ _ _ H). reflexivity.
Qed.

End RawNormalizer.

(** C3.  The normalizer is a function of its argument alone, and applying
    it twice gives what applying it once gives: on every JSON-like object,
    whatever is missing or ill-typed in it, and on every well-typed state,
    where the two embeddings agree. *)
Theorem C3_normalize_idempotent :
  (forall (ToNumber : Value -> num) (x : gmap string Value),
      Raw.normalize ToNumber (Raw.normalize ToNumber x)
      = Raw.normalize ToNumber x)
  /\ (forall s : GameState, normalize (normalize s) = normalize s)
  /\ (forall (ToNumber : Value -> num) (s : GameState),
        Raw.normalize ToNumber (encode s) = encode (normalize s)).
Proof.
  split; [apply raw_normalize_idem|].
  split; [apply normalize_idem | apply raw_normalize_encode].
Qed.

Lemma run_transactions (op : Op) (w : World) :
  transactions (state (run op w)) = log_after op w.
Proof.
  destruct op; cbn [run log_after]; try reflexivity.
  - unfold setEquippedAccessory. by destruct (equipped && _).
  - unfold setNeed. by destruct (negb _ && _).
  - unfold bumpNeed, setNeed. by destruct (negb _ && _).
  - unfold addOwnedAccessory. by destruct (num_le _ (int 0)).
  - unfold purchasePremiumPet. fold (price_of cost).
    destruct (animal_get _ _); [done|]. by destruct (num_lt _ _).
Qed.

(** C10.  The normalizer keeps the [transactions] array of its input as it
    is, whatever its length and its elements, so a saved game with more
    than 250 entries is held at full length after boot; among the mutators
    only [addTransaction], [applyMoneyDelta] and [purchasePremiumPet] write
    the log, each keeping the first 250 entries of the extended list, and
    every other mutator leaves it as it is. *)
Theorem C10_normalize_keeps_transactions :
  (forall (ToNumber : Value -> num) (x : gmap string Value) (l : list Value),
      x !! "transactions" = Some (VArr l) ->
      Raw.normalize ToNumber x !! "transactions" = Some (VArr l))
  /\ (forall s : GameState, transactions (normalize s) = transactions s)
  /\ (forall loaded : GameState,
        transactions (boot (Some loaded)) = transactions loaded)
  /\ (forall op w, transactions (state (run op w)) = log_after op w).
Proof.
  split; [apply raw_normalize_transactions|].
  split; [reflexivity|]. split; [reflexivity | apply run_transactions].
Qed.

(** Witness of C10: 251 saved entries, none of them a transaction record. *)
Lemma C10_normalize_keeps_transactions_witness :
  Raw.normalize (fun _ => NaN)
    (<["transactions" := VArr (replicate 251 VNull)]> ∅) !! "transactions"
  = Some (VArr (replicate 251 VNull))
  /\ length (transactions (boot (Some long_log))) = 251%nat
  /\ length (transactions
               (state (run (AddTransaction env0 (mkTxInput income (int 5) "c" "n"))
                         {| state := boot (Some long_log); petAges := no_ages |})))
     = 250%nat
  /\ length (transactions
               (state (run (SetNeed Hunger (int 5))
                         {| state := boot (Some long_log); petAges := no_ages |})))
     = 251%nat.
Proof.
  destruct C10_normalize_keeps_transactions as (H1 & _ & H3 & H4).
  split; [apply H1; reflexivity|].
  split; [rewrite H3; reflexivity|].
  split; rewrite H4; reflexivity.
Defined.


(* ================================================================= *)
(** ** Further properties of the store *)

Lemma runs_ind (P : World -> Prop) (ops : list Op) (w : World) :
  P w -> (forall op w, P w -> P (run op w)) -> P (runs ops w).
Proof.
  intros H0 Hstep. revert w H0.
  induction ops as [|op ops IH]; intros w H0; [done|].
  apply IH, Hstep, H0.
Qed.

Lemma runs_FromDefault (ops : list Op) ages :
  FromDefault (runs ops {| state := boot None; petAges := ages |}).
Proof.
  apply runs_ind; [apply FromDefault_boot | intros; by apply FromDefault_run].
Qed.

Lemma committed_with_badges (s : GameState) :
  committed s -> with_badges (computeBadges (normalize s)) (normalize s) = s.
Proof. intros [Hn Hb]. rewrite Hn, <- Hb. by destruct s. Qed.

(* ================================================================= *)
(** ** The saved game *)

Ltac json_object :=
  cbn [JSON_roundtrip]; f_equal;
  rewrite ?fmap_insert, ?fmap_empty; cbn [is_undefined];
  rewrite ?omap_insert, ?omap_empty; cbn [JSON_roundtrip].

Lemma JSON_roundtrip_transaction (t : Transaction) :
  isFinite (createdAt t) = true -> isFinite (amount t) = true ->
  JSON_roundtrip (encode_transaction t) = encode_transaction t.
Proof.
  intros H1 H2. unfold encode_transaction. json_object. by rewrite H1, H2.
Qed.

Lemma JSON_roundtrip_encode (s : GameState) :
  (forall k, isFinite (need_get k (needs s)) = true) ->
  finite_numbers s ->
  JSON_roundtrip (VObj (encode s)) = VObj (encode s).
Proof.
  intros Hn (Hm & Hd & Ha & Ht). unfold encode. json_object.
  rewrite Hm, Hd.
  unfold encode_needs, encode_accessories, encode_animals, encode_badges.
  rewrite ?fmap_insert, ?fmap_empty. cbn [is_undefined].
  rewrite ?omap_insert, ?omap_empty. cbn [JSON_roundtrip].
  pose proof (Hn Hunger) as N1. pose proof (Hn Thirst) as N2.
  pose proof (Hn Health) as N3. pose proof (Hn Fun) as N4.
  pose proof (Hn Sleep) as N5. cbn [need_get] in *.
  pose proof (Ha Collar) as A1. pose proof (Ha Leash) as A2.
  pose proof (Ha Headband) as A3. cbn [accessory_get] in *.
  rewrite N1, N2, N3, N4, N5, A1, A2, A3.
  do 10 f_equal. rewrite <- list_fmap_compose.
  apply Forall_fmap_ext. eapply Forall_impl; [exact Ht|].
  intros t [H1 H2]. cbn [compose].
  rewrite JSON_roundtrip_transaction by done. reflexivity.
Qed.

Lemma committed_needs_finite (s : GameState) (k : NeedId) :
  committed s -> isFinite (need_get k (needs s)) = true.
Proof.
  intros Hc. rewrite <- (committed_needs _ Hc), need_get_clampNeeds.
  by destruct (clampNeed_range (need_get k (needs s))) as (z & _ & ->).
Qed.

Lemma saved_game_money (s : GameState) :
  prop (saved_game s) "money"
  = if isFinite (money s) then VNum (money s) else VNull.
Proof.
  unfold saved_game, encode. cbn [JSON_roundtrip own_props]. apply prop_Some.
  rewrite lookup_omap, lookup_fmap.
  rewrite lookup_insert_ne by done. rewrite lookup_insert_eq.
  cbn. by destruct (isFinite (money s)).
Qed.

(** X1.  A state the store holds survives a reload when its numbers are
    finite: what [JSON.parse] reads back is the object that was saved, the
    normalizer leaves it alone, and the initialiser, run on that state,
    gives the same state back.  A balance of [Infinity] does not survive:
    it is saved as [null], and the reloaded balance is 0. *)
Theorem X1_reload_held_state (ToNumber : Value -> num) (w : World) :
  Held w ->
  (finite_numbers (state w) ->
     saved_game (state w) = encode (state w)
     /\ Raw.normalize ToNumber (saved_game (state w)) = encode (state w)
     /\ boot (Some (state w)) = state w)
  /\ (money (state w) = PInf ->
      prop (saved_game (state w)) "money" = VNull
      /\ prop (Raw.normalize ToNumber (saved_game (state w))) "money"
         = VNum (int 0)).
Proof.
  intros Hw. assert (Hc := Held_committed _ Hw). split.
  - intros Hf.
    assert (saved_game (state w) = encode (state w)) as Hs.
    { unfold saved_game. rewrite JSON_roundtrip_encode; [done| |done].
      intros k. by apply committed_needs_finite. }
    split; [exact Hs|]. split.
    + rewrite Hs, raw_normalize_encode. f_equal. apply Hc.
    + by apply committed_with_badges.
  - intros Hm. assert (Hp := saved_game_money (state w)).
    rewrite Hm in Hp. cbn [isFinite] in Hp. split; [exact Hp|].
    apply prop_Some. rewrite raw_normalize_lookup.
    repeat (case_decide; [discriminate|]). case_decide; [|done].
    rewrite Hp. reflexivity.
Qed.

Lemma X1_reload_held_state_witness :
  Held (runs [SetNeed Hunger (int 30); ApplyMoneyDelta env0 (int 25) None]
          almost_complete)
  /\ finite_numbers
       (state (runs [SetNeed Hunger (int 30); ApplyMoneyDelta env0 (int 25) None]
                 almost_complete))
  /\ saved_game
       (state (runs [SetNeed Hunger (int 30); ApplyMoneyDelta env0 (int 25) None]
                 almost_complete))
     = encode
         (state (runs [SetNeed Hunger (int 30); ApplyMoneyDelta env0 (int 25) None]
                   almost_complete))
  /\ money (state (applyMoneyDelta env0 PInf None fresh)) = PInf
  /\ prop (Raw.normalize (fun _ => NaN)
             (saved_game (state (applyMoneyDelta env0 PInf None fresh)))) "money"
     = VNum (int 0).
Proof.
  assert (Held (runs [SetNeed Hunger (int 30); ApplyMoneyDelta env0 (int 25) None]
                  almost_complete)) as H.
  { apply (runs_ind Held); [apply Held_boot | intros; by apply Held_run]. }
  assert (finite_numbers
            (state (runs [SetNeed Hunger (int 30);
                          ApplyMoneyDelta env0 (int 25) None] almost_complete)))
    as Hf.
  { split; [reflexivity|]. split; [reflexivity|].
    split; [by intros []|]. by repeat constructor. }
  split; [exact H|]. split; [exact Hf|].
  destruct (X1_reload_held_state (fun _ => NaN) _ H) as [H1 _].
  destruct (H1 Hf) as (Hs & _). split; [exact Hs|].
  split; [reflexivity|].
  destruct (X1_reload_held_state (fun _ => NaN) (applyMoneyDelta env0 PInf None fresh))
    as [_ H2]; [apply (Held_run (ApplyMoneyDelta env0 PInf None)), Held_boot|].
  by destruct (H2 eq_refl).
Defined.

(** X2.  In every state the store holds, whatever saved game it booted on
    and whatever calls followed, each of the five needs is an integer in
    [0,100]. *)
Theorem X2_needs_always_in_range (w : World) (k : NeedId) :
  Held w ->
  exists z : Z, 0 <= z <= 100 /\ need_get k (needs (state w)) = int z.
Proof.
  intros Hw. rewrite <- (committed_needs _ (Held_committed _ Hw)).
  rewrite need_get_clampNeeds. apply clampNeed_range.
Qed.

Lemma X2_needs_always_in_range_witness :
  Held (runs [BumpNeed Fun (Fin (7 # 2)); SetNeed Thirst NaN] fresh)
  /\ exists z : Z, 0 <= z <= 100
       /\ need_get Fun
            (needs (state (runs [BumpNeed Fun (Fin (7 # 2)); SetNeed Thirst NaN]
                             fresh))) = int z.
Proof.
  assert (Held (runs [BumpNeed Fun (Fin (7 # 2)); SetNeed Thirst NaN] fresh)) as H.
  { apply (runs_ind Held); [apply Held_boot | intros; by apply Held_run]. }
  split; [exact H | apply (X2_needs_always_in_range _ Fun H)].
Defined.

Lemma run_money (op : Op) (w : World) :
  committed (state w) -> money (state (run op w)) = money_after op w.
Proof.
  intros Hw. assert (Hm := committed_money _ Hw).
  destruct op; cbn [run money_after]; try done.
  - unfold setEquippedAccessory. by destruct (equipped && _).
  - unfold setNeed.
    destruct (negb _ && _);
      [change (floor0 (floor0 (money (state w))) = money (state w))
      |change (floor0 (money (state w)) = money (state w))];
      by rewrite !Hm.
  - unfold bumpNeed, setNeed.
    destruct (negb _ && _);
      [change (floor0 (floor0 (money (state w))) = money (state w))
      |change (floor0 (money (state w)) = money (state w))];
      by rewrite !Hm.
  - unfold addOwnedAccessory. by destruct (num_le _ (int 0)).
  - unfold purchasePremiumPet. fold (price_of cost).
    destruct (animal_get _ _); [done|]. by destruct (num_lt _ _).
Qed.

Lemma price_of_cases (cost : num) :
  price_of cost = NaN \/ price_of cost = PInf
  \/ exists z : Z, 0 <= z /\ price_of cost = int z.
Proof.
  unfold price_of. destruct cost as [| | |q].
  - by left.
  - right; right. exists 0. by split.
  - right; by left.
  - right; right. cbn [Math_round]. rewrite Math_max_int.
    eexists. split; [|reflexivity]. lia.
Qed.

Lemma sub_floor0_whole (m p : num) :
  whole_or_infinite m ->
  p = NaN \/ p = PInf \/ (exists z : Z, 0 <= z /\ p = int z) ->
  whole_or_infinite (floor0 (Math_max (int 0) (num_sub m p))).
Proof.
  intros [(a & Ha & ->) | ->] [-> | [-> | (b & Hb & ->)]];
    try (left; exists 0; by split); try by right.
  left. rewrite num_sub_int, Math_max_int, floor0_int.
  eexists. split; [|reflexivity]. lia.
Qed.

Lemma FromDefault_money (w : World) :
  FromDefault w -> whole_or_infinite (money (state w)).
Proof.
  induction 1 as [ages | op w Hw IH].
  - left. exists 0. by split.
  - rewrite run_money by by apply Held_committed, FromDefault_Held.
    destruct op; cbn [money_after]; try done.
    + apply round_floor0_whole.
    + destruct (_ || _); [done|]. apply sub_floor0_whole; [done|].
      apply price_of_cases.
Qed.

(** X3.  Among the mutators only [applyMoneyDelta] and a
    [purchasePremiumPet] that goes through change the balance; every other
    call, [addTransaction] included, and a purchase that returns at a
    guard, leaves [money] as it is.  Of the two that write it, on a whole
    balance of at most 2^53: [applyMoneyDelta] of a whole delta leaves the
    sum floored at 0, and a purchase that goes through leaves the balance
    minus the price. *)
Theorem X3_money_written_by_two_mutators (op : Op) (w : World) :
  Held w ->
  match op with
  | ApplyMoneyDelta env delta meta =>
      forall m d : Z,
        money (state w) = int m -> delta = int d ->
        m <= 2 ^ 53 -> - 2 ^ 53 <= d <= 2 ^ 53 -> m + d <= 2 ^ 53 ->
        money (state (run op w)) = int (Z.max 0 (m + d))
  | PurchasePremiumPet env petId cost =>
      (animal_get petId (ownedPets (state w)) = true
       \/ num_lt (money (state w)) (price_of cost) = true ->
       money (state (run op w)) = money (state w))
      /\ (forall m p : Z,
            animal_get petId (ownedPets (state w)) = false ->
            money (state w) = int m -> price_of cost = int p ->
            p <= m <= 2 ^ 53 ->
            money (state (run op w)) = int (m - p))
  | _ => money (state (run op w)) = money (state w)
  end.
Proof.
  intros Hw. rewrite run_money by by apply Held_committed.
  destruct op; cbn [money_after]; try done.
  - intros m d -> -> _ _ _.
    rewrite num_add_int, Math_round_int, Math_max_int, floor0_int.
    f_equal. lia.
  - split.
    + intros [-> | ->]; [done|]. by rewrite orb_true_r.
    + intros m p -> -> -> [Hp _]. rewrite num_lt_int.
      destruct (Z.ltb_spec m p); [lia|]. cbn [orb].
      rewrite num_sub_int, Math_max_int, floor0_int. f_equal. lia.
Qed.

Lemma X3_money_written_by_two_mutators_witness :
  Held (with_balance (int 50))
  /\ money (state (run (AddTransaction env0 (mkTxInput expense (int 20) "c" "n"))
                     (with_balance (int 50)))) = int 50
  /\ money (state (run (ApplyMoneyDelta env0 (int (-20)) None)
                     (with_balance (int 50)))) = int 30
  /\ money (state (run (PurchasePremiumPet env0 Dragon (int 40))
                     (with_balance (int 50)))) = int 10.
Proof.
  split; [apply Held_boot|]. split; [|split].
  - apply (X3_money_written_by_two_mutators
             (AddTransaction env0 (mkTxInput expense (int 20) "c" "n"))
             (with_balance (int 50)) (Held_boot _ _)).
  - apply (X3_money_written_by_two_mutators
             (ApplyMoneyDelta env0 (int (-20)) None)
             (with_balance (int 50)) (Held_boot _ _) 50 (-20));
      [reflexivity | reflexivity | lia | lia | lia].
  - destruct (X3_money_written_by_two_mutators
                (PurchasePremiumPet env0 Dragon (int 40))
                (with_balance (int 50)) (Held_boot _ _)) as [_ H].
    apply (H 50 40); [reflexivity | reflexivity | reflexivity | lia].
Defined.

(** X4.  The balance is never negative and never [NaN] in a state the
    store holds; in every state reached from the default state it is a
    non-negative integer or [Infinity]. *)
Theorem X4_money_never_negative :
  (forall w, Held w -> num_ge (money (state w)) (int 0) = true)
  /\ (forall w, FromDefault w -> whole_or_infinite (money (state w))).
Proof.
  split; [|apply FromDefault_money].
  intros w Hw. by apply floor0_fix_nonneg, committed_money, Held_committed.
Qed.

Lemma X4_money_never_negative_witness :
  Held (run (ApplyMoneyDelta env0 (int (-80)) None) (with_balance (Fin (101 # 2))))
  /\ num_ge (money (state (run (ApplyMoneyDelta env0 (int (-80)) None)
                             (with_balance (Fin (101 # 2)))))) (int 0) = true
  /\ whole_or_infinite
       (money (state (runs [ApplyMoneyDelta env0 (Fin (5 # 2)) None;
                            PurchasePremiumPet env0 Panda NaN] fresh))).
Proof.
  destruct X4_money_never_negative as [H1 H2].
  assert (Held (run (ApplyMoneyDelta env0 (int (-80)) None)
                  (with_balance (Fin (101 # 2))))) as H
    by apply Held_run, Held_boot.
  split; [exact H|]. split; [apply (H1 _ H)|].
  apply H2, runs_FromDefault.
Defined.

(** X5.  No call makes the log longer than 250 entries unless it already
    was: after every mutator the length is at most the larger of 250 and
    the length before, and in every state reached from the default state,
    by whatever mix of calls, it is at most 250. *)
Theorem X5_log_never_exceeds_cap :
  (forall op w,
      (length (transactions (state (run op w)))
       <= Nat.max 250 (length (transactions (state w))))%nat)
  /\ (forall w, FromDefault w ->
        (length (transactions (state w)) <= 250)%nat).
Proof.
  assert (forall op w,
             (length (transactions (state (run op w)))
              <= Nat.max 250 (length (transactions (state w))))%nat) as Hstep.
  { intros op w. rewrite run_transactions.
    destruct op; cbn [log_after]; try lia; try (rewrite length_take; lia).
    destruct (_ || _); [lia | rewrite length_take; lia]. }
  split; [exact Hstep|].
  induction 1 as [ages | op w _ IH]; [simpl; lia|].
  specialize (Hstep op w). lia.
Qed.

Lemma X5_log_never_exceeds_cap_witness :
  FromDefault (runs (replicate 300 (ApplyMoneyDelta env0 (int 1) None)) fresh)
  /\ (length (transactions
                (state (runs (replicate 300 (ApplyMoneyDelta env0 (int 1) None))
                          fresh))) <= 250)%nat.
Proof.
  destruct X5_log_never_exceeds_cap as [_ H].
  split; [apply runs_FromDefault | apply H, runs_FromDefault].
Defined.

Lemma run_ownedPets (op : Op) (w : World) :
  ownedPets (state (run op w)) = ownedPets_after op w.
Proof.
  destruct op; cbn [run ownedPets_after]; try reflexivity.
  - unfold setEquippedAccessory. by destruct (equipped && _).
  - unfold setNeed. by destruct (negb _ && _).
  - unfold bumpNeed, setNeed. by destruct (negb _ && _).
  - unfold addOwnedAccessory. by destruct (num_le _ (int 0)).
  - unfold purchasePremiumPet. fold (price_of cost).
    destruct (animal_get _ _); [done|]. by destruct (num_lt _ _).
Qed.

Lemma run_keeps_owned (op : Op) (w : World) (a : AnimalId) :
  animal_get a (ownedPets (state w)) = true ->
  animal_get a (ownedPets (state (run op w))) = true.
Proof.
  intros Ha. rewrite run_ownedPets.
  destruct op; cbn [ownedPets_after]; try done.
  destruct (_ || _); [done|].
  destruct (decide (petId = a)) as [-> | Hne].
  - apply animal_get_set_eq.
  - by rewrite animal_get_set_ne.
Qed.

Lemma FromDefault_free_pets (w : World) (a : AnimalId) :
  FromDefault w -> free_pet a = true ->
  animal_get a (ownedPets (state w)) = true.
Proof.
  intros Hw Ha. induction Hw as [ages | op w _ IH].
  - by destruct a.
  - by apply run_keeps_owned.
Qed.

(** X6.  Ownership of a pet is never lost: only a [purchasePremiumPet]
    that goes through writes [ownedPets], and it only marks its pet owned;
    so the five free pets are owned in every state reached from the default
    state. *)
Theorem X6_pets_stay_owned :
  (forall op w, ownedPets (state (run op w)) = ownedPets_after op w)
  /\ (forall op w a,
        animal_get a (ownedPets (state w)) = true ->
        animal_get a (ownedPets (state (run op w))) = true)
  /\ (forall w a, FromDefault w -> free_pet a = true ->
        animal_get a (ownedPets (state w)) = true).
Proof.
  split; [apply run_ownedPets|].
  split; [apply run_keeps_owned | apply FromDefault_free_pets].
Qed.

Lemma X6_pets_stay_owned_witness :
  animal_get Dragon
    (ownedPets (state (runs [PurchasePremiumPet env0 Dragon (int 500);
                             ApplyMoneyDelta env0 (int (-500)) None;
                             SetSelectedPet Pig]
                         (with_balance (int 500))))) = true
  /\ animal_get Cat
       (ownedPets (state (runs [SetSelectedPet Dragon] fresh))) = true.
Proof.
  destruct X6_pets_stay_owned as (_ & H2 & H3).
  split.
  - apply (H2 (SetSelectedPet Pig)
             (runs [PurchasePremiumPet env0 Dragon (int 500);
                    ApplyMoneyDelta env0 (int (-500)) None]
                (with_balance (int 500))) Dragon).
    apply (H2 (ApplyMoneyDelta env0 (int (-500)) None)
             (runs [PurchasePremiumPet env0 Dragon (int 500)]
                (with_balance (int 500))) Dragon).
    reflexivity.
  - apply H3; [apply runs_FromDefault | reflexivity].
Defined.

(* ================================================================= *)
(** ** Pet ages *)

Lemma advanceDay_petAges (w : World) :
  petAges (advanceDayBecauseNeedsComplete w)
  = animal_set (animalId (state w))
      (Some (num_add (age_of (animalId (state w)) (petAges w)) (int 1)))
      (petAges w).
Proof. reflexivity. Qed.

Lemma setNeed_petAges need value (w : World) :
  petAges (setNeed need value w) = petAges_after (SetNeed need value) w.
Proof.
  unfold petAges_after, advances.
  destruct (crossing need value w) eqn:Hc.
  - by rewrite (setNeed_crossing _ _ _ Hc), advanceDay_petAges.
  - by rewrite (setNeed_no_crossing _ _ _ Hc).
Qed.

Lemma run_petAges (op : Op) (w : World) :
  petAges (run op w) = petAges_after op w.
Proof.
  destruct op; cbn [run]; try reflexivity.
  - unfold setEquippedAccessory. by destruct (equipped && _).
  - apply setNeed_petAges.
  - apply setNeed_petAges.
  - unfold addOwnedAccessory. by destruct (num_le _ (int 0)).
  - unfold purchasePremiumPet.
    destruct (animal_get _ _); [done|]. by destruct (num_lt _ _).
Qed.

(** X7.  The pet ages are written by the day-advance trigger only, and
    then only for the selected pet: no call changes the age of a pet that
    is not selected; a call that does not fire the trigger leaves all ages
    as they are; and a call that fires it takes the age of the selected pet
    from a whole number [n] below 2^53 (0 if it had none) to [n + 1].  (For
    [bumpNeed] the trigger is decided on [current + delta], given here on a
    state the store holds and for a whole, [NaN] or infinite [delta].) *)
Theorem X7_ages_written_by_trigger_only (op : Op) (w : World) :
  (forall a, a <> animalId (state w) ->
     animal_get a (petAges (run op w)) = animal_get a (petAges w))
  /\ (Held w -> whole_bump op -> advances op w = false ->
      petAges (run op w) = petAges w)
  /\ (Held w -> whole_bump op -> advances op w = true ->
      forall n : Z,
        0 <= n < 2 ^ 53 ->
        age_of (animalId (state w)) (petAges w) = int n ->
        age_of (animalId (state w)) (petAges (run op w)) = int (n + 1)).
Proof.
  rewrite run_petAges. unfold petAges_after. split; [|split].
  - intros a Ha. destruct (advances op w); [|done].
    by rewrite animal_get_set_ne.
  - by intros _ _ ->.
  - intros _ _ -> n _ Hn. unfold age_of at 1.
    rewrite animal_get_set_eq. cbn [default]. by rewrite Hn, num_add_int.
Qed.

Lemma X7_ages_written_by_trigger_only_witness :
  Held almost_complete
  /\ advances (SetNeed Sleep (int 100)) almost_complete = true
  /\ advances (BumpNeed Sleep (int (-5))) almost_complete = false
  /\ age_of Dog (petAges almost_complete) = int 0
  /\ age_of Dog (petAges (run (SetNeed Sleep (int 100)) almost_complete)) = int 1
  /\ animal_get Cat (petAges (run (SetNeed Sleep (int 100)) almost_complete))
     = None
  /\ petAges (run (BumpNeed Sleep (int (-5))) almost_complete) = no_ages.
Proof.
  pose proof (X7_ages_written_by_trigger_only (SetNeed Sleep (int 100))
                almost_complete) as (H1 & _ & H3).
  pose proof (X7_ages_written_by_trigger_only (BumpNeed Sleep (int (-5)))
                almost_complete) as (_ & H2 & _).
  assert (0 <= 0 < 2 ^ 53) as Hr by lia.
  split; [apply Held_boot|]. do 3 (split; [reflexivity|]).
  split; [apply (H3 (Held_boot _ _) I eq_refl 0 Hr eq_refl)|].
  split; [by rewrite (H1 Cat)|].
  rewrite H2; [reflexivity | apply Held_boot | right; by exists (-5) | reflexivity].
Defined.

Lemma total_age_ints (f : AnimalId -> Z) (ages : PetAges) :
  (forall a, age_of a ages = int (f a)) ->
  total_age ages
  = int (f Pig + f Dog + f Cat + f Fox + f Bunny + f Unicorn + f Snake
         + f Panda + f Dragon).
Proof.
  intros H. unfold total_age. by rewrite !H, !num_add_int.
Qed.

Lemma ages_add_up_step (op : Op) (w : World) :
  committed (state w) -> ages_add_up w -> ages_add_up (run op w).
Proof.
  intros Hc (f & Hf & Hd). unfold ages_add_up.
  rewrite run_petAges, run_daysPlayed by done. unfold petAges_after.
  destruct (advances op w); [|by exists f].
  generalize (animalId (state w)). intros cur.
  exists (fun a => if decide (a = cur) then f a + 1 else f a). split.
  - intros a. destruct (decide (a = cur)) as [-> | Hne].
    + unfold age_of at 1. rewrite animal_get_set_eq.
      destruct (Hf cur) as [H0 ->]. rewrite num_add_int. split; [lia|done].
    + unfold age_of at 1. rewrite animal_get_set_ne by done. apply Hf.
  - rewrite Hd, num_add_int. f_equal.
    destruct cur; repeat case_decide; try congruence; lia.
Qed.

(** X8.  Starting from empty storage (no saved game, no saved ages), after
    any sequence of mutator calls the ages of the nine pets add up to
    [daysPlayed]: every day counted is a day in the age of the pet that was
    selected when it was completed. *)
Theorem X8_ages_add_up_to_days (ops : list Op) :
  exists n : Z, 0 <= n
    /\ daysPlayed (state (runs ops fresh)) = int n
    /\ total_age (petAges (runs ops fresh)) = int n.
Proof.
  assert (committed (state (runs ops fresh)) /\ ages_add_up (runs ops fresh))
    as (_ & f & Hf & Hd).
  { apply (runs_ind (fun w => committed (state w) /\ ages_add_up w)).
    - split; [apply boot_committed|]. exists (fun _ => 0).
      split; [intros a; split; [lia | destruct a; reflexivity] | reflexivity].
    - intros op w [Hc H]. split; [by apply run_committed|].
      by apply ages_add_up_step. }
  eexists. split; [|split; [exact Hd|]].
  - pose proof (fun a => proj1 (Hf a)) as H.
    pose proof (H Pig); pose proof (H Dog); pose proof (H Cat);
      pose proof (H Fox); pose proof (H Bunny); pose proof (H Unicorn);
      pose proof (H Snake); pose proof (H Panda); pose proof (H Dragon). lia.
  - apply total_age_ints. intros a. apply Hf.
Qed.

(* ================================================================= *)
(** ** Accessories, selection and needs, call by call *)

Lemma count_le_grow (c x : num) :
  num_ge c (int 0) = true -> num_lt (int 0) x = true ->
  num_le c (Math_max (int 0) (num_add c x)) = true.
Proof.
  unfold num_ge.
  destruct c, x; simpl; try done; intros Hc Hx;
    unfold Math_max; simpl; qhyps; qcases; simpl; qclose.
Qed.

Lemma count_le_refl (c : num) : num_ge c (int 0) = true -> num_le c c = true.
Proof.
  unfold num_ge. destruct c; simpl; try done. intros _. qclose.
Qed.

Lemma run_counts_grow (op : Op) (w : World) (a : AccessoryId) :
  counts_nonneg (state w) ->
  num_le (accessory_get a (ownedAccessories (state w)))
    (accessory_get a (ownedAccessories (state (run op w)))) = true.
Proof.
  intros Hn. assert (Hr := count_le_refl _ (Hn a)).
  destruct op; cbn [run]; try done.
  - unfold setEquippedAccessory. by destruct (equipped && _).
  - by destruct (setNeed_accessories need value w) as [-> _].
  - unfold bumpNeed.
    by destruct (setNeed_accessories need
                   (num_add (need_get need (needs (state w))) delta) w)
      as [-> _].
  - unfold addOwnedAccessory.
    destruct (num_le _ (int 0)) eqn:Hadd; [done|].
    apply add_positive in Hadd. rewrite persist_ownedAccessories.
    cbn [with_ownedAccessories ownedAccessories].
    destruct (decide (accessory = a)) as [<- | Hne].
    + rewrite accessory_get_set_eq. by apply count_le_grow.
    + by rewrite accessory_get_set_ne.
  - unfold purchasePremiumPet.
    destruct (animal_get _ _); [done|]. by destruct (num_lt _ _).
Qed.

(** X9.  Accessories are never used up: in every state reached from the
    default state each owned count is a number at or above 0, and no
    mutator call lowers any of them. *)
Theorem X9_counts_never_decrease (op : Op) (w : World) (a : AccessoryId) :
  FromDefault w ->
  num_ge (accessory_get a (ownedAccessories (state w))) (int 0) = true
  /\ num_le (accessory_get a (ownedAccessories (state w)))
       (accessory_get a (ownedAccessories (state (run op w)))) = true.
Proof.
  intros Hw. destruct (FromDefault_equip_invariant _ Hw) as [Hn _].
  split; [apply Hn | by apply run_counts_grow].
Qed.

Lemma X9_counts_never_decrease_witness :
  FromDefault (run (AddOwnedAccessory Leash (Some (int 3))) fresh)
  /\ num_le (accessory_get Leash
               (ownedAccessories
                  (state (run (AddOwnedAccessory Leash (Some (int 3))) fresh))))
       (accessory_get Leash
          (ownedAccessories
             (state (run (AddOwnedAccessory Leash (Some (int (-2))))
                       (run (AddOwnedAccessory Leash (Some (int 3))) fresh)))))
     = true.
Proof.
  assert (FromDefault (run (AddOwnedAccessory Leash (Some (int 3))) fresh)) as H
    by apply FromDefault_run, FromDefault_boot.
  split; [exact H|].
  apply (X9_counts_never_decrease (AddOwnedAccessory Leash (Some (int (-2))))
           _ Leash H).
Defined.

(** X10.  [setSelectedPet] changes [animalId] and nothing else in a state
    the store holds, and it does so whether or not the pet is owned: the
    store has no ownership check on selection. *)
Theorem X10_setSelectedPet_only_selects (a : AnimalId) (w : World) :
  Held w ->
  setSelectedPet a w
  = {| state := with_animalId a (state w); petAges := petAges w |}.
Proof.
  intros Hw. assert (Hc := Held_committed _ Hw).
  unfold setSelectedPet.
  transitivity {| state := state (persist (with_animalId a (state w)) w);
                  petAges := petAges w |}; [reflexivity|].
  rewrite (persist_frame (state w)) by done.
  cbn [with_animalId money]. rewrite (committed_money _ Hc). by destruct w as [[]].
Qed.

Lemma X10_setSelectedPet_only_selects_witness :
  Held fresh
  /\ animal_get Dragon (ownedPets (state fresh)) = false
  /\ animalId (state (setSelectedPet Dragon fresh)) = Dragon
  /\ setSelectedPet Dragon fresh
     = {| state := with_animalId Dragon (state fresh); petAges := petAges fresh |}.
Proof.
  pose proof (X10_setSelectedPet_only_selects Dragon fresh (Held_boot _ _)) as H.
  split; [apply Held_boot|]. split; [reflexivity|].
  split; [by rewrite H | exact H].
Defined.

Lemma Qfloor_lt_1 (q : Q) : (q < 1)%Q -> Qfloor q <= 0.
Proof.
  intros Hq. assert (H := Qfloor_le q).
  assert (inject_Z (Qfloor q) < inject_Z 1)%Q as Hlt
    by (change (inject_Z 1) with 1%Q; lra).
  rewrite <- Zlt_Qlt in Hlt. lia.
Qed.

Lemma Qfloor_ge_1 (q : Q) : (1 <= q)%Q -> 1 <= Qfloor q.
Proof.
  intros Hq. rewrite <- (Qfloor_Z 1). by apply Qfloor_resp_le.
Qed.

Lemma add_of_count_small (q : Q) :
  (q < 1)%Q ->
  Math_max (int 0) (Math_floor (num_or (Fin q) (int 0))) = int 0.
Proof.
  intros Hq. unfold num_or, truthy. destruct (negb _).
  - cbn [Math_floor]. rewrite Math_max_int. f_equal.
    pose proof (Qfloor_lt_1 q Hq). lia.
  - reflexivity.
Qed.

Lemma add_of_count_large (q : Q) :
  (1 <= q)%Q ->
  Math_max (int 0) (Math_floor (num_or (Fin q) (int 0))) = int (Qfloor q).
Proof.
  intros Hq. unfold num_or, truthy.
  destruct (Qeq_bool q 0) eqn:E.
  - apply Qeq_bool_iff in E. exfalso. lra.
  - cbn [negb Math_floor]. rewrite Math_max_int. f_equal.
    pose proof (Qfloor_ge_1 q Hq). lia.
Qed.

Lemma addOwnedAccessory_whole (a : AccessoryId) (q : Q) (n : Z) (w : World) :
  (1 <= q)%Q -> 0 <= n ->
  accessory_get a (ownedAccessories (state w)) = int n ->
  accessory_get a
    (ownedAccessories (state (addOwnedAccessory a (Some (Fin q)) w)))
  = int (n + Qfloor q)
  /\ forall a', a <> a' ->
       accessory_get a'
         (ownedAccessories (state (addOwnedAccessory a (Some (Fin q)) w)))
       = accessory_get a' (ownedAccessories (state w)).
Proof.
  intros Hq Hn Hown. unfold addOwnedAccessory. cbv zeta.
  change (default (int 1) (Some (Fin q))) with (Fin q).
  rewrite add_of_count_large by done.
  pose proof (Qfloor_ge_1 q Hq).
  rewrite num_le_int. destruct (Z.leb_spec (Qfloor q) 0); [lia|].
  rewrite persist_ownedAccessories.
  cbn [with_ownedAccessories ownedAccessories]. split.
  - rewrite accessory_get_set_eq, Hown, num_add_int, Math_max_int.
    f_equal. lia.
  - intros a' Hne. by rewrite accessory_get_set_ne.
Qed.

(** X11.  [addOwnedAccessory(id, count)] adds the whole part of [count]:
    a count below 1 (zero, negative, a fraction), [NaN] or [-Infinity]
    leaves the state unchanged; an omitted count is 1; and a count [q >= 1]
    on a whole owned count [n >= 0] makes it [n + floor q], as long as that
    is at most 2^53, leaving the counts of the other accessories as they
    are. *)
Theorem X11_addOwnedAccessory_adds_floor (a : AccessoryId) (w : World) :
  (forall q, (q < 1)%Q -> addOwnedAccessory a (Some (Fin q)) w = w)
  /\ addOwnedAccessory a (Some NaN) w = w
  /\ addOwnedAccessory a (Some NInf) w = w
  /\ addOwnedAccessory a None w = addOwnedAccessory a (Some (int 1)) w
  /\ (forall q n,
        (1 <= q)%Q -> 0 <= n -> n + Qfloor q <= 2 ^ 53 ->
        accessory_get a (ownedAccessories (state w)) = int n ->
        accessory_get a
          (ownedAccessories (state (addOwnedAccessory a (Some (Fin q)) w)))
        = int (n + Qfloor q)
        /\ forall a', a <> a' ->
             accessory_get a'
               (ownedAccessories (state (addOwnedAccessory a (Some (Fin q)) w)))
             = accessory_get a' (ownedAccessories (state w))).
Proof.
  split; [|split; [reflexivity|split; [reflexivity|split; [reflexivity|]]]].
  - intros q Hq. unfold addOwnedAccessory. cbv zeta.
    change (default (int 1) (Some (Fin q))) with (Fin q).
    by rewrite add_of_count_small.
  - intros q n Hq Hn _ Hown. by apply addOwnedAccessory_whole.
Qed.

Lemma X11_addOwnedAccessory_adds_floor_witness :
  addOwnedAccessory Collar (Some (Fin (9 # 10))) fresh = fresh
  /\ accessory_get Collar
       (ownedAccessories (state (addOwnedAccessory Collar (Some (Fin (27 # 10)))
                                   fresh))) = int 2.
Proof.
  pose proof (X11_addOwnedAccessory_adds_floor Collar fresh) as (H1 & _ & _ & _ & H5).
  split; [by apply H1|].
  destruct (H5 (27 # 10)%Q 0) as [-> _];
    [discriminate | lia | vm_compute; discriminate | reflexivity|].
  reflexivity.
Defined.

Lemma clampNeeds_need_set (k : NeedId) (v : num) (n : Needs) :
  clampNeeds (need_set k v n) = need_set k (clampNeed v) (clampNeeds n).
Proof. by destruct k. Qed.

Lemma setNeed_needs_held need value (w : World) :
  committed (state w) -> crossing need value w = false ->
  needs (state (setNeed need value w))
  = need_set need (clampNeed value) (needs (state w)).
Proof.
  intros Hc Hx. rewrite setNeed_needs, Hx, clampNeeds_need_set.
  by rewrite (committed_needs _ Hc).
Qed.

(** A need that ends at 0 completes nothing. *)
Lemma zero_not_crossing (k : NeedId) (v : num) (w : World) :
  clampNeed v = int 0 -> crossing k v w = false.
Proof.
  intros Hv. unfold crossing, nextComplete.
  destruct (allNeedsComplete (clampNeeds _)) eqn:E; [|apply andb_false_r].
  rewrite allNeedsComplete_spec in E. specialize (E k).
  rewrite need_get_clampNeeds, need_get_set_eq, Hv in E. discriminate.
Qed.

Lemma num_add_not_finite (c delta : num) :
  isFinite delta = false -> isFinite (num_add c delta) = false.
Proof. by destruct c, delta. Qed.

(** X12.  [bumpNeed(need, delta)] is a saturating addition: on a state the
    store holds, where the need is a whole number [c], a whole [delta] that
    does not complete the day leaves [min 100 (max 0 (c + delta))] in that
    need and the other four as they are; a [delta] that is [NaN] or
    infinite, of either sign, empties the need to 0. *)
Theorem X12_bumpNeed_saturates (k : NeedId) (c : Z) (w : World) :
  Held w -> need_get k (needs (state w)) = int c ->
  (forall d : Z,
      advances (BumpNeed k (int d)) w = false ->
      needs (state (bumpNeed k (int d) w))
      = need_set k (int (Z.max 0 (Z.min 100 (c + d)))) (needs (state w)))
  /\ (forall delta,
        isFinite delta = false ->
        needs (state (bumpNeed k delta w))
        = need_set k (int 0) (needs (state w))).
Proof.
  intros Hw Hk. assert (Hc := Held_committed _ Hw). split.
  - intros d Hx. unfold bumpNeed. cbn [advances] in Hx.
    rewrite setNeed_needs_held by done. f_equal.
    rewrite Hk, num_add_int.
    destruct (Z.le_gt_cases (c + d) 100).
    + destruct (Z.le_gt_cases 0 (c + d)).
      * rewrite clampNeed_int by lia. f_equal. lia.
      * unfold int at 1. rewrite clampNeed_below.
        -- f_equal. lia.
        -- change 0%Q with (inject_Z 0). by rewrite <- Zlt_Qlt.
    + unfold int at 1. rewrite clampNeed_above.
      * f_equal. lia.
      * change 100%Q with (inject_Z 100). by rewrite <- Zlt_Qlt.
  - intros delta Hd. unfold bumpNeed.
    assert (clampNeed (num_add (need_get k (needs (state w))) delta) = int 0) as E
      by by apply clampNeed_not_finite, num_add_not_finite.
    rewrite setNeed_needs_held; [by rewrite E | done | by apply zero_not_crossing].
Qed.

Lemma X12_bumpNeed_saturates_witness :
  Held almost_complete
  /\ needs (state (bumpNeed Hunger (int (-30)) almost_complete))
     = mkNeeds (int 70) (int 100) (int 100) (int 100) (int 99)
  /\ needs (state (bumpNeed Sleep (int (-500)) almost_complete))
     = mkNeeds (int 100) (int 100) (int 100) (int 100) (int 0)
  /\ needs (state (bumpNeed Sleep PInf almost_complete))
     = mkNeeds (int 100) (int 100) (int 100) (int 100) (int 0).
Proof.
  pose proof (X12_bumpNeed_saturates Hunger 100 almost_complete (Held_boot _ _)
                eq_refl) as [H1 _].
  pose proof (X12_bumpNeed_saturates Sleep 99 almost_complete (Held_boot _ _)
                eq_refl) as [H2 H3].
  split; [apply Held_boot|].
  split; [rewrite (H1 (-30) eq_refl); reflexivity|].
  split; [rewrite (H2 (-500) eq_refl); reflexivity|].
  rewrite (H3 PInf eq_refl). reflexivity.
Defined.

(* ================================================================= *)
(** ** Logged amounts *)

Lemma round_max_nonneg (x : num) :
  x <> NaN -> num_ge (Math_max (int 0) (Math_round x)) (int 0) = true.
Proof.
  destruct x as [| | |q]; try done. intros _.
  cbn [Math_round]. rewrite Math_max_int. unfold num_ge.
  rewrite num_le_int. lia.
Qed.

Lemma round_abs_nonneg (x : num) :
  x <> NaN -> num_ge (Math_abs (Math_round x)) (int 0) = true.
Proof.
  destruct x as [| | |q]; try done. intros _.
  cbn [Math_round]. rewrite Math_abs_int. unfold num_ge.
  rewrite num_le_int. lia.
Qed.

Lemma nonneg_not_negative (x : num) :
  num_ge x (int 0) = true -> num_lt x (int 0) = false.
Proof.
  unfold num_ge. destruct x; simpl; try done. intros H. qhyps.
  apply Qlt_bool_false_iff. done.
Qed.

Lemma round_max_not_negative (x : num) :
  num_lt (Math_max (int 0) (Math_round x)) (int 0) = false.
Proof.
  destruct x as [| | |q]; try done.
  by apply nonneg_not_negative, round_max_nonneg.
Qed.

Lemma round_abs_not_negative (x : num) :
  num_lt (Math_abs (Math_round x)) (int 0) = false.
Proof.
  destruct x as [| | |q]; try done.
  by apply nonneg_not_negative, round_abs_nonneg.
Qed.

Lemma run_amounts (P : Transaction -> Prop) (op : Op) (w : World) :
  (forall env tx, op = AddTransaction env tx -> P (new_transaction env tx)) ->
  (forall env d m, op = ApplyMoneyDelta env d m -> P (delta_record env d m)) ->
  (forall env p c, op = PurchasePremiumPet env p c -> P (purchase_record env p c)) ->
  Forall P (transactions (state w)) ->
  Forall P (transactions (state (run op w))).
Proof.
  intros H1 H2 H3 Hw. rewrite run_transactions.
  destruct op; cbn [log_after]; try done.
  - apply Forall_take. constructor; [by apply H1 | done].
  - apply Forall_take. constructor; [by apply H2 | done].
  - destruct (_ || _); [done|].
    apply Forall_take. constructor; [by apply H3 | done].
Qed.

Lemma runs_amount_not_negative (ops : list Op) :
  Forall amount_not_negative (transactions (state (runs ops fresh))).
Proof.
  apply (runs_ind (fun w => Forall amount_not_negative (transactions (state w))));
    [constructor|].
  intros op w Hw. apply run_amounts; [| | |done].
  - intros. apply round_max_not_negative.
  - intros. apply round_abs_not_negative.
  - intros. apply round_max_not_negative.
Qed.

Lemma runs_amount_nonneg (ops : list Op) :
  Forall number_args ops ->
  Forall amount_nonneg (transactions (state (runs ops fresh))).
Proof.
  assert (Forall amount_nonneg (transactions (state fresh))) as H0
    by constructor.
  revert H0. generalize fresh.
  induction ops as [|op ops IH]; intros w Hw Hops; [done|].
  inversion Hops as [|? ? Hop Hrest]; subst.
  apply IH; [|done]. apply run_amounts; [| | |done].
  - intros env tx ->. by apply round_max_nonneg.
  - intros env d m ->. by apply round_abs_nonneg.
  - intros env p c ->. by apply round_max_nonneg.
Qed.

(** X13.  No record the store logs has a negative amount: starting from
    empty storage, after any sequence of mutator calls every amount in the
    log fails [amount < 0]; and when no call was given [NaN] as its amount,
    delta or cost, every amount is a number at or above 0, expenses
    included. *)
Theorem X13_logged_amounts_not_negative (ops : list Op) :
  Forall amount_not_negative (transactions (state (runs ops fresh)))
  /\ (Forall number_args ops ->
      Forall amount_nonneg (transactions (state (runs ops fresh)))).
Proof.
  split; [apply runs_amount_not_negative | apply runs_amount_nonneg].
Qed.

Lemma X13_logged_amounts_not_negative_witness :
  Forall number_args [ApplyMoneyDelta env0 (int (-12)) None;
                      AddTransaction env0 (mkTxInput expense (int (-3)) "c" "n")]
  /\ Forall amount_nonneg
       (transactions
          (state (runs [ApplyMoneyDelta env0 (int (-12)) None;
                        AddTransaction env0 (mkTxInput expense (int (-3)) "c" "n")]
                    fresh)))
  /\ amount <$> transactions
       (state (runs [ApplyMoneyDelta env0 (int (-12)) None;
                     AddTransaction env0 (mkTxInput expense (int (-3)) "c" "n")]
                 fresh)) = [int 0; int 12].
Proof.
  assert (Forall number_args
            [ApplyMoneyDelta env0 (int (-12)) None;
             AddTransaction env0 (mkTxInput expense (int (-3)) "c" "n")]) as H
    by (repeat constructor; discriminate).
  split; [exact H|]. split; [|reflexivity].
  apply (proj2 (X13_logged_amounts_not_negative _) H).
Defined.

(* ================================================================= *)
(** ** Subscribers *)

Lemma Bus_indexOf_None (l : Bus.Listener) (ls : list Bus.Listener) :
  Bus.indexOf l ls = None <-> l ∉ ls.
Proof.
  induction ls as [|x ls IH]; simpl.
  - split; [intros _; apply not_elem_of_nil | done].
  - case_decide as Hx.
    + subst. split; [done|]. intros H. exfalso. apply H. left.
    + rewrite fmap_None, IH, not_elem_of_cons. split; [done|]. by intros [_ ?].
Qed.

Lemma Bus_indexOf_Some (l : Bus.Listener) (ls : list Bus.Listener) (i : nat) :
  Bus.indexOf l ls = Some i ->
  ls !! i = Some l /\ l ∉ take i ls.
Proof.
  revert i. induction ls as [|x ls IH]; intros i; simpl; [done|].
  case_decide as Hx.
  - intros [= <-]. subst. split; [done | apply not_elem_of_nil].
  - rewrite fmap_Some. intros (j & Hj & ->). destruct (IH _ Hj) as [H1 H2].
    split; [done|]. simpl. rewrite not_elem_of_cons. done.
Qed.

Lemma Bus_indexOf_app_fresh (l : Bus.Listener) (ls : list Bus.Listener) :
  l ∉ ls -> Bus.indexOf l (ls ++ [l]) = Some (length ls).
Proof.
  induction ls as [|x ls IH]; simpl; intros Hl.
  - by rewrite decide_True.
  - apply not_elem_of_cons in Hl as [Hne Hl].
    rewrite decide_False by done. by rewrite IH.
Qed.

Lemma delete_app_last {A} (ls : list A) (x : A) :
  delete (length ls) (ls ++ [x]) = ls.
Proof. induction ls as [|y ls IH]; simpl; [done | by rewrite IH]. Qed.

(** X14.  Subscribing appends the listener at the end of the list, even
    when it is registered already, and calls nobody; the returned function removes the first registration of that listener
    and nothing else.  So subscribing and then unsubscribing a listener that
    was not registered restores the store exactly; unsubscribing a listener
    that is not registered changes nothing; and otherwise exactly one
    registration goes while every other listener keeps its place in the
    notification order. *)
Theorem X14_subscribe_unsubscribe (l : Bus.Listener) (st : Bus.Store) :
  Bus.listeners (Bus.subscribeGameState l st) = Bus.listeners st ++ [l]
  /\ Bus.calls (Bus.subscribeGameState l st) = Bus.calls st
  /\ Bus.world (Bus.subscribeGameState l st) = Bus.world st
  /\ (l ∉ Bus.listeners st ->
      Bus.unsubscribe l (Bus.subscribeGameState l st) = st
      /\ Bus.unsubscribe l st = st)
  /\ (l ∈ Bus.listeners st ->
      exists before after,
        Bus.listeners st = before ++ l :: after
        /\ (l ∉ before)
        /\ Bus.listeners (Bus.unsubscribe l st) = before ++ after)
  /\ Bus.world (Bus.unsubscribe l st) = Bus.world st
  /\ Bus.calls (Bus.unsubscribe l st) = Bus.calls st.
Proof.
  split; [done|]. split; [done|]. split; [done|]. split; [|split; [|split]].
  - intros Hl. split.
    + unfold Bus.unsubscribe, Bus.subscribeGameState. cbn [Bus.listeners].
      rewrite Bus_indexOf_app_fresh by done. rewrite delete_app_last.
      by destruct st.
    + unfold Bus.unsubscribe. by rewrite (proj2 (Bus_indexOf_None _ _) Hl).
  - intros Hl. unfold Bus.unsubscribe.
    destruct (Bus.indexOf l (Bus.listeners st)) as [i|] eqn:Hi.
    + destruct (Bus_indexOf_Some _ _ _ Hi) as [H1 H2].
      exists (take i (Bus.listeners st)), (drop (S i) (Bus.listeners st)).
      split; [|split; [done|]].
      * by rewrite <- (take_drop_middle _ _ _ H1) at 1.
      * cbn [Bus.listeners]. apply delete_take_drop.
    + by apply Bus_indexOf_None in Hi.
  - unfold Bus.unsubscribe. by destruct (Bus.indexOf _ _).
  - unfold Bus.unsubscribe. by destruct (Bus.indexOf _ _).
Qed.

Lemma X14_subscribe_unsubscribe_witness :
  Bus.listeners (Bus.subscribeGameState 7%nat (Bus.mkStore fresh [7%nat; 3%nat] []))
  = [7%nat; 3%nat; 7%nat]
  /\ Bus.listeners
       (Bus.unsubscribe 7%nat
          (Bus.subscribeGameState 7%nat (Bus.mkStore fresh [7%nat; 3%nat] [])))
     = [3%nat; 7%nat]
  /\ Bus.unsubscribe 5%nat
       (Bus.subscribeGameState 5%nat (Bus.mkStore fresh [7%nat; 3%nat] []))
     = Bus.mkStore fresh [7%nat; 3%nat] [].
Proof.
  pose proof (X14_subscribe_unsubscribe 5%nat (Bus.mkStore fresh [7%nat; 3%nat] []))
    as (_ & _ & _ & H & _).
  pose proof (X14_subscribe_unsubscribe 7%nat (Bus.mkStore fresh [7%nat; 3%nat] []))
    as (Happ & _).
  split; [exact Happ|].
  split; [reflexivity|]. apply H. cbn [Bus.listeners].
  rewrite !not_elem_of_cons. repeat split; [lia | lia | apply not_elem_of_nil].
Defined.

Lemma Bus_persist_calls (raw : GameState) (st : Bus.Store) :
  Bus.calls (Bus.persist raw st)
  = Bus.calls st
    ++ Bus.round (Bus.listeners st) (state (persist raw (Bus.world st))).
Proof. reflexivity. Qed.

Lemma Bus_setNeed_world need value (st : Bus.Store) :
  Bus.world (Bus.setNeed need value st) = setNeed need value (Bus.world st)
  /\ Bus.listeners (Bus.setNeed need value st) = Bus.listeners st.
Proof. unfold Bus.setNeed, setNeed. by destruct (negb _ && _). Qed.

Lemma Bus_run_world (op : Op) (st : Bus.Store) :
  Bus.world (Bus.run op st) = run op (Bus.world st)
  /\ Bus.listeners (Bus.run op st) = Bus.listeners st.
Proof.
  destruct op; cbn [Bus.run run]; try done.
  - unfold Bus.setEquippedAccessory, setEquippedAccessory.
    by destruct (equipped && _).
  - apply Bus_setNeed_world.
  - apply Bus_setNeed_world.
  - unfold Bus.addOwnedAccessory, addOwnedAccessory.
    by destruct (num_le _ (int 0)).
  - unfold Bus.purchasePremiumPet, purchasePremiumPet.
    destruct (animal_get _ _); [done|]. by destruct (num_lt _ _).
Qed.

Lemma Bus_setNeed_calls need value (st : Bus.Store) :
  Bus.calls (Bus.setNeed need value st)
  = Bus.calls st
    ++ concat (Bus.round (Bus.listeners st)
               <$> (if crossing need value (Bus.world st)
                    then [state (persist
                                   (with_needs
                                      (clampNeeds
                                         (need_set need value
                                            (needs (state (Bus.world st)))))
                                      (state (Bus.world st))) (Bus.world st));
                          state (setNeed need value (Bus.world st))]
                    else [state (setNeed need value (Bus.world st))])).
Proof.
  destruct (crossing need value (Bus.world st)) eqn:Hc.
  - rewrite (setNeed_crossing _ _ _ Hc).
    unfold crossing, prevComplete, nextComplete in Hc.
    unfold Bus.setNeed. rewrite Hc.
    cbn [fmap list_fmap concat]. rewrite app_nil_r, app_assoc. reflexivity.
  - rewrite (setNeed_no_crossing _ _ _ Hc).
    unfold crossing, prevComplete, nextComplete in Hc.
    unfold Bus.setNeed. rewrite Hc.
    cbn [fmap list_fmap concat]. by rewrite app_nil_r.
Qed.

(** X15.  What the subscribers see of one mutator call.  The call commits
    zero, one or two states; each commit is delivered at once to every
    listener, in registration order.  With no commit the store is unchanged
    (a guard returned early, or [incrementDaysPlayed]).  Otherwise the last
    state delivered is the state the store holds after the call.  Two
    commits happen exactly on a rising edge of the needs: the listeners
    first receive the state with all five needs complete, then the state
    after the reset.  (On a state the store holds; for [bumpNeed] the edge
    is decided on [current + delta], given here for a whole, [NaN] or
    infinite [delta].) *)
Theorem X15_every_commit_is_delivered (op : Op) (st : Bus.Store) :
  Held (Bus.world st) -> whole_bump op ->
  Bus.world (Bus.run op st) = run op (Bus.world st)
  /\ Bus.listeners (Bus.run op st) = Bus.listeners st
  /\ exists commits : list GameState,
       Bus.calls (Bus.run op st)
       = Bus.calls st ++ concat (Bus.round (Bus.listeners st) <$> commits)
       /\ (commits = [] -> run op (Bus.world st) = Bus.world st)
       /\ (forall s, last commits = Some s ->
             s = state (run op (Bus.world st)))
       /\ (advances op (Bus.world st) = false -> (length commits <= 1)%nat)
       /\ (advances op (Bus.world st) = true ->
           exists s1, commits = [s1; state (run op (Bus.world st))]
                      /\ allNeedsComplete (needs s1) = true).
Proof.
  intros _ _.
  split; [apply Bus_run_world|]. split; [apply Bus_run_world|].
  assert (forall raw, exists commits : list GameState,
             Bus.calls (Bus.persist raw st)
             = Bus.calls st ++ concat (Bus.round (Bus.listeners st) <$> commits)
             /\ (commits = [] -> persist raw (Bus.world st) = Bus.world st)
             /\ (forall s, last commits = Some s ->
                   s = state (persist raw (Bus.world st)))
             /\ (false = false -> (length commits <= 1)%nat)
             /\ (false = true ->
                 exists s1, commits = [s1; state (persist raw (Bus.world st))]
                            /\ allNeedsComplete (needs s1) = true)) as Hone.
  { intros raw. exists [state (persist raw (Bus.world st))].
    rewrite Bus_persist_calls. cbn [fmap list_fmap concat]. rewrite app_nil_r.
    split; [done|]. split; [done|]. split; [by intros s [= <-]|].
    split; [simpl; lia | done]. }
  assert (exists commits : list GameState,
             Bus.calls st
             = Bus.calls st ++ concat (Bus.round (Bus.listeners st) <$> commits)
             /\ (commits = [] -> Bus.world st = Bus.world st)
             /\ (forall s, last commits = Some s -> s = state (Bus.world st))
             /\ (false = false -> (length commits <= 1)%nat)
             /\ (false = true ->
                 exists s1, commits = [s1; state (Bus.world st)]
                            /\ allNeedsComplete (needs s1) = true)) as Hnone.
  { exists []. cbn [fmap list_fmap concat]. rewrite app_nil_r.
    split; [done|]. split; [done|]. split; [done|]. split; [simpl; lia | done]. }
  assert (forall need value, exists commits : list GameState,
             Bus.calls (Bus.setNeed need value st)
             = Bus.calls st ++ concat (Bus.round (Bus.listeners st) <$> commits)
             /\ (commits = [] -> setNeed need value (Bus.world st) = Bus.world st)
             /\ (forall s, last commits = Some s ->
                   s = state (setNeed need value (Bus.world st)))
             /\ (crossing need value (Bus.world st) = false ->
                 (length commits <= 1)%nat)
             /\ (crossing need value (Bus.world st) = true ->
                 exists s1,
                   commits = [s1; state (setNeed need value (Bus.world st))]
                   /\ allNeedsComplete (needs s1) = true)) as Hneed.
  { intros need value. eexists. split; [apply Bus_setNeed_calls|].
    destruct (crossing need value (Bus.world st)) eqn:Hc.
    - split; [done|]. split; [by intros s [= <-]|]. split; [done|].
      intros _. eexists. split; [reflexivity|].
      rewrite persist_needs. cbn [with_needs needs]. rewrite clampNeeds_idem.
      unfold crossing in Hc. apply andb_true_iff in Hc as [_ Hc]. exact Hc.
    - split; [done|]. split; [by intros s [= <-]|].
      split; [simpl; lia | done]. }
  destruct op; cbn [Bus.run run advances].
  - apply Hone.
  - unfold Bus.setEquippedAccessory, setEquippedAccessory.
    destruct (equipped && _); [apply Hnone | apply Hone].
  - apply Hone.
  - apply Hone.
  - apply Hneed.
  - apply Hneed.
  - apply Hnone.
  - unfold Bus.addOwnedAccessory, addOwnedAccessory.
    destruct (num_le _ (int 0)); [apply Hnone | apply Hone].
  - unfold Bus.purchasePremiumPet, purchasePremiumPet.
    destruct (animal_get _ _); [apply Hnone|].
    destruct (num_lt _ _); [apply Hnone | apply Hone].
Qed.

Lemma X15_every_commit_is_delivered_witness :
  Held almost_complete
  /\ advances (BumpNeed Sleep (int 1)) almost_complete = true
  /\ Bus.received 4%nat
       (Bus.run (BumpNeed Sleep (int 1))
          (Bus.mkStore almost_complete [4%nat; 9%nat] []))
     = [ with_needs (mkNeeds (int 100) (int 100) (int 100) (int 100) (int 100))
           (state almost_complete);
         state (run (BumpNeed Sleep (int 1)) almost_complete) ]
  /\ fst <$> Bus.calls
               (Bus.run (BumpNeed Sleep (int 1))
                  (Bus.mkStore almost_complete [4%nat; 9%nat] []))
     = [4%nat; 9%nat; 4%nat; 9%nat].
Proof.
  destruct (X15_every_commit_is_delivered (BumpNeed Sleep (int 1))
              (Bus.mkStore almost_complete [4%nat; 9%nat] []))
    as (_ & _ & commits & Hcalls & _ & _ & _ & Htwo);
    [apply Held_boot | right; by exists 1 |].
  destruct (Htwo eq_refl) as (s1 & -> & _).
  split; [apply Held_boot|]. split; [reflexivity|]. split; [reflexivity|].
  rewrite Hcalls. reflexivity.
Defined.

(* ================================================================= *)
(** ** The Transactions page on the store's log *)

Section TranPage.

Variable toLowerCase : string -> string.
Variable ToString : Value -> string.
Variable formatLocal : num -> string.

#[local] Abbreviation negativePurchases :=
  (Tran.negativePurchases toLowerCase ToString).
#[local] Abbreviation tableRows :=
  (Tran.tableRows ToString formatLocal).
#[local] Abbreviation rows_from :=
  (Tran.rows_from ToString formatLocal).

Lemma page_log_encode (s : GameState) :
  page_log s = encode_transaction <$> transactions s.
Proof. reflexivity. Qed.

Lemma getDelta_encode (t : Transaction) :
  Tran.getDelta (encode_transaction t) = amount t.
Proof. reflexivity. Qed.

Lemma getTs_encode (t : Transaction) :
  Tran.getTs (encode_transaction t) = int 0.
Proof. reflexivity. Qed.

Lemma negative_step_skip acc (entry : Value) :
  num_ge (Tran.getDelta entry) (int 0) = true ->
  Tran.negative_step toLowerCase ToString acc entry = acc.
Proof.
  intros H. unfold Tran.negative_step. destruct acc as [[[a b] c] d].
  by rewrite H.
Qed.

Lemma negativePurchases_no_negative (log : list Value) :
  Forall (fun e => num_ge (Tran.getDelta e) (int 0) = true) log ->
  negativePurchases log = no_spending.
Proof.
  intros H. unfold Tran.negativePurchases.
  assert (forall acc, foldl (Tran.negative_step toLowerCase ToString) acc log = acc)
    as ->; [|reflexivity].
  induction H as [|e log He _ IH]; intros acc; [done|].
  simpl. by rewrite negative_step_skip.
Qed.

(** X16.  The page reads a record of the store through its [amount]: the
    record has no [delta] and no [ts], so [getDelta] is the amount, which is
    never negative, and [getTs] is 0.  Hence the spending chart stays empty:
    whatever was bought through the store, when no call was given [NaN],
    both bars are 0 with 0 transactions. *)
Theorem X16_spending_chart_stays_empty (ops : list Op) :
  Forall number_args ops ->
  (forall t, Tran.getDelta (encode_transaction t) = amount t
             /\ Tran.getTs (encode_transaction t) = int 0)
  /\ page_log (state (runs ops fresh))
     = encode_transaction <$> transactions (state (runs ops fresh))
  /\ negativePurchases (page_log (state (runs ops fresh))) = no_spending.
Proof.
  intros Hops. split; [done|]. split; [apply page_log_encode|].
  apply negativePurchases_no_negative. rewrite page_log_encode.
  apply Forall_fmap.
  by apply runs_amount_nonneg.
Qed.


(** A row's [running] is what the loop has added up so far. *)
Lemma rows_from_last (n idx : nat) (r : num) (l : list Value) :
  Tran.running <$> last (rows_from n idx r l)
  = match l with
    | [] => None
    | _ => Some (foldl (fun acc it => num_add acc (Tran.getDelta it)) r l)
    end.
Proof.
  revert idx r. induction l as [|it l IH]; intros idx r; [done|].
  destruct l as [|it' l]; [reflexivity|].
  specialize (IH (S idx) (num_add r (Tran.getDelta it))).
  cbn [Tran.rows_from foldl] in *. rewrite last_cons_cons. exact IH.
Qed.

Lemma insert_by_ts_Forall (P : Value -> Prop) (x : Value) (l : list Value) :
  P x -> Forall P l -> Forall P (Tran.insert_by_ts x l).
Proof.
  intros Hx. induction 1 as [|y l Hy Hl IH]; cbn [Tran.insert_by_ts].
  - by constructor.
  - destruct (num_gt _ (int 0)); by repeat constructor.
Qed.

Lemma sort_by_ts_Forall (P : Value -> Prop) (l : list Value) :
  Forall P l -> Forall P (Tran.sort_by_ts l).
Proof.
  induction 1 as [|x l Hx Hl IH]; [constructor|].
  by apply insert_by_ts_Forall.
Qed.

Lemma insert_by_ts_length (x : Value) (l : list Value) :
  length (Tran.insert_by_ts x l) = S (length l).
Proof.
  induction l as [|y l IH]; cbn [Tran.insert_by_ts]; [done|].
  destruct (num_gt _ (int 0)); simpl; by rewrite ?IH.
Qed.

Lemma sort_by_ts_length (l : list Value) :
  length (Tran.sort_by_ts l) = length l.
Proof.
  induction l as [|x l IH]; [done|].
  cbn [Tran.sort_by_ts foldr]. fold (Tran.sort_by_ts l).
  by rewrite insert_by_ts_length, IH.
Qed.

(** Adding whole deltas to a whole number: the sum does not depend on
    where it starts. *)
Lemma sum_deltas_whole (bound : Z) (l : list Value) :
  Forall (whole_entry bound) l ->
  exists t : Z, forall a : Z,
    foldl (fun acc it => num_add acc (Tran.getDelta it)) (int a) l = int (a + t).
Proof.
  induction 1 as [|it l (_ & d & Hd & _) _ (t & IH)].
  - exists 0. intros a. cbn [foldl]. f_equal. lia.
  - exists (d + t). intros a. cbn [foldl].
    rewrite Hd, num_add_int, IH. f_equal. lia.
Qed.

(** X17.  The table's running balance is anchored on the current balance:
    for a log that is not empty, a whole balance and readable entries with
    whole deltas, small enough for every sum of the loop to stay within
    2^53, the row shown first (the last one computed) carries a running
    balance equal to the current money. *)
Theorem X17_running_balance_ends_at_money (money bound : Z) (log : list Value) :
  log <> [] ->
  Forall (whole_entry bound) log ->
  Z.abs money + bound * Z.of_nat (length log) <= 2 ^ 53 ->
  exists row rest,
    tableRows (int money) log = row :: rest
    /\ Tran.running row = int money.
Proof.
  intros Hne Hw _. unfold Tran.tableRows.
  destruct log as [|e0 log0] eqn:Elog; [done|]. rewrite <- Elog in *. clear Hne.
  set (sorted := Tran.sort_by_ts log).
  assert (Forall (whole_entry bound) sorted) as Hs by by apply sort_by_ts_Forall.
  assert (sorted <> []) as Hsne.
  { intros E. apply (f_equal length) in E. unfold sorted in E.
    rewrite sort_by_ts_length, Elog in E. discriminate. }
  destruct (sum_deltas_whole bound sorted Hs) as (t & Ht).
  rewrite Ht, num_sub_int.
  pose proof (rows_from_last (length sorted) 0 (int (money - (0 + t))) sorted)
    as Hl.
  destruct sorted as [|s0 sorted'] eqn:Es; [done|]. rewrite <- Es in *.
  rewrite <- head_reverse in Hl.
  destruct (reverse _) as [|row rest]; [done|].
  exists row, rest. split; [done|]. cbn [head fmap option_fmap option_map] in Hl.
  injection Hl as Hl. rewrite Hl, Ht. f_equal. lia.
Qed.

Lemma sort_by_ts_store_log (l : list Transaction) :
  Tran.sort_by_ts (encode_transaction <$> l) = encode_transaction <$> l.
Proof.
  induction l as [|t l IH]; [done|].
  rewrite fmap_cons. cbn [Tran.sort_by_ts foldr].
  fold (Tran.sort_by_ts (encode_transaction <$> l)). rewrite IH.
  destruct l as [|t' l]; reflexivity.
Qed.

Lemma rows_from_delta (n idx : nat) (r : num) (l : list Value) :
  Tran.delta <$> rows_from n idx r l = Tran.getDelta <$> l.
Proof.
  revert idx r. induction l as [|it l IH]; intros idx r; [done|].
  cbn [Tran.rows_from]. rewrite !fmap_cons, IH. reflexivity.
Qed.

Lemma rows_from_when (n idx : nat) (r : num) (l : list Value) :
  Tran.when <$> rows_from n idx r l
  = (fun i => "Session " +:+ pretty (n - i)%nat) <$> seq idx (length l).
Proof.
  revert idx r. induction l as [|it l IH]; intros idx r; [done|].
  cbn [Tran.rows_from length seq]. rewrite !fmap_cons, IH. reflexivity.
Qed.

Lemma reverse_countdown {A} (h : nat -> A) (k n : nat) :
  reverse ((fun i => h (k + n - i)%nat) <$> seq k n) = h <$> seq 1 n.
Proof.
  revert k. induction n as [|n IH]; intros k; [done|].
  rewrite (seq_S n 1), fmap_snoc.
  change (seq k (S n)) with (k :: seq (S k) n).
  rewrite fmap_cons, reverse_cons. f_equal.
  - rewrite <- (IH (S k)). f_equal. apply list_fmap_ext.
    intros i x _. f_equal. lia.
  - do 2 f_equal. lia.
Qed.

(** X18.  How the table lists the store's log.  The records have no [ts],
    so the sort leaves them in the order of the log, newest first, and the
    final reversal puts the oldest record on top: read from the top the
    rows carry the amounts of the log oldest first, and they are labelled
    "Session 1", "Session 2", ... in that order. *)
Theorem X18_table_lists_oldest_first (money : num) (s : GameState) :
  Tran.sort_by_ts (page_log s) = page_log s
  /\ Tran.delta <$> tableRows money (page_log s)
     = reverse (amount <$> transactions s)
  /\ Tran.when <$> tableRows money (page_log s)
     = (fun k => "Session " +:+ pretty k)
         <$> seq 1 (length (transactions s)).
Proof.
  rewrite page_log_encode.
  split; [apply sort_by_ts_store_log|].
  unfold Tran.tableRows. rewrite sort_by_ts_store_log.
  destruct (transactions s) as [|t l] eqn:E; [by repeat split|].
  rewrite <- E. clear E.
  assert (match encode_transaction <$> transactions s with
          | [] => []
          | _ :: _ =>
              reverse
                (rows_from (length (encode_transaction <$> transactions s)) 0
                   (num_sub money
                      (foldl (fun acc it => num_add acc (Tran.getDelta it))
                         (int 0) (encode_transaction <$> transactions s)))
                   (encode_transaction <$> transactions s))
          end
          = reverse
              (rows_from (length (encode_transaction <$> transactions s)) 0
                 (num_sub money
                    (foldl (fun acc it => num_add acc (Tran.getDelta it))
                       (int 0) (encode_transaction <$> transactions s)))
                 (encode_transaction <$> transactions s))) as ->.
  { by destruct (transactions s). }
  rewrite !fmap_reverse, rows_from_delta, rows_from_when.
  rewrite !length_fmap. split.
  - f_equal. rewrite <- list_fmap_compose. reflexivity.
  - apply (reverse_countdown (fun k => "Session " +:+ pretty k) 0).
Qed.

End TranPage.

Lemma X16_spending_chart_stays_empty_witness :
  Forall number_args [ApplyMoneyDelta env0 (int 100) None;
                      ApplyMoneyDelta env0 (int (-12))
                        (Some (mkMeta (Some "Salon") (Some "Bought collar")))]
  /\ Tran.negativePurchases (fun s => s) (fun _ => "")
       (page_log
          (state (runs [ApplyMoneyDelta env0 (int 100) None;
                        ApplyMoneyDelta env0 (int (-12))
                          (Some (mkMeta (Some "Salon") (Some "Bought collar")))]
                    fresh)))
     = no_spending.
Proof.
  assert (Forall number_args
            [ApplyMoneyDelta env0 (int 100) None;
             ApplyMoneyDelta env0 (int (-12))
               (Some (mkMeta (Some "Salon") (Some "Bought collar")))]) as H
    by (repeat constructor; discriminate).
  split; [exact H|].
  apply (X16_spending_chart_stays_empty (fun s => s) (fun _ => "") _ H).
Defined.

Lemma X17_running_balance_ends_at_money_witness :
  Forall (whole_entry 100)
    (page_log
       (state (runs [ApplyMoneyDelta env0 (int 100) None;
                     ApplyMoneyDelta env0 (int (-12)) None] fresh)))
  /\ exists row rest,
       Tran.tableRows (fun _ => "") (fun _ => "") (int 88)
         (page_log
            (state (runs [ApplyMoneyDelta env0 (int 100) None;
                          ApplyMoneyDelta env0 (int (-12)) None] fresh)))
       = row :: rest
       /\ Tran.running row = int 88.
Proof.
  assert (Forall (whole_entry 100)
            (page_log
               (state (runs [ApplyMoneyDelta env0 (int 100) None;
                             ApplyMoneyDelta env0 (int (-12)) None] fresh))))
    as H.
  { repeat constructor; try discriminate.
    - exists 12. split; [reflexivity | lia].
    - exists 100. split; [reflexivity | lia]. }
  split; [exact H|].
  apply (X17_running_balance_ends_at_money (fun _ => "") (fun _ => "") 88 100).
  - discriminate.
  - exact H.
  - vm_compute. discriminate.
Defined.

(* ================================================================= *)
(** ** The savings account of the Transactions page *)

Lemma availableMain_whole (m s : Z) :
  Tran.availableMain (int m) (int s) = int (Z.max 0 (m - s)).
Proof.
  unfold Tran.availableMain. by rewrite num_sub_int, Math_floor_int, Math_max_int.
Qed.

Lemma nearest_double_small (z : Z) :
  z < 2 ^ 53 -> Tran.nearest_double z = int z.
Proof.
  intros H. unfold Tran.nearest_double.
  by destruct (Z.ltb_spec z (2 ^ 53)); [|lia].
Qed.

(** The exponent and the 53 leading bits of a whole number from 2^53 on. *)
Lemma nearest_double_parts (z : Z) :
  2 ^ 53 <= z ->
  let e := Z.log2 z - 52 in
  1 <= e /\ 2 ^ 52 <= z / 2 ^ e < 2 ^ 53 /\ 0 <= z mod 2 ^ e < 2 ^ e.
Proof.
  intros Hz e.
  assert (0 < z) as Hpos by lia.
  destruct (Z.log2_spec z Hpos) as [Hlo Hhi].
  assert (53 <= Z.log2 z) as HL.
  { apply Z.log2_le_pow2; [lia|]. exact Hz. }
  assert (1 <= e) as He by (unfold e; lia).
  assert (0 < 2 ^ e) as Hpe by (apply Z.pow_pos_nonneg; lia).
  assert (2 ^ Z.log2 z = 2 ^ 52 * 2 ^ e) as E1.
  { rewrite <- Z.pow_add_r by lia. f_equal. unfold e. lia. }
  assert (2 ^ Z.succ (Z.log2 z) = 2 ^ 53 * 2 ^ e) as E2.
  { rewrite <- Z.pow_add_r by lia. f_equal. unfold e. lia. }
  split; [done|]. split; [|by apply Z.mod_pos_bound].
  split.
  - apply Z.div_le_lower_bound; [done|]. lia.
  - apply Z.div_lt_upper_bound; [done|]. lia.
Qed.

(** Rounding does not take a number from 2^53 on below 2^53. *)
Lemma nearest_double_large (z : Z) :
  2 ^ 53 <= z ->
  Tran.nearest_double z = PInf
  \/ exists n, Tran.nearest_double z = int n /\ 2 ^ 53 <= n.
Proof.
  intros Hz. destruct (nearest_double_parts z Hz) as (He & Hq & Hr).
  unfold Tran.nearest_double. destruct (Z.ltb_spec z (2 ^ 53)); [lia|]. cbv zeta.
  set (e := Z.log2 z - 52) in *. set (q := z / 2 ^ e) in *.
  match goal with |- context [if ?c then q + 1 else q] =>
    set (q' := if c then q + 1 else q) end.
  assert (q <= q') as Hq'.
  { unfold q'. match goal with |- context [if ?c then _ else _] =>
      destruct c end; lia. }
  destruct (Z.leb_spec (2 ^ 1024) (q' * 2 ^ e)); [by left|]. right.
  eexists. split; [reflexivity|].
  assert (2 ^ 1 <= 2 ^ e) by (apply Z.pow_le_mono_r; lia).
  change (2 ^ 53) with (2 ^ 52 * 2 ^ 1). apply Z.mul_le_mono_nonneg; lia.
Qed.

(** Only a number from [2^1024 - 2^970] on rounds to [Infinity]. *)
Lemma nearest_double_overflow (z : Z) :
  Tran.nearest_double z = PInf -> 2 ^ 1024 - 2 ^ 970 <= z.
Proof.
  intros H. destruct (Z.lt_ge_cases z (2 ^ 1024 - 2 ^ 970)) as [Hlt|]; [|done].
  exfalso. destruct (Z.lt_ge_cases z (2 ^ 53)) as [Hs | Hz].
  { by rewrite nearest_double_small in H. }
  destruct (nearest_double_parts z Hz) as (He & Hq & Hr).
  unfold Tran.nearest_double in H. destruct (Z.ltb_spec z (2 ^ 53)); [lia|].
  cbv zeta in H.
  assert (Z.log2 z < 1024) as HL.
  { apply Z.log2_lt_pow2; [lia|]. lia. }
  destruct (Z.eq_dec (Z.log2 z) 1023) as [E | Hne].
  - rewrite E in *. change (1023 - 52) with 971 in *.
    assert (z = 2 ^ 971 * (z / 2 ^ 971) + z mod 2 ^ 971) as Hz'
      by (apply Z.div_mod; lia).
    set (q := z / 2 ^ 971) in *. set (r := z mod 2 ^ 971) in *.
    destruct (Z.ltb_spec (2 ^ (971 - 1)) r);
      destruct (Z.eqb_spec r (2 ^ (971 - 1))); cbn [orb andb] in H; try lia.
    + destruct (Z.leb_spec (2 ^ 1024) ((q + 1) * 2 ^ 971)); [lia | discriminate].
    + destruct (Z.odd q);
        [destruct (Z.leb_spec (2 ^ 1024) ((q + 1) * 2 ^ 971))
        |destruct (Z.leb_spec (2 ^ 1024) (q * 2 ^ 971))]; try discriminate; lia.
    + destruct (Z.leb_spec (2 ^ 1024) (q * 2 ^ 971)); [lia | discriminate].
  - set (e := Z.log2 z - 52) in *.
    set (q := z / 2 ^ e) in *. set (r := z mod 2 ^ e) in *.
    match type of H with context [if ?c then q + 1 else q] =>
      set (q' := if c then q + 1 else q) in H end.
    destruct (Z.leb_spec (2 ^ 1024) (q' * 2 ^ e)) as [Hbig|]; [|discriminate].
    assert (0 <= q' <= 2 ^ 53) as Hq'.
    { unfold q'. match goal with |- context [if ?c then _ else _] =>
        destruct c end; lia. }
    assert (2 ^ e <= 2 ^ 970) by (apply Z.pow_le_mono_r; unfold e; lia).
    assert (q' * 2 ^ e <= 2 ^ 53 * 2 ^ 970)
      by (apply Z.mul_le_mono_nonneg; lia).
    lia.
Qed.

(** X19.  A deposit never takes more than the main balance has left.  With
    whole balances [0 <= savings <= money <= 2^53], whatever is typed, the
    handler either returns at its guard (no digit typed, or the digits
    write 0 or a number that rounds to [Infinity]) or moves a whole amount,
    the smaller of the number typed and what the main balance has left: the
    new savings balance is at least the old one and at most the money, and
    the number written to storage is that balance. *)
Theorem X19_deposit_within_money (input : string) (m s : Z) :
  0 <= s <= m -> m <= 2 ^ 53 ->
  match Tran.depositToSavings input (int m) (int s) with
  | None =>
      Tran.digits_value (Tran.digits_only input) <= 0
      \/ 2 ^ 1024 - 2 ^ 970 <= Tran.digits_value (Tran.digits_only input)
  | Some (next, stored) =>
      exists n : Z,
        next = int n /\ stored = int n /\ s <= n <= m
        /\ n = s + Z.min (Tran.digits_value (Tran.digits_only input)) (m - s)
  end.
Proof.
  intros Hs Hm. unfold Tran.depositToSavings, Tran.Number_digits.
  set (z := Tran.digits_value (Tran.digits_only input)).
  assert (forall a : Z,
             0 < a -> Z.min a (m - s) = Z.min z (m - s) ->
             exists n : Z,
               num_add (int s) (Math_min (int a) (Tran.availableMain (int m) (int s)))
               = int n
               /\ Tran.writeLocalNumber
                    (num_add (int s)
                       (Math_min (int a) (Tran.availableMain (int m) (int s))))
                  = int n
               /\ s <= n <= m /\ n = s + Z.min z (m - s)) as Hmove.
  { intros a Ha Hmin.
    rewrite availableMain_whole, Math_min_int, num_add_int.
    exists (s + Z.min a (Z.max 0 (m - s))). split; [done|]. split.
    - unfold Tran.writeLocalNumber. rewrite Math_floor_int, Math_max_int.
      f_equal. lia.
    - lia. }
  destruct (Z.lt_ge_cases z (2 ^ 53)) as [Hsmall | Hbig].
  - rewrite nearest_double_small by done.
    cbn [isFinite int negb orb]. fold (int z). rewrite num_le_int.
    destruct (Z.leb_spec z 0) as [Hz | Hz]; [by left|].
    by apply Hmove.
  - destruct (nearest_double_large z Hbig) as [E | (a & E & Ha)].
    + rewrite E. cbn [isFinite negb orb]. right.
      by apply nearest_double_overflow.
    + rewrite E. cbn [isFinite int negb orb]. fold (int a). rewrite num_le_int.
      destruct (Z.leb_spec a 0) as [Hz | Hz]; [lia|].
      apply Hmove; lia.
Qed.

Lemma X19_deposit_within_money_witness :
  0 <= 30 <= 100
  /\ Tran.depositToSavings "$1.5" (int 100) (int 30) = Some (int 45, int 45)
  /\ Tran.depositToSavings "500" (int 100) (int 30) = Some (int 100, int 100)
  /\ Tran.depositToSavings "-" (int 100) (int 30) = None.
Proof.
  split; [lia|].
  pose proof (X19_deposit_within_money "$1.5" 100 30) as H1.
  pose proof (X19_deposit_within_money "500" 100 30) as H2.
  split; [|split; [|reflexivity]].
  - destruct (Tran.depositToSavings "$1.5" (int 100) (int 30))
      as [[next stored]|] eqn:E.
    + destruct H1 as (n & -> & -> & _ & ->); [lia | lia |]. reflexivity.
    + discriminate E.
  - destruct (Tran.depositToSavings "500" (int 100) (int 30))
      as [[next stored]|] eqn:E.
    + destruct H2 as (n & -> & -> & _ & ->); [lia | lia |]. reflexivity.
    + discriminate E.
Defined.

(* ================================================================= *)
(** ** The earnings chart of the Transactions page *)

Section EarningsChart.

Variable toLowerCase : string -> string.
Variable ToString : Value -> string.

Lemma positive_step_as_income acc (t : Transaction) :
  Tran.positive_step toLowerCase ToString acc (encode_transaction t)
  = Tran.positive_step toLowerCase ToString acc
      (encode_transaction (as_income t)).
Proof. reflexivity. Qed.

(** X26.  The earnings chart does not read a record's [type].  On the
    store's log the bars and counts of [positiveActivities] are those of the
    same log with every record marked as income: a spending the store
    recorded with a positive amount is added to the earnings of the place
    its category or note names. *)
Theorem X26_earnings_chart_ignores_type (s : GameState) :
  Tran.positiveActivities toLowerCase ToString (page_log s)
  = Tran.positiveActivities toLowerCase ToString
      (encode_transaction <$> (as_income <$> transactions s)).
Proof.
  change (page_log s) with (encode_transaction <$> transactions s).
  unfold Tran.positiveActivities.
  assert (forall acc,
            foldl (Tran.positive_step toLowerCase ToString) acc
              (encode_transaction <$> transactions s)
            = foldl (Tran.positive_step toLowerCase ToString) acc
                (encode_transaction <$> (as_income <$> transactions s)))
    as ->; [|reflexivity].
  induction (transactions s) as [|t ts IH]; intros acc; [done|].
  cbn [fmap list_fmap foldl]. rewrite <- positive_step_as_income. apply IH.
Qed.

End EarningsChart.

(* ================================================================= *)
(** ** The pages on the store *)

Lemma buy_eq (a : AccessoryId) env (seen : num) (w : World) :
  Articles.buy a env seen w
  = if num_lt seen (int (Articles.cost a)) then w
    else run (AddOwnedAccessory a (Some (int 1)))
           (run (ApplyMoneyDelta env (int (- Articles.cost a))
                   (Articles.salon (Articles.bought_note a))) w).
Proof. by destruct a. Qed.

(** X20.  A salon button charges and delivers together.  When the balance
    the page rendered with is below the price the store is left unchanged.
    Otherwise, for a whole balance of at most 2^53 and a whole owned count
    below 2^53, the store's balance drops by the price, floored at 0, the
    owned count of the accessory goes up by one, and the newest record of
    the log is the "Salon" expense of that price.  When the page's balance is
    the store's, the price is charged in full. *)
Theorem X20_salon_button_charges_and_delivers
  (a : AccessoryId) env (seen : num) (w : World) (m n : Z) :
  Held w -> money (state w) = int m -> m <= 2 ^ 53 ->
  accessory_get a (ownedAccessories (state w)) = int n -> 0 <= n < 2 ^ 53 ->
  (num_lt seen (int (Articles.cost a)) = true ->
     Articles.buy a env seen w = w)
  /\ (num_lt seen (int (Articles.cost a)) = false ->
        money (state (Articles.buy a env seen w))
          = int (Z.max 0 (m - Articles.cost a))
        /\ accessory_get a
             (ownedAccessories (state (Articles.buy a env seen w)))
           = int (n + 1)
        /\ exists rec,
             head (transactions (state (Articles.buy a env seen w))) = Some rec
             /\ type rec = expense
             /\ amount rec = int (Articles.cost a)
             /\ category rec = "Salon"
             /\ note rec = Articles.bought_note a)
  /\ (seen = int m -> Articles.cost a <= m ->
        money (state (Articles.buy a env seen w))
          = int (m - Articles.cost a)).
Proof.
  intros Hw Hm _ Hown [Hn _]. rewrite buy_eq.
  set (pay := ApplyMoneyDelta env (int (- Articles.cost a))
                (Articles.salon (Articles.bought_note a))).
  assert (committed (state (run pay w))) as Hc1
    by by apply run_committed, Held_committed.
  assert (money (state (run (AddOwnedAccessory a (Some (int 1))) (run pay w)))
          = int (Z.max 0 (m - Articles.cost a))) as Hmoney.
  { rewrite run_money by done. cbn [money_after].
    rewrite run_money by by apply Held_committed. cbn [money_after pay].
    rewrite Hm, num_add_int, Math_round_int, Math_max_int, floor0_int.
    f_equal. lia. }
  split; [by intros ->|]. split.
  - intros ->. split; [exact Hmoney|]. split.
    + change (run (AddOwnedAccessory a (Some (int 1))) (run pay w))
        with (addOwnedAccessory a (Some (Fin (inject_Z 1))) (run pay w)).
      destruct (addOwnedAccessory_whole a (inject_Z 1) n (run pay w)) as [-> _];
        [done | done | exact Hown | by rewrite Qfloor_Z].
    + rewrite run_transactions. cbn [log_after].
      rewrite run_transactions. cbn [log_after pay].
      eexists. split; [reflexivity|]. by destruct a.
  - intros -> Hle. rewrite num_lt_int.
    destruct (Z.ltb_spec m (Articles.cost a)); [lia|].
    rewrite Hmoney. f_equal. lia.
Qed.

Lemma X20_salon_button_charges_and_delivers_witness :
  Held (with_balance (int 20))
  /\ money (state (Articles.buy Collar env0 (int 20) (with_balance (int 20))))
     = int 8
  /\ accessory_get Collar
       (ownedAccessories
          (state (Articles.buy Collar env0 (int 20) (with_balance (int 20)))))
     = int 1
  /\ Articles.buy Headband env0 (int 14) (with_balance (int 14))
     = with_balance (int 14).
Proof.
  destruct (X20_salon_button_charges_and_delivers Collar env0 (int 20)
              (with_balance (int 20)) 20 0 (Held_boot _ _) eq_refl)
    as (_ & H2 & H3); [lia | reflexivity | lia |].
  destruct (X20_salon_button_charges_and_delivers Headband env0 (int 14)
              (with_balance (int 14)) 14 0 (Held_boot _ _) eq_refl)
    as (H1 & _); [lia | reflexivity | lia |].
  split; [apply Held_boot|].
  split; [apply H3; [reflexivity | simpl; lia]|].
  split; [apply (H2 eq_refl) | apply (H1 eq_refl)].
Defined.

(** X21.  The badges Home recomputes are the store's: on a state the store
    holds, with the page's copy of the owned counts, the three accessory
    badges of [homeBadges] are those of the committed state whatever the
    pet's age, and all nine agree when the age shown is [daysPlayed]. *)
Theorem X21_home_badges_agree (w : World) (age : num) :
  Held w ->
  accessory_1 (Home.homeBadges (ownedAccessories (state w)) age)
    = accessory_1 (badges (state w))
  /\ accessory_2 (Home.homeBadges (ownedAccessories (state w)) age)
     = accessory_2 (badges (state w))
  /\ accessory_4 (Home.homeBadges (ownedAccessories (state w)) age)
     = accessory_4 (badges (state w))
  /\ Home.homeBadges (ownedAccessories (state w)) (daysPlayed (state w))
     = badges (state w).
Proof.
  intros Hw. destruct (Held_committed _ Hw) as [_ ->]. by repeat split.
Qed.

Lemma X21_home_badges_agree_witness :
  Held (run (AddOwnedAccessory Leash (Some (int 2))) fresh)
  /\ Home.homeBadges
       (ownedAccessories (state (run (AddOwnedAccessory Leash (Some (int 2))) fresh)))
       (daysPlayed (state (run (AddOwnedAccessory Leash (Some (int 2))) fresh)))
     = badges (state (run (AddOwnedAccessory Leash (Some (int 2))) fresh)).
Proof.
  assert (Held (run (AddOwnedAccessory Leash (Some (int 2))) fresh)) as H
    by apply Held_run, Held_boot.
  split; [exact H|]. apply (X21_home_badges_agree _ (int 0) H).
Defined.



(** X23.  Home's equip check is the store's.  With the page's copy of the
    owned counts equal to the store's, [onToggleEquip] acts exactly like
    [setEquippedAccessory]; and with any copy, however stale, equipping an
    accessory whose count in the store is 0 or below changes nothing. *)
Theorem X23_home_equip_check_is_the_stores
  (copy : OwnedAccessories) (a : AccessoryId) (value : bool) (w : World) :
  Home.onToggleEquip (ownedAccessories (state w)) a value w
    = setEquippedAccessory a value w
  /\ (num_le (accessory_get a (ownedAccessories (state w))) (int 0) = true ->
      Home.onToggleEquip copy a true w = w).
Proof.
  unfold Home.onToggleEquip, setEquippedAccessory. split.
  - rewrite (andb_comm value). by destruct (_ && _).
  - intros H. rewrite H. cbn [andb]. by destruct (_ && _).
Qed.

Lemma X23_home_equip_check_is_the_stores_witness :
  num_le (accessory_get Collar (ownedAccessories (state fresh))) (int 0) = true
  /\ Home.onToggleEquip (mkAccessoryRecord (int 3) (int 0) (int 0))
       Collar true fresh = fresh.
Proof.
  split; [reflexivity|].
  apply (X23_home_equip_check_is_the_stores
           (mkAccessoryRecord (int 3) (int 0) (int 0)) Collar true fresh).
  reflexivity.
Defined.

(** X24.  Home gives a pet without a saved age the age 10, and leaves a
    saved age alone.  So for a pet that had no age the "5 Days" and
    "10 Days" badges of Home are on and the "15 Days" badge is off, whatever
    the store's [daysPlayed]; the ages of the other pets are not touched,
    and running the effect again changes nothing. *)
Theorem X24_home_default_age
  (id : AnimalId) (ages : PetAges) (owned : OwnedAccessories) :
  (animal_get id ages = None ->
     age_of id (Home.ensureAge id ages) = int 10
     /\ days_5 (Home.homeBadges owned (age_of id (Home.ensureAge id ages))) = true
     /\ days_10 (Home.homeBadges owned (age_of id (Home.ensureAge id ages))) = true
     /\ days_15 (Home.homeBadges owned (age_of id (Home.ensureAge id ages))) = false)
  /\ (forall n, animal_get id ages = Some n -> Home.ensureAge id ages = ages)
  /\ (forall id', id <> id' ->
        animal_get id' (Home.ensureAge id ages) = animal_get id' ages)
  /\ Home.ensureAge id (Home.ensureAge id ages) = Home.ensureAge id ages.
Proof.
  unfold Home.ensureAge. split; [|split; [|split]].
  - intros ->. unfold age_of. rewrite animal_get_set_eq. by repeat split.
  - by intros n ->.
  - intros id' Hne. destruct (animal_get id ages); [done|].
    by rewrite animal_get_set_ne.
  - destruct (animal_get id ages) eqn:E; [by rewrite E|].
    by rewrite animal_get_set_eq.
Qed.

Lemma X24_home_default_age_witness :
  animal_get Dog (petAges fresh) = None
  /\ age_of Dog (Home.ensureAge Dog (petAges fresh)) = int 10
  /\ days_10 (Home.homeBadges (ownedAccessories (state fresh))
                (age_of Dog (Home.ensureAge Dog (petAges fresh)))) = true
  /\ days_10 (badges (state fresh)) = false.
Proof.
  destruct (X24_home_default_age Dog (petAges fresh)
              (ownedAccessories (state fresh))) as (H & _).
  destruct (H eq_refl) as (H1 & _ & H3 & _).
  split; [reflexivity|]. split; [exact H1|]. split; [exact H3 | reflexivity].
Defined.

(** X25.  The mood never gets worse when the needs go up: for finite
    needs, raising any of hunger, fun, health and bathroom moves
    [moodFromNeeds] up or leaves it, in the order Sick, Sad, Energetic,
    Happy. *)
Theorem X25_mood_is_monotone (h f he b h' f' he' b' : Q) :
  (h <= h')%Q -> (f <= f')%Q -> (he <= he')%Q -> (b <= b')%Q ->
  (mood_rank (Articles.moodFromNeeds (Fin h) (Fin f) (Fin he) (Fin b))
   <= mood_rank (Articles.moodFromNeeds (Fin h') (Fin f') (Fin he') (Fin b')))%nat.
Proof.
  intros Hh Hf Hhe Hb. unfold Articles.moodFromNeeds, num_ge.
  cbn [num_add Articles.quarter num_lt num_le int].
  qcases; cbn [mood_rank]; try lia; exfalso;
    unfold inject_Z, Qdiv in *; change (/ 4)%Q with (1 # 4)%Q in *; lra.
Qed.

Lemma X25_mood_is_monotone_witness :
  (mood_rank (Articles.moodFromNeeds (Fin 70) (Fin 70) (Fin 75) (Fin 70))
   <= mood_rank (Articles.moodFromNeeds (Fin 100) (Fin 70) (Fin 75) (Fin 100)))%nat
  /\ Articles.moodFromNeeds (Fin 70) (Fin 70) (Fin 75) (Fin 70) = Articles.Energetic
  /\ Articles.moodFromNeeds (Fin 100) (Fin 70) (Fin 75) (Fin 100) = Articles.Happy.
Proof.
  split; [|split; reflexivity].
  apply (X25_mood_is_monotone 70 70 75 70 100 70 75 100); discriminate.
Defined.
